(** * Sales-roleplay backend: PII redaction and session analysis

    A shallow embedding of [redactPII], [analyzeSession] (both the
    two-argument function of [server.js] and the transcript-only variant of
    the older server files), [analyzeGoogleAdsPerformance] and the part of
    the [/api/sessions/end] handler that decides its HTTP answer; further on,
    of [generateCoachingRecommendations], [authenticateToken], the handlers
    of the chat, of the list of scenarios, of the session history and
    details and of the Google Ads analysis, and of [analyzeTranscript] of
    the first server file.

    Conventions of the model.
    - A JavaScript string is a list of code units; the model covers the code
      units 0..255, written [ascii].
    - A JavaScript number that the code only ever uses as an integer is a
      [Z]; array lengths are below 2^32 and enter the arithmetic exactly.
      Where the code divides, multiplies or subtracts numbers that need not
      be integers, the number is the rational value [Q] of a double and the
      operation rounds its exact result to the nearest double ([fl]).
      Infinities and subnormal numbers are out of the reach of the modelled
      arithmetic and are not modelled in it; NaN arises from [parseInt]
      only, and a number that may be NaN is an [option Q].  A number of a
      request body, with which the code never computes, is a
      [Request.JsNumber], finite or not.
    - A [throw] is the [Throw] constructor of [completion].
    - [analyzeSession] and [analyzeGoogleAdsPerformance] are embedded twice.
      First for a transcript that is a string or missing and a history that
      is a list of turns, objects with a speaker and a message; then, in
      [Request], for any values of the request body: [null], numbers,
      arrays and objects as the transcript, the history or an element of it.
      What is said of all requests is said of the second embedding, as are
      the answers of the handlers that receive a history; on turns the two
      embeddings agree ([analyzeSession_of_objects],
      [analyzeGoogleAdsPerformance_of_objects]).
    - What a handler gets from outside (the rows of a sheet, the reply of
      the language model, the verdict on a token, the order a sort by dates
      gives) is an argument of its model. *)

From Stdlib Require Import Ascii String ZArith NArith QArith Qround Qminmax.
From Stdlib Require Import Qpower Qreduction Bool Arith Lia Lqa List.
Import ListNotations.

Set Warnings "-notation-for-abbreviation,-register-all".

(** ** JavaScript strings *)

Module Js.

Notation jsstring := (list ascii).

(** String literal of the source. *)
Definition lit (s : string) : jsstring := list_ascii_of_string s.

Definition code (c : ascii) : N := N_of_ascii c.

Definition in_range (lo hi : N) (c : ascii) : bool :=
  ((lo <=? code c) && (code c <=? hi))%N.

Definition is_upper (c : ascii) : bool := in_range 65 90 c.
Definition is_lower (c : ascii) : bool := in_range 97 122 c.
Definition is_digit (c : ascii) : bool := in_range 48 57 c.

(** [\w] of a regular expression without the [u] and [i] flags. *)
Definition is_word (c : ascii) : bool :=
  is_upper c || is_lower c || is_digit c || (code c =? 95)%N.

(** [\s], which is also the set [String.prototype.trim] strips: TAB, LF, VT,
    FF, CR, SPACE and NBSP are the members below code unit 256. *)
Definition is_space (c : ascii) : bool :=
  in_range 9 13 c || (code c =? 32)%N || (code c =? 160)%N.

(** [String.prototype.toLowerCase] on one code unit: A-Z, and the Latin-1
    capitals U+00C0..U+00DE except the multiplication sign U+00D7. *)
Definition lower_char (c : ascii) : ascii :=
  if is_upper c then ascii_of_N (code c + 32)
  else if in_range 192 222 c && negb (code c =? 215)%N
       then ascii_of_N (code c + 32)
       else c.

Definition toLowerCase (s : jsstring) : jsstring := map lower_char s.

Fixpoint startsWith (s p : jsstring) : bool :=
  match p, s with
  | [], _ => true
  | _ :: _, [] => false
  | a :: p', b :: s' => Ascii.eqb a b && startsWith s' p'
  end.

(** [s.includes(sub)]: [sub] occurs in [s] at some position. *)
Fixpoint includes (s sub : jsstring) : bool :=
  startsWith s sub ||
  match s with
  | [] => false
  | _ :: s' => includes s' sub
  end.

(** [s.split(/[class]+/)] for a character class: the pieces between maximal
    runs of separators, with the empty pieces JavaScript produces at a
    leading or trailing run.  [cur] is the piece being read, [insep] tells
    that the previous code unit was a separator. *)
Fixpoint split_loop (sep : ascii -> bool) (cur : jsstring) (insep : bool)
                    (s : jsstring) : list jsstring :=
  match s with
  | [] => [cur]
  | c :: s' =>
      if sep c
      then if insep then split_loop sep cur true s'
           else cur :: split_loop sep [] true s'
      else split_loop sep (cur ++ [c]) false s'
  end.

Definition split_runs (sep : ascii -> bool) (s : jsstring) : list jsstring :=
  split_loop sep [] false s.

(** [s.trim().length > 0] *)
Definition trim_nonempty (s : jsstring) : bool :=
  existsb (fun c => negb (is_space c)) s.

(** [arr.join(sep)] on an array of strings. *)
Fixpoint join (sep : jsstring) (l : list jsstring) : jsstring :=
  match l with
  | [] => []
  | [x] => x
  | x :: l' => x ++ sep ++ join sep l'
  end.

(** *** Numbers

    The arithmetic of IEEE-754 binary64 on the rational values of doubles:
    the exact result, rounded to 53 significant bits, ties to the even
    significand. *)

Definition pow2 (k : Z) : Q := Qpower 2 k.

(** The nearest integer, ties to even. *)
Definition rne (x : Q) : Z :=
  let f := Qfloor x in
  match Qcompare (x - inject_Z f) (1 # 2) with
  | Lt => f
  | Gt => (f + 1)%Z
  | Eq => if Z.even f then f else (f + 1)%Z
  end.

(** The exponent [e] of a positive rational: [2^e <= q < 2^(e+1)]. *)
Definition binade (q : Q) : Z :=
  let e := (Z.log2 (Qnum q) - Z.log2 (Zpos (Qden q)))%Z in
  if Qle_bool (pow2 e) q then e else (e - 1)%Z.

(** The double nearest to a positive rational: a multiple of
    [2^(e-52)], the unit in the last place of its binade. *)
Definition round_pos (q : Q) : Q :=
  let ulp := pow2 (binade q - 52) in
  inject_Z (rne (q / ulp)) * ulp.

Definition fl (q : Q) : Q :=
  Qred match Qnum q with
       | Z0 => 0
       | Zpos _ => round_pos q
       | Zneg _ => - round_pos (- q)
       end.

(** [x / y], [x * y] and [x - y] on doubles. *)
Definition div (x y : Q) : Q := fl (x / y).
Definition mul (x y : Q) : Q := fl (x * y).
Definition sub (x y : Q) : Q := fl (x - y).

(** [Math.round]: nearest integer, ties towards plus infinity. *)
Definition Math_round (x : Q) : Z := Qfloor (x + (1 # 2)).

Definition Math_ceil (x : Q) : Z := Qceiling x.

End Js.

Import Js.


(** ** Regular expressions

    The fragment of JavaScript regular expressions the source uses, with the
    backtracking order of the ECMAScript matcher. *)

Module Regex.

Inductive regex :=
| Eps
| Cls (f : ascii -> bool)          (* one code unit of a class *)
| Seq (r1 r2 : regex)
| Alt (r1 r2 : regex)              (* [r1|r2], [r1] tried first *)
| Star (f : ascii -> bool)         (* [[class]*], greedy *)
| Bnd.                             (* [\b] *)

(** A position in the input: the code unit before it ([None] at the start of
    the input) and the input from it on. *)
Definition state : Type := option ascii * jsstring.

Definition wordb (c : option ascii) : bool :=
  match c with
  | Some c => is_word c
  | None => false
  end.

(** [\b] holds where exactly one of the two neighbours is a word character. *)
Definition at_boundary (prev : option ascii) (s : jsstring) : bool :=
  xorb (wordb prev) (wordb (hd_error s)).

(** The positions after [[class]*], longest first. *)
Fixpoint star (f : ascii -> bool) (prev : option ascii) (s : jsstring) : list state :=
  match s with
  | [] => [(prev, s)]
  | c :: s' => if f c then star f (Some c) s' ++ [(prev, s)] else [(prev, s)]
  end.

(** [run r st]: the positions at which a match of [r] started at [st] can
    end, in the order the backtracking matcher tries them. *)
Fixpoint run (r : regex) (st : state) : list state :=
  match r with
  | Eps => [st]
  | Cls f =>
      match snd st with
      | [] => []
      | c :: s' => if f c then [(Some c, s')] else []
      end
  | Seq r1 r2 => flat_map (run r2) (run r1 st)
  | Alt r1 r2 => run r1 st ++ run r2 st
  | Star f => star f (fst st) (snd st)
  | Bnd => if at_boundary (fst st) (snd st) then [st] else []
  end.

(** The match the engine reports at a position: the first one. *)
Definition exec (r : regex) (st : state) : option state := hd_error (run r st).

Definition Chr (c : ascii) : regex := Cls (Ascii.eqb c).
Definition Opt (r : regex) : regex := Alt r Eps.       (* [r?] *)
Definition Plus (f : ascii -> bool) : regex := Seq (Cls f) (Star f).   (* [[class]+] *)

Fixpoint Rep (n : nat) (f : ascii -> bool) : regex :=   (* [[class]{n}] *)
  match n with
  | O => Eps
  | S n' => Seq (Cls f) (Rep n' f)
  end.

Fixpoint seqs (l : list regex) : regex :=
  match l with
  | [] => Eps
  | [r] => r
  | r :: l' => Seq r (seqs l')
  end.

(** [s.replace(/r/g, rep)] for a replacement [rep] without [$] patterns.
    [skip] counts the code units of the current match still to be dropped.
    After an empty match the engine advances by one code unit, and it tries
    one last match at the end of the input. *)
Fixpoint replace_loop (r : regex) (rep : jsstring) (prev : option ascii)
                      (skip : nat) (s : jsstring) : jsstring :=
  match s with
  | [] =>
      match skip, exec r (prev, []) with
      | O, Some _ => rep
      | _, _ => []
      end
  | c :: s' =>
      match skip with
      | S n => replace_loop r rep (Some c) n s'
      | O =>
          match exec r (prev, s) with
          | None => c :: replace_loop r rep (Some c) 0 s'
          | Some (_, rest) =>
              match (length s - length rest)%nat with
              | O => rep ++ c :: replace_loop r rep (Some c) 0 s'
              | S n => rep ++ replace_loop r rep (Some c) n s'
              end
          end
      end
  end.

Definition replace_all (r : regex) (rep : jsstring) (s : jsstring) : jsstring :=
  replace_loop r rep None 0 s.

End Regex.

Import Regex.

(** ** PII redaction *)

Definition one_of (set : string) (c : ascii) : bool := existsb (Ascii.eqb c) (lit set).

Definition alnum (c : ascii) : bool := is_upper c || is_lower c || is_digit c.

(** [/\b[A-Za-z0-9._%+-]+@[A-Za-z0-9.-]+\.[A-Z|a-z]{2,}\b/] *)
Definition email_re : regex :=
  let tld c := is_upper c || one_of "|" c || is_lower c in
  seqs [Bnd; Plus (fun c => alnum c || one_of "._%+-" c); Chr "@";
        Plus (fun c => alnum c || one_of ".-" c); Chr ".";
        Cls tld; Cls tld; Star tld; Bnd].

(** [/\b(?:\+?1[-.\s]?)?\(?([0-9]{3})\)?[-.\s]?([0-9]{3})[-.\s]?([0-9]{4})\b/] *)
Definition phone_re : regex :=
  let sep c := one_of "-." c || is_space c in
  seqs [Bnd; Opt (seqs [Opt (Chr "+"); Chr "1"; Opt (Cls sep)]);
        Opt (Chr "("); Rep 3 is_digit; Opt (Chr ")"); Opt (Cls sep);
        Rep 3 is_digit; Opt (Cls sep); Rep 4 is_digit; Bnd].

(** [/\b\d{3}-?\d{2}-?\d{4}\b/] *)
Definition ssn_re : regex :=
  seqs [Bnd; Rep 3 is_digit; Opt (Chr "-"); Rep 2 is_digit; Opt (Chr "-");
        Rep 4 is_digit; Bnd].

(** [/\b\d{4}[-\s]?\d{4}[-\s]?\d{4}[-\s]?\d{4}\b/] *)
Definition card_re : regex :=
  let sep c := one_of "-" c || is_space c in
  seqs [Bnd; Rep 4 is_digit; Opt (Cls sep); Rep 4 is_digit; Opt (Cls sep);
        Rep 4 is_digit; Opt (Cls sep); Rep 4 is_digit; Bnd].

(** [/\b[A-Z][a-z]+ [A-Z][a-z]+\b/] *)
Definition name_re : regex :=
  seqs [Bnd; Cls is_upper; Plus is_lower; Chr " "; Cls is_upper; Plus is_lower; Bnd].

(** The five replacements of [redactPII], in the order it applies them. *)
Definition pii_rules : list (regex * jsstring) :=
  [(email_re, lit "[EMAIL_REDACTED]");
   (phone_re, lit "[PHONE_REDACTED]");
   (ssn_re, lit "[SSN_REDACTED]");
   (card_re, lit "[CARD_REDACTED]");
   (name_re, lit "[NAME_REDACTED]")].

(** The replacements of a list of rules, one after the other. *)
Definition apply_rules (rules : list (regex * jsstring)) (text : jsstring) : jsstring :=
  fold_left (fun text rule => replace_all (fst rule) (snd rule) text) rules text.

(** [redactPII(text)] for a string [text]: the guard [!text] returns the
    empty string as it is, any other string goes through the five
    replacements in turn. *)
Definition redactPII (text : jsstring) : jsstring :=
  match text with
  | [] => text
  | _ :: _ => apply_rules pii_rules text
  end.

(** ** Values, exceptions *)

(** The values a field of a turn received as JSON is modelled to hold. *)
Inductive JsValue :=
| JsUndefined
| JsNull
| JsString (s : jsstring).

Inductive JsError := TypeError.

Inductive completion (A : Type) :=
| Normal (a : A)
| Throw (e : JsError).

Arguments Normal {A} a.
Arguments Throw {A} e.

Definition bind {A B} (m : completion A) (k : A -> completion B) : completion B :=
  match m with
  | Normal a => k a
  | Throw e => Throw e
  end.

Notation "x <- m ;; k" := (bind m (fun x => k))
  (at level 61, m at next level, right associativity).

(** [a || b] and [a && b] where both operands may throw. *)
Definition orM (a b : completion bool) : completion bool :=
  x <- a ;; if x then Normal true else b.

Definition andM (a b : completion bool) : completion bool :=
  x <- a ;; if x then b else Normal false.

(** [arr.filter(f)] where the callback may throw. *)
Fixpoint filterM {A} (f : A -> completion bool) (l : list A) : completion (list A) :=
  match l with
  | [] => Normal []
  | x :: l' =>
      b <- f x ;;
      r <- filterM f l' ;;
      Normal (if b then x :: r else r)
  end.

(** What a completion returned, and whether it returned. *)
Definition value_of (m : completion bool) : bool :=
  match m with
  | Normal b => b
  | Throw _ => false
  end.

Definition returns {A} (m : completion A) : bool :=
  match m with
  | Normal _ => true
  | Throw _ => false
  end.

(** [v.includes(sub)]: a method call on [undefined] or [null] throws. *)
Definition call_includes (v : JsValue) (sub : jsstring) : completion bool :=
  match v with
  | JsString s => Normal (includes s sub)
  | _ => Throw TypeError
  end.

(** [v.toLowerCase().includes(sub)] *)
Definition call_lower_includes (v : JsValue) (sub : jsstring) : completion bool :=
  match v with
  | JsString s => Normal (includes (toLowerCase s) sub)
  | _ => Throw TypeError
  end.

(** The string [Array.prototype.join] uses for an element. *)
Definition join_text (v : JsValue) : jsstring :=
  match v with
  | JsString s => s
  | _ => []
  end.

(** ** Conversation turns and the metrics record *)

Record Turn := mkTurn { speaker : JsValue; message : JsValue }.

(** [msg.speaker === 'user'] *)
Definition is_user (msg : Turn) : bool :=
  match speaker msg with
  | JsString s => if list_eq_dec ascii_dec s (lit "user") then true else false
  | _ => false
  end.

(** The object [analyzeSession] returns.  The last four properties are
    absent ([None]) from the default object. *)
Record MetricsRecord := mkMetrics {
  talkTimeRatio : Z;
  fillerWordCount : Z;
  confidenceScore : Z;
  wordCount : Z;
  averageSentenceLength : Q;
  conversationLength : Z;
  discovery_score : Z;
  product_knowledge_score : Z;
  objection_handling_score : Z;
  business_value_score : Z;
  overall_effectiveness_score : Z;
  google_ads_concepts_used : option (list jsstring);
  discovery_questions_count : option Z;
  objection_handling_count : option Z;
  business_value_mentions : option Z
}.

Definition len {A} (l : list A) : Z := Z.of_nat (length l).

(** [!transcript] for a transcript that is a string, [null] or [undefined]. *)
Definition falsy (transcript : option jsstring) : bool :=
  match transcript with
  | None => true
  | Some [] => true
  | Some (_ :: _) => false
  end.

(** [transcript || ''] *)
Definition or_empty (transcript : option jsstring) : jsstring :=
  match transcript with
  | None => []
  | Some s => s
  end.

Definition fillerWords : list jsstring :=
  map lit ["um"; "uh"; "like"; "you know"; "basically"; "literally"; "actually"]%string.

Definition googleAdsConcepts : list jsstring :=
  map lit
    ["quality score"; "cpc"; "ctr"; "roas"; "performance max"; "smart campaigns";
     "search campaigns"; "display network"; "youtube ads"; "shopping campaigns";
     "keyword research"; "negative keywords"; "bidding strategy"; "ad extensions";
     "conversion tracking"; "remarketing"; "audience targeting"; "budget optimization";
     "google ads"; "advertising"; "marketing"; "campaigns"; "keywords"; "budget"]%string.

(** The chain [m.toLowerCase().includes(k1) || m.toLowerCase().includes(k2) || ...]. *)
Fixpoint lower_includes_any (m : JsValue) (keys : list jsstring) : completion bool :=
  match keys with
  | [] => Normal false
  | [k] => call_lower_includes m k
  | k :: keys' => orM (call_lower_includes m k) (lower_includes_any m keys')
  end.

Definition discoveryKeywords : list jsstring :=
  map lit ["goal"; "currently"; "budget"; "target"; "competition"; "challenge";
           "how"; "what"; "why"; "when"; "where"]%string.

Definition objectionPhrases : list jsstring :=
  map lit ["understand"; "let me explain"; "for example"; "actually"; "what i mean";
           "let me show you"; "i see your point"; "that makes sense"]%string.

Definition businessValueKeywords : list jsstring :=
  map lit ["roi"; "return"; "revenue"; "growth"; "customers"; "sales"; "profit";
           "increase"; "improve"; "results"]%string.

Definition is_discovery_question (msg : Turn) : completion bool :=
  andM (call_includes (message msg) (lit "?"))
       (lower_includes_any (message msg) discoveryKeywords).

Definition default_record : MetricsRecord :=
  {| talkTimeRatio := 50;
     fillerWordCount := 0;
     confidenceScore := 50;
     wordCount := 0;
     averageSentenceLength := 0;
     conversationLength := 0;
     discovery_score := 2;
     product_knowledge_score := 2;
     objection_handling_score := 2;
     business_value_score := 2;
     overall_effectiveness_score := 2;
     google_ads_concepts_used := None;
     discovery_questions_count := None;
     objection_handling_count := None;
     business_value_mentions := None |}.

(** The 1-5 scores, as functions of the counts they are computed from. *)
Definition discovery_score_of (discoveryQuestions : Z) : Z :=
  Z.min 5 (Z.max 1 (Math_ceil (Js.div (inject_Z discoveryQuestions) 2) + 1)).

Definition product_knowledge_score_of (concepts : Z) : Z :=
  Z.min 5 (Z.max 1 (if (0 <? concepts)%Z then concepts + 1 else 1)).

Definition objection_handling_score_of (objectionHandling : Z) : Z :=
  Z.min 5 (Z.max 1 (if (0 <? objectionHandling)%Z then objectionHandling + 2 else 1)).

Definition business_value_score_of (businessValueMentions : Z) : Z :=
  Z.min 5 (Z.max 1 (if (0 <? businessValueMentions)%Z then businessValueMentions + 2 else 1)).

Definition overall_effectiveness_score_of (d p o b : Z) : Z :=
  Z.min 5 (Z.max 1 (Math_ceil (Js.div (inject_Z (d + p + o + b)) 4))).

(** [words.filter(word => fillerWords.some(filler => word.includes(filler)))] *)
Definition is_filler (word : jsstring) : bool :=
  existsb (fun filler => includes word filler) fillerWords.

(** [words.length > 0 ? fillerWordCount / words.length : 0] *)
Definition fillerRatio (fillerWordCount words : Z) : Q :=
  if (0 <? words)%Z then Js.div (inject_Z fillerWordCount) (inject_Z words) else 0.

(** [Math.max(20, Math.min(100, 100 - (fillerRatio * 200)))], before rounding. *)
Definition confidence_raw (fillerWordCount words : Z) : Q :=
  Qmax 20 (Qmin 100 (Js.sub 100 (Js.mul (fillerRatio fillerWordCount words) 200))).

(** The text the analysis reads: the user messages of the history, joined by
    spaces, when there is a history, else the transcript. *)
Definition textToAnalyze (transcript : option jsstring)
                         (conversationHistory : list Turn) : jsstring :=
  if (0 <? length conversationHistory)%nat
  then join (lit " ")
            (map (fun msg => join_text (message msg))
                 (filter is_user conversationHistory))
  else or_empty transcript.

(** [text.toLowerCase().split(/\s+/).filter(word => word.length > 0)] *)
Definition tokenize (text : jsstring) : list jsstring :=
  filter (fun word => (0 <? length word)%nat)
         (split_runs is_space (toLowerCase text)).

(** [analyzeSession(transcript, conversationHistory = [])] of [server.js]. *)
Definition analyzeSession (transcript : option jsstring)
                          (conversationHistory : list Turn)
  : completion MetricsRecord :=
  if falsy transcript && (length conversationHistory =? 0)%nat
  then Normal default_record
  else
    let textToAnalyze := textToAnalyze transcript conversationHistory in
    let words := tokenize textToAnalyze in
    let sentences :=
      filter trim_nonempty
             (split_runs (fun c => existsb (Ascii.eqb c) (lit ".!?")) textToAnalyze) in
    let userMessages := filter is_user conversationHistory in
    let fillerWordCount := len (filter is_filler words) in
    let confidenceScore := confidence_raw fillerWordCount (len words) in
    let averageSentenceLength :=
      if (0 <? length sentences)%nat
      then Js.div (inject_Z (len words)) (inject_Z (len sentences)) else 0 in
    let totalMessages := len conversationHistory in
    let estimatedTalkTime :=
      if (0 <? totalMessages)%Z
      then Math_round
             (Js.mul (Js.div (inject_Z (len userMessages)) (inject_Z totalMessages))
                     100)
      else 50%Z in
    let allUserText :=
      toLowerCase (join (lit " ")
                        (map (fun msg => join_text (message msg)) userMessages)) in
    let conceptsUsed :=
      filter (fun concept => includes allUserText (toLowerCase concept))
             googleAdsConcepts in
    dq <- filterM is_discovery_question userMessages ;;
    oh <- filterM (fun msg => lower_includes_any (message msg) objectionPhrases)
                  userMessages ;;
    bv <- filterM (fun msg => lower_includes_any (message msg) businessValueKeywords)
                  userMessages ;;
    let discoveryQuestions := len dq in
    let objectionHandling := len oh in
    let businessValueMentions := len bv in
    let discovery_score := discovery_score_of discoveryQuestions in
    let product_knowledge_score := product_knowledge_score_of (len conceptsUsed) in
    let objection_handling_score := objection_handling_score_of objectionHandling in
    let business_value_score := business_value_score_of businessValueMentions in
    let overall_effectiveness_score :=
      overall_effectiveness_score_of discovery_score product_knowledge_score
                                     objection_handling_score business_value_score in
    Normal
      {| talkTimeRatio := estimatedTalkTime;
         fillerWordCount := fillerWordCount;
         confidenceScore := Math_round confidenceScore;
         wordCount := len words;
         averageSentenceLength :=
           Js.div (inject_Z (Math_round (Js.mul averageSentenceLength 10))) 10;
         conversationLength := len conversationHistory;
         discovery_score := discovery_score;
         product_knowledge_score := product_knowledge_score;
         objection_handling_score := objection_handling_score;
         business_value_score := business_value_score;
         overall_effectiveness_score := overall_effectiveness_score;
         google_ads_concepts_used := Some conceptsUsed;
         discovery_questions_count := Some discoveryQuestions;
         objection_handling_count := Some objectionHandling;
         business_value_mentions := Some businessValueMentions |}.

(** ** The transcript-only [analyzeSession] of the older server files *)

Module TranscriptOnly.

Record BasicMetrics := mkBasic {
  talkTimeRatio : Z;
  fillerWordCount : Z;
  confidenceScore : Z;
  wordCount : Z;
  averageSentenceLength : Q
}.

(** [analyzeSession(transcript)]: no history parameter; [words] keeps the
    empty pieces of the split. *)
Definition analyzeSession (transcript : option jsstring) : BasicMetrics :=
  if falsy transcript
  then {| talkTimeRatio := 0; fillerWordCount := 0; confidenceScore := 50;
          wordCount := 0; averageSentenceLength := 0 |}
  else
    let transcript := or_empty transcript in
    let words := split_runs is_space (toLowerCase transcript) in
    let sentences :=
      filter trim_nonempty
             (split_runs (fun c => existsb (Ascii.eqb c) (lit ".!?")) transcript) in
    let fillerWordCount := len (filter is_filler words) in
    let fillerRatio := Js.div (inject_Z fillerWordCount) (inject_Z (len words)) in
    let confidenceScore := Qmax 20 (Qmin 100 (Js.sub 100 (Js.mul fillerRatio 200))) in
    let averageSentenceLength :=
      if (0 <? length sentences)%nat
      then Js.div (inject_Z (len words)) (inject_Z (len sentences)) else 0 in
    let estimatedTalkTime := Qmin 80 (Qmax 20 (Js.div (inject_Z (len words)) 10)) in
    {| talkTimeRatio := Math_round estimatedTalkTime;
       fillerWordCount := fillerWordCount;
       confidenceScore := Math_round confidenceScore;
       wordCount := len words;
       averageSentenceLength :=
         Js.div (inject_Z (Math_round (Js.mul averageSentenceLength 10))) 10 |}.

End TranscriptOnly.

(** ** [analyzeGoogleAdsPerformance] *)

Module GoogleAds.

Record Performance := mkPerformance {
  discovery_score : Z;
  product_knowledge_score : Z;
  objection_handling_score : Z;
  solution_fit_score : Z;
  clarity_confidence_score : Z;
  business_value_score : Z;
  overall_effectiveness_score : Z;
  google_ads_concepts_used : list jsstring;
  conversation_length : Z;
  user_message_count : Z
}.

Definition googleAdsConcepts : list jsstring :=
  map lit
    ["quality score"; "cpc"; "ctr"; "roas"; "performance max"; "smart campaigns";
     "search campaigns"; "display network"; "youtube ads"; "shopping campaigns";
     "keyword research"; "negative keywords"; "bidding strategy"; "ad extensions";
     "conversion tracking"; "remarketing"; "audience targeting";
     "budget optimization"]%string.

Definition discoveryKeywords : list jsstring :=
  map lit ["goal"; "currently"; "budget"; "target"; "competition"; "challenge";
           "measure"; "success"]%string.

Definition objectionPhrases : list jsstring :=
  map lit ["understand"; "let me explain"; "for example"; "actually"; "what i mean";
           "let me show you"]%string.

Definition businessValueKeywords : list jsstring :=
  map lit ["roi"; "return"; "revenue"; "growth"; "customers"; "sales"]%string.

(** [conceptsUsed.includes(x)] on an array of strings. *)
Definition array_includes (l : list jsstring) (x : jsstring) : bool :=
  existsb (fun y => if list_eq_dec ascii_dec y x then true else false) l.

(** [analyzeGoogleAdsPerformance(transcript, conversationHistory, scenario)];
    the function reads neither [transcript] nor [scenario]. *)
Definition analyzeGoogleAdsPerformance (conversationHistory : list Turn)
  : completion Performance :=
  let userMessages := filter is_user conversationHistory in
  let allUserText :=
    toLowerCase (join (lit " ")
                      (map (fun msg => join_text (message msg)) userMessages)) in
  let conceptsUsed :=
    filter (fun concept => includes allUserText (toLowerCase concept))
           googleAdsConcepts in
  dq <- filterM (fun msg => andM (call_includes (message msg) (lit "?"))
                                 (lower_includes_any (message msg) discoveryKeywords))
                userMessages ;;
  oh <- filterM (fun msg => lower_includes_any (message msg) objectionPhrases)
                userMessages ;;
  bv <- filterM (fun msg => lower_includes_any (message msg) businessValueKeywords)
                userMessages ;;
  let discoveryQuestions := len dq in
  let objectionHandling := len oh in
  let businessValueMentions := len bv in
  Normal
    {| discovery_score :=
         Z.min 5 (Z.max 1 (Math_ceil (Js.div (inject_Z discoveryQuestions) 2)));
       product_knowledge_score := Z.min 5 (Z.max 1 (len conceptsUsed));
       objection_handling_score := Z.min 5 (Z.max 1 objectionHandling);
       solution_fit_score :=
         Z.min 5 (Z.max 1 (if array_includes conceptsUsed (lit "performance max")
                              || array_includes conceptsUsed (lit "smart campaigns")
                           then 4 else 2));
       clarity_confidence_score :=
         Z.min 5 (Z.max 1 (Math_ceil (Js.div (inject_Z (len userMessages)) 3)));
       business_value_score := Z.min 5 (Z.max 1 businessValueMentions);
       overall_effectiveness_score :=
         Z.min 5 (Z.max 1 (Math_ceil
           (Js.div (inject_Z (discoveryQuestions + len conceptsUsed
                              + objectionHandling + businessValueMentions)) 4)));
       google_ads_concepts_used := conceptsUsed;
       conversation_length := len conversationHistory;
       user_message_count := len userMessages |}.

End GoogleAds.

(** ** Test data *)

Definition user (m : string) : Turn := mkTurn (JsString (lit "user")) (JsString (lit m)).
Definition ai (m : string) : Turn := mkTurn (JsString (lit "ai")) (JsString (lit m)).

(** [sample_history] is a two-turn conversation, [sample_record] the object
    [analyzeSession] returns for it. *)
Definition sample_history : list Turn :=
  [user "What is your current budget for this?"; ai "We have not set one."].

Definition sample_record : MetricsRecord :=
  Eval vm_compute in
    match analyzeSession None sample_history with
    | Normal r => r
    | Throw _ => default_record
    end.

Definition counterpart_only : list Turn := [ai "Why should I care?"; ai "Hello?"].

Definition plain_record : MetricsRecord :=
  Eval vm_compute in
    match analyzeSession (Some (lit "well hello there")) [] with
    | Normal r => r
    | Throw _ => default_record
    end.

Definition filler_record : MetricsRecord :=
  Eval vm_compute in
    match analyzeSession None [user "Um, hello there"] with
    | Normal r => r
    | Throw _ => default_record
    end.

Definition wh_questions : list Turn := [user "How?"; user "Why?"; user "When?"].



(** ** The statements of the specification, in its own words *)

Module Spec.

(** The discovery keywords the specification lists. *)
Definition discoveryKeywords : list jsstring :=
  map lit ["goal"; "currently"; "budget"; "target"; "competition"; "challenge";
           "measure"; "success"; "how"; "what"; "why"; "when"; "where"]%string.

(** A message contains a [?] and, whatever the case of its letters, one of
    the keywords. *)
Definition asks (keys : list jsstring) (m : jsstring) : bool :=
  includes m (lit "?") && existsb (fun k => includes (toLowerCase m) k) keys.

(** The number of trainee turns whose message is such a question. *)
Definition discovery_count (keys : list jsstring) (history : list Turn) : Z :=
  len (filter (fun msg => match message msg with
                          | JsString m => asks keys m
                          | _ => false
                          end)
              (filter is_user history)).

Definition clamp (lo hi x : Z) : Z := Z.max lo (Z.min hi x).

(** [clamp(round(100 - 200 * fillerWordCount / wordCount), 20, 100)], with
    ratio 0 when [wordCount = 0], in exact arithmetic. *)
Definition confidence (fillers words : Z) : Z :=
  let ratio :=
    if (words =? 0)%Z then 0 else inject_Z fillers / inject_Z words in
  clamp 20 100 (Math_round (100 - 200 * ratio)).

(** The same in doubles, the operations in the order of the formula:
    the product [200 * fillerWordCount], then the quotient, then the
    difference. *)
Definition confidence_double (fillers words : Z) : Z :=
  let scaled :=
    if (words =? 0)%Z then 0
    else Js.div (Js.mul 200 (inject_Z fillers)) (inject_Z words) in
  clamp 20 100 (Math_round (Js.sub 100 scaled)).

(** [fillerRatio = fillerWordCount / wordCount] (0 if [wordCount = 0]) and
    [clamp(round(100 - fillerRatio*200), 20, 100)] in doubles: the quotient
    is rounded before the multiplication. *)
Definition confidence_ratio_first (fillers words : Z) : Z :=
  let fillerRatio :=
    if (words =? 0)%Z then 0 else Js.div (inject_Z fillers) (inject_Z words) in
  clamp 20 100 (Math_round (Js.sub 100 (Js.mul fillerRatio 200))).





End Spec.

(** Every trainee turn carries a string message. *)
Definition is_string (v : JsValue) : bool :=
  match v with
  | JsString _ => true
  | _ => false
  end.

Definition well_formed (history : list Turn) : bool :=
  forallb (fun msg => is_string (message msg)) (filter is_user history).

(** A count-to-score map is saturating: non-decreasing, at most 5, and 1 at 0. *)
Definition saturating (f : Z -> Z) : Prop :=
  (forall n m, (n <= m)%Z -> (f n <= f m)%Z) /\
  (forall n, (f n <= 5)%Z) /\
  f 0%Z = 1%Z.

(** ** Definitions of the proofs *)

(** The properties of the object built on the non-default path. *)
Record analysed (t : option jsstring) (h : list Turn) (r : MetricsRecord) : Prop := {
  an_words : wordCount r = len (tokenize (textToAnalyze t h));
  an_fillers : fillerWordCount r = len (filter is_filler (tokenize (textToAnalyze t h)));
  an_confidence :
    confidenceScore r = Math_round (confidence_raw (fillerWordCount r) (wordCount r));
  an_talk :
    talkTimeRatio r =
    if (0 <? len h)%Z
    then Math_round (Js.mul (Js.div (inject_Z (len (filter is_user h)))
                                    (inject_Z (len h))) 100)
    else 50%Z;
  an_length : conversationLength r = len h;
  an_dq : discovery_questions_count r = Some (Spec.discovery_count discoveryKeywords h);
  an_discovery :
    discovery_score r = discovery_score_of (Spec.discovery_count discoveryKeywords h);
  an_product :
    exists cs, google_ads_concepts_used r = Some cs /\
               product_knowledge_score r = product_knowledge_score_of (len cs);
  an_objection :
    exists n, objection_handling_count r = Some n /\ (0 <= n)%Z /\
              objection_handling_score r = objection_handling_score_of n;
  an_business :
    exists n, business_value_mentions r = Some n /\ (0 <= n)%Z /\
              business_value_score r = business_value_score_of n;
  an_overall :
    overall_effectiveness_score r =
    overall_effectiveness_score_of (discovery_score r) (product_knowledge_score r)
                                   (objection_handling_score r) (business_value_score r)
}.

Definition is_bracket (c : ascii) : bool := Ascii.eqb c "[" || Ascii.eqb c "]".

(** No class of the expression accepts a square bracket. *)
Fixpoint safe (r : regex) : bool :=
  match r with
  | Eps | Bnd => true
  | Cls f | Star f => negb (f "["%char) && negb (f "]"%char)
  | Seq r1 r2 | Alt r1 r2 => safe r1 && safe r2
  end.

(** Every match of the expression takes at least one code unit. *)
Fixpoint consuming (r : regex) : bool :=
  match r with
  | Cls _ => true
  | Seq r1 r2 => consuming r1 || consuming r2
  | Alt r1 r2 => consuming r1 && consuming r2
  | _ => false
  end.

(** The expression begins, and ends, with [\b]. *)
Definition starts_bnd (r : regex) : bool :=
  match r with
  | Seq Bnd _ => true
  | _ => false
  end.

Fixpoint ends_bnd (r : regex) : bool :=
  match r with
  | Bnd => true
  | Seq _ r2 => ends_bnd r2
  | _ => false
  end.

(** The code unit before the position reached by reading [w]. *)
Definition after (w : jsstring) (p : option ascii) : option ascii :=
  fold_left (fun _ c => Some c) w p.

(** [sim ps s po o]: up to its first square bracket, the text [o] reads as
    [s] does, and a word boundary at the start of [o] is one of [s]. *)
Fixpoint sim (ps : option ascii) (s : jsstring) (po : option ascii) (o : jsstring)
  {struct o} : Prop :=
  (at_boundary po o = true -> at_boundary ps s = true) /\
  match o with
  | [] => True
  | c :: o' =>
      if is_bracket c then True
      else match s with
           | [] => False
           | c2 :: s' => c2 = c /\ sim (Some c) s' (Some c) o'
           end
  end.

(** The expression matches at no position of the text. *)
Fixpoint cleanb (r : regex) (p : option ascii) (s : jsstring) : bool :=
  match exec r (p, s) with None => true | Some _ => false end &&
  match s with
  | [] => true
  | c :: s' => cleanb r (Some c) s'
  end.

(** Every non-empty suffix of the text has a square bracket. *)
Fixpoint closedb (u : jsstring) : bool :=
  match u with
  | [] => true
  | _ :: u' => existsb is_bracket u && closedb u'
  end.

(** A replacement text opens with a square bracket, is closed, and the
    expression matches nowhere in it. *)
Definition placeholder_ok (r : regex) (rep : jsstring) : bool :=
  match rep with
  | [] => false
  | c :: u => Ascii.eqb c "[" && closedb u && cleanb r (Some c) u
  end.

Definition rule_ok (rules : list (regex * jsstring)) (rule : regex * jsstring) : bool :=
  safe (fst rule) && consuming (fst rule) && starts_bnd (fst rule) &&
  ends_bnd (fst rule) &&
  forallb (fun other => placeholder_ok (fst rule) (snd other)) rules.

Definition rules_ok (rules : list (regex * jsstring)) : bool :=
  forallb (rule_ok rules) rules.

(** ** More of JavaScript: values, numbers, arrays

    In the handlers below a number that may be NaN is an [option Q], [None]
    being NaN; the integers [parseInt] reads are doubles as every number
    is.  A digit string whose value is beyond the largest double reads as
    [Infinity] in JavaScript and is beyond the model. *)

From Stdlib Require DecimalString.
From Stdlib Require Import Permutation.

(** Truthiness of a value: the empty string, [null] and [undefined] are
    falsy. *)
Definition truthy (v : JsValue) : bool :=
  match v with
  | JsString (_ :: _) => true
  | _ => false
  end.

(** [a || b] *)
Definition or_else (a b : JsValue) : JsValue := if truthy a then a else b.

(** [a === b] *)
Definition strict_eq (a b : JsValue) : bool :=
  match a, b with
  | JsUndefined, JsUndefined => true
  | JsNull, JsNull => true
  | JsString x, JsString y => if list_eq_dec ascii_dec x y then true else false
  | _, _ => false
  end.

(** The string a template literal puts in for a value. *)
Definition to_string (v : JsValue) : jsstring :=
  match v with
  | JsUndefined => lit "undefined"
  | JsNull => lit "null"
  | JsString s => s
  end.

(** [s.split(sep)] for a separator of one code unit: the pieces between its
    occurrences, empty ones included.  [cur] is the piece being read. *)
Fixpoint split_on (sep : ascii) (cur : jsstring) (s : jsstring) : list jsstring :=
  match s with
  | [] => [cur]
  | c :: s' =>
      if Ascii.eqb c sep then cur :: split_on sep [] s'
      else split_on sep (cur ++ [c]) s'
  end.

Definition split (s : jsstring) (sep : ascii) : list jsstring := split_on sep [] s.

(** [arr[i]] *)
Definition at_index (arr : list jsstring) (i : nat) : JsValue :=
  match nth_error arr i with
  | Some s => JsString s
  | None => JsUndefined
  end.

(** [s.trim()], and the removal of leading white space. *)
Fixpoint trim_start (s : jsstring) : jsstring :=
  match s with
  | [] => []
  | c :: s' => if is_space c then trim_start s' else s
  end.

Definition trim (s : jsstring) : jsstring := rev (trim_start (rev (trim_start s))).

Module Num.

(** [x + y] on doubles. *)
Definition add (x y : Q) : Q := fl (x + y).

(** [n.toString()], [`${n}`] for an integer [n] (below [10^21], from where
    on JavaScript writes an exponent). *)
Definition toString (n : Z) : jsstring :=
  lit (DecimalString.NilZero.string_of_int (Z.to_int n)).

(** The value of a digit, of a letter as a digit. *)
Definition digit_of (c : ascii) : option Z :=
  if is_digit c then Some (Z.of_N (code c) - 48)%Z
  else if is_lower c then Some (Z.of_N (code c) - 87)%Z
  else if is_upper c then Some (Z.of_N (code c) - 55)%Z
  else None.

(** The value of the longest prefix of digits of the radix; [None] when the
    text starts with no digit. *)
Fixpoint digits (radix : Z) (acc : option Z) (s : jsstring) : option Z :=
  match s with
  | [] => acc
  | c :: s' =>
      match digit_of c with
      | Some d =>
          if (d <? radix)%Z
          then digits radix
                      (Some (match acc with
                             | Some a => a * radix + d
                             | None => d
                             end)%Z) s'
          else acc
      | None => acc
      end
  end.

(** The integer [parseInt(s)] reads, without a radix argument: leading white
    space, a sign, [0x] or [0X] for radix 16, digits; the rest is ignored. *)
Definition parse (s : jsstring) : option Z :=
  let s := trim_start s in
  let '(sign, s) :=
    match s with
    | c :: s' => if Ascii.eqb c "-" then ((-1)%Z, s')
                 else if Ascii.eqb c "+" then (1%Z, s')
                 else (1%Z, s)
    | [] => (1%Z, s)
    end in
  let '(radix, s) :=
    match s with
    | c :: x :: s' =>
        if Ascii.eqb c "0" && (Ascii.eqb x "x" || Ascii.eqb x "X")
        then (16%Z, s') else (10%Z, s)
    | _ => (10%Z, s)
    end in
  option_map (Z.mul sign) (digits radix None s).

(** [parseInt(v)]: the argument is made a string first. *)
Definition parseInt (v : JsValue) : option Q :=
  option_map (fun n => fl (inject_Z n)) (parse (to_string v)).

(** [x || d] for a number [x]: NaN and zero give [d]. *)
Definition or_else (x : option Q) (d : Q) : Q :=
  match x with
  | Some q => if Qeq_bool q 0 then d else q
  | None => d
  end.

(** [x + y] where either may be NaN. *)
Definition add_nan (x y : option Q) : option Q :=
  match x, y with
  | Some a, Some b => Some (add a b)
  | _, _ => None
  end.

(** [n > x] for an integer [n]; a comparison with NaN is false. *)
Definition gt (n : Z) (x : option Q) : bool :=
  match x with
  | Some q => negb (Qle_bool (inject_Z n) q)
  | None => false
  end.

(** ToIntegerOrInfinity: NaN gives 0, a fraction is cut off. *)
Definition to_integer (x : option Q) : Z :=
  match x with
  | None => 0%Z
  | Some q => if Qle_bool 0 q then Qfloor q else Qceiling q
  end.

End Num.

(** [arr.slice(start, end)]: a negative index counts from the end of the
    array, and both indices are brought into the array. *)
Definition relative_index (len i : Z) : Z :=
  if (i <? 0)%Z then Z.max (len + i) 0 else Z.min i len.

Definition slice {A} (arr : list A) (start end_ : option Q) : list A :=
  let k := relative_index (len arr) (Num.to_integer start) in
  let final := relative_index (len arr) (Num.to_integer end_) in
  firstn (Z.to_nat (final - k)) (skipn (Z.to_nat k) arr).

(** [arr.map(f)] where the callback may throw. *)
Fixpoint mapM {A B} (f : A -> completion B) (l : list A) : completion (list B) :=
  match l with
  | [] => Normal []
  | x :: l' =>
      y <- f x ;;
      r <- mapM f l' ;;
      Normal (y :: r)
  end.

(** [arr.forEach(f)] for a callback that may throw and that changes what
    [acc] stands for. *)
Fixpoint foldM {A B} (f : B -> A -> completion B) (l : list A) (acc : B)
  : completion B :=
  match l with
  | [] => Normal acc
  | x :: l' => acc' <- f acc x ;; foldM f l' acc'
  end.

(** ** The values of a request body

    What the handlers read from [req.body]: the values [express.json()]
    makes of a JSON text, and [undefined] for a property the body does not
    have.  An object is given by its own properties, each of them listed
    once; the properties of JSON being data, none of them is a function.
    The text of a number ([Number::toString]) is left open: the models
    below take it as [number_to_string], and what is proved of them holds
    for every such text. *)

Module Request.

Inductive JsNumber :=
| Finite (x : Q)              (* both zeros are [Finite 0] *)
| Infinity (negative : bool)
| NaN.

Inductive Value :=
| VUndefined
| VNull
| VBoolean (b : bool)
| VNumber (n : JsNumber)
| VString (s : jsstring)
| VArray (elements : list Value)
| VObject (properties : list (jsstring * Value)).

Class NumberToString := number_to_string : JsNumber -> jsstring.

(** Truthiness: [undefined], [null], [false], zero, NaN and the empty string
    are falsy. *)
Definition truthy (v : Value) : bool :=
  match v with
  | VUndefined | VNull => false
  | VBoolean b => b
  | VNumber (Finite x) => negb (Qeq_bool x 0)
  | VNumber (Infinity _) => true
  | VNumber NaN => false
  | VString s => (0 <? length s)%nat
  | VArray _ | VObject _ => true
  end.

(** [a || b] *)
Definition or_else (a b : Value) : Value := if truthy a then a else b.

(** [v === 0] *)
Definition is_zero (v : Value) : bool :=
  match v with
  | VNumber (Finite x) => Qeq_bool x 0
  | _ => false
  end.

(** [v === 'text'] *)
Definition is_text (v : Value) (text : jsstring) : bool :=
  match v with
  | VString s => if list_eq_dec ascii_dec s text then true else false
  | _ => false
  end.

(** [cell === v] for a cell of a sheet, which is a string or [undefined]:
    values of different types are not equal. *)
Definition strict_eq_cell (cell : JsValue) (v : Value) : bool :=
  match cell, v with
  | JsUndefined, VUndefined => true
  | JsNull, VNull => true
  | JsString x, VString y => if list_eq_dec ascii_dec x y then true else false
  | _, _ => false
  end.

(** The value of an own property, [undefined] where the object has none of
    that name. *)
Fixpoint lookup (name : jsstring) (properties : list (jsstring * Value)) : Value :=
  match properties with
  | [] => VUndefined
  | (k, v) :: properties' =>
      if list_eq_dec ascii_dec k name then v else lookup name properties'
  end.

Definition has_property (name : jsstring) (properties : list (jsstring * Value))
  : bool :=
  existsb (fun p => if list_eq_dec ascii_dec (fst p) name then true else false)
          properties.

(** [v.name] for a name that the prototypes of strings, arrays and objects
    do not define, as [speaker] and [message]: reading a property of
    [undefined] or [null] throws, a primitive value and an array have no
    such property. *)
Definition property (v : Value) (name : string) : completion Value :=
  match v with
  | VUndefined | VNull => Throw TypeError
  | VObject properties => Normal (lookup (lit name) properties)
  | _ => Normal VUndefined
  end.

(** [v.length] *)
Definition length_of (v : Value) : completion Value :=
  match v with
  | VUndefined | VNull => Throw TypeError
  | VString s => Normal (VNumber (Finite (inject_Z (len s))))
  | VArray elements => Normal (VNumber (Finite (inject_Z (len elements))))
  | VObject properties => Normal (lookup (lit "length") properties)
  | _ => Normal VUndefined
  end.

(** The string a template literal puts in for a value ([ToString]).  An
    array is the join of its elements by commas.  An object without a
    property [toString] of its own is written by [Object.prototype.toString];
    with one, which is no function, neither it nor [valueOf] gives a
    primitive value, and the conversion throws. *)
Fixpoint to_string {N : NumberToString} (v : Value) : completion jsstring :=
  match v with
  | VUndefined => Normal (lit "undefined")
  | VNull => Normal (lit "null")
  | VBoolean b => Normal (if b then lit "true" else lit "false")
  | VNumber n => Normal (number_to_string n)
  | VString s => Normal s
  | VArray elements =>
      (fix join_elements (l : list Value) : completion jsstring :=
         match l with
         | [] => Normal []
         | x :: l' =>
             a <- match x with
                  | VUndefined | VNull => Normal []
                  | _ => to_string x
                  end ;;
             match l' with
             | [] => Normal a
             | _ :: _ => b <- join_elements l' ;; Normal (a ++ lit "," ++ b)
             end
         end) elements
  | VObject properties =>
      if has_property (lit "toString") properties then Throw TypeError
      else Normal (lit "[object Object]")
  end.

(** The string [Array.prototype.join] uses for an element: the empty string
    for [undefined] and [null]. *)
Definition element_text {N : NumberToString} (v : Value) : completion jsstring :=
  match v with
  | VUndefined | VNull => Normal []
  | _ => to_string v
  end.

(** [arr.join(sep)] *)
Fixpoint join {N : NumberToString} (sep : jsstring) (l : list Value)
  : completion jsstring :=
  match l with
  | [] => Normal []
  | x :: l' =>
      a <- element_text x ;;
      match l' with
      | [] => Normal a
      | _ :: _ => b <- join sep l' ;; Normal (a ++ sep ++ b)
      end
  end.

(** [v.toLowerCase()]: a method of strings only. *)
Definition call_toLowerCase (v : Value) : completion jsstring :=
  match v with
  | VString s => Normal (toLowerCase s)
  | _ => Throw TypeError
  end.

(** [v.includes(sub)] for a string [sub]: a method of strings, and of
    arrays, where it looks for an element that is [sub]. *)
Definition call_includes (v : Value) (sub : jsstring) : completion bool :=
  match v with
  | VString s => Normal (includes s sub)
  | VArray elements => Normal (existsb (fun x => is_text x sub) elements)
  | _ => Throw TypeError
  end.

(** [v.toLowerCase().includes(sub)] *)
Definition call_lower_includes (v : Value) (sub : jsstring) : completion bool :=
  s <- call_toLowerCase v ;; Normal (includes s sub).

(** The chain [m.toLowerCase().includes(k1) || m.toLowerCase().includes(k2) || ...]. *)
Fixpoint lower_includes_any (m : Value) (keys : list jsstring) : completion bool :=
  match keys with
  | [] => Normal false
  | [k] => call_lower_includes m k
  | k :: keys' => orM (call_lower_includes m k) (lower_includes_any m keys')
  end.

(** [msg.speaker === 'user'] *)
Definition is_user (msg : Value) : completion bool :=
  speaker <- property msg "speaker" ;; Normal (is_text speaker (lit "user")).

(** [msg.message.includes('?') && (msg.message.toLowerCase().includes(k1) || ...)] *)
Definition is_discovery_question (keys : list jsstring) (msg : Value)
  : completion bool :=
  message <- property msg "message" ;;
  andM (call_includes message (lit "?")) (lower_includes_any message keys).

(** [msg.message.toLowerCase().includes(k1) || ...] *)
Definition mentions (keys : list jsstring) (msg : Value) : completion bool :=
  message <- property msg "message" ;; lower_includes_any message keys.

(** [userMessages.map(msg => msg.message).join(' ')] *)
Definition joined_messages {N : NumberToString} (userMessages : list Value)
  : completion jsstring :=
  messages <- mapM (fun msg => property msg "message") userMessages ;;
  join (lit " ") messages.

(** [redactPII(text)] for any argument: what is no string is returned as it
    is. *)
Definition redactPII (text : Value) : Value :=
  match text with
  | VString s => VString (redactPII s)
  | _ => text
  end.

(** [analyzeSession(transcript, conversationHistory = [])] of [server.js]
    for any two arguments.  The first [console.log] reads the length of the
    history, which throws for [null].  An array is the only value with the
    method [filter]: for any other history that is past the guard, the call
    of [filter] for the text throws, or else the one for [userMessages],
    the steps between the two being free of effects. *)
Definition analyzeSession {N : NumberToString} (transcript conversationHistory : Value)
  : completion MetricsRecord :=
  let conversationHistory :=
    match conversationHistory with
    | VUndefined => VArray []
    | _ => conversationHistory
    end in
  historyLength <- length_of conversationHistory ;;
  if negb (truthy transcript) && is_zero historyLength
  then Normal default_record
  else
    match conversationHistory with
    | VArray elements =>
        textToAnalyze <-
          (if (0 <? length elements)%nat
           then userMessages <- filterM is_user elements ;;
                text <- joined_messages userMessages ;;
                Normal (VString text)
           else Normal (or_else transcript (VString []))) ;;
        match textToAnalyze with
        | VString textToAnalyze =>
            let words := tokenize textToAnalyze in
            let sentences :=
              filter trim_nonempty
                     (split_runs (fun c => existsb (Ascii.eqb c) (lit ".!?"))
                                 textToAnalyze) in
            userMessages <- filterM is_user elements ;;
            let fillerWordCount := len (filter is_filler words) in
            let confidenceScore := confidence_raw fillerWordCount (len words) in
            let averageSentenceLength :=
              if (0 <? length sentences)%nat
              then Js.div (inject_Z (len words)) (inject_Z (len sentences)) else 0 in
            let totalMessages := len elements in
            let estimatedTalkTime :=
              if (0 <? totalMessages)%Z
              then Math_round
                     (Js.mul (Js.div (inject_Z (len userMessages))
                                     (inject_Z totalMessages))
                             100)
              else 50%Z in
            joined <- joined_messages userMessages ;;
            let allUserText := toLowerCase joined in
            let conceptsUsed :=
              filter (fun concept => includes allUserText (toLowerCase concept))
                     googleAdsConcepts in
            dq <- filterM (is_discovery_question discoveryKeywords) userMessages ;;
            oh <- filterM (mentions objectionPhrases) userMessages ;;
            bv <- filterM (mentions businessValueKeywords) userMessages ;;
            let discoveryQuestions := len dq in
            let objectionHandling := len oh in
            let businessValueMentions := len bv in
            let discovery_score := discovery_score_of discoveryQuestions in
            let product_knowledge_score :=
              product_knowledge_score_of (len conceptsUsed) in
            let objection_handling_score :=
              objection_handling_score_of objectionHandling in
            let business_value_score :=
              business_value_score_of businessValueMentions in
            let overall_effectiveness_score :=
              overall_effectiveness_score_of discovery_score product_knowledge_score
                                             objection_handling_score
                                             business_value_score in
            Normal
              {| talkTimeRatio := estimatedTalkTime;
                 fillerWordCount := fillerWordCount;
                 confidenceScore := Math_round confidenceScore;
                 wordCount := len words;
                 averageSentenceLength :=
                   Js.div (inject_Z (Math_round (Js.mul averageSentenceLength 10))) 10;
                 conversationLength := len elements;
                 discovery_score := discovery_score;
                 product_knowledge_score := product_knowledge_score;
                 objection_handling_score := objection_handling_score;
                 business_value_score := business_value_score;
                 overall_effectiveness_score := overall_effectiveness_score;
                 google_ads_concepts_used := Some conceptsUsed;
                 discovery_questions_count := Some discoveryQuestions;
                 objection_handling_count := Some objectionHandling;
                 business_value_mentions := Some businessValueMentions |}
        | _ => Throw TypeError      (* [textToAnalyze.toLowerCase()] *)
        end
    | _ => Throw TypeError
    end.

(** [analyzeGoogleAdsPerformance(transcript, conversationHistory, scenario)]
    for any history; the function reads neither [transcript] nor
    [scenario]. *)
Definition analyzeGoogleAdsPerformance {N : NumberToString} (conversationHistory : Value)
  : completion GoogleAds.Performance :=
  match conversationHistory with
  | VArray elements =>
      userMessages <- filterM is_user elements ;;
      joined <- joined_messages userMessages ;;
      let allUserText := toLowerCase joined in
      let conceptsUsed :=
        filter (fun concept => includes allUserText (toLowerCase concept))
               GoogleAds.googleAdsConcepts in
      dq <- filterM (is_discovery_question GoogleAds.discoveryKeywords) userMessages ;;
      oh <- filterM (mentions GoogleAds.objectionPhrases) userMessages ;;
      bv <- filterM (mentions GoogleAds.businessValueKeywords) userMessages ;;
      let discoveryQuestions := len dq in
      let objectionHandling := len oh in
      let businessValueMentions := len bv in
      Normal
        {| GoogleAds.discovery_score :=
             Z.min 5 (Z.max 1 (Math_ceil (Js.div (inject_Z discoveryQuestions) 2)));
           GoogleAds.product_knowledge_score := Z.min 5 (Z.max 1 (len conceptsUsed));
           GoogleAds.objection_handling_score := Z.min 5 (Z.max 1 objectionHandling);
           GoogleAds.solution_fit_score :=
             Z.min 5 (Z.max 1 (if GoogleAds.array_includes conceptsUsed
                                                           (lit "performance max")
                                  || GoogleAds.array_includes conceptsUsed
                                                              (lit "smart campaigns")
                               then 4 else 2));
           GoogleAds.clarity_confidence_score :=
             Z.min 5 (Z.max 1 (Math_ceil (Js.div (inject_Z (len userMessages)) 3)));
           GoogleAds.business_value_score := Z.min 5 (Z.max 1 businessValueMentions);
           GoogleAds.overall_effectiveness_score :=
             Z.min 5 (Z.max 1 (Math_ceil
               (Js.div (inject_Z (discoveryQuestions + len conceptsUsed
                                  + objectionHandling + businessValueMentions)) 4)));
           GoogleAds.google_ads_concepts_used := conceptsUsed;
           GoogleAds.conversation_length := len elements;
           GoogleAds.user_message_count := len userMessages |}
  | _ => Throw TypeError      (* [conversationHistory.filter] *)
  end.

(** [`${msg.speaker === 'user' ? a : b}: ${msg.message}`] *)
Definition labelled {N : NumberToString} (a b : jsstring) (msg : Value)
  : completion jsstring :=
  speaker <- property msg "speaker" ;;
  message <- property msg "message" ;;
  text <- to_string message ;;
  Normal ((if is_text speaker (lit "user") then a else b) ++ lit ": " ++ text).

End Request.

(** ** [generateCoachingRecommendations] *)

(** [arr.push(x)] *)
Definition push {A} (arr : list A) (x : A) : list A := arr ++ [x].

Definition generateCoachingRecommendations (analysis : GoogleAds.Performance)
  : list jsstring :=
  let recommendations := [] in
  let recommendations :=
    if (GoogleAds.discovery_score analysis <? 3)%Z
    then push recommendations
              (lit "Practice asking more discovery questions about client goals and current marketing")
    else recommendations in
  let recommendations :=
    if (GoogleAds.product_knowledge_score analysis <? 3)%Z
    then push recommendations
              (lit "Study Google Ads products: Performance Max, Smart Campaigns, and Search Campaigns")
    else recommendations in
  let recommendations :=
    if (GoogleAds.objection_handling_score analysis <? 3)%Z
    then push recommendations
              (lit "Work on addressing budget and ROI concerns with examples and case studies")
    else recommendations in
  let recommendations :=
    if (GoogleAds.business_value_score analysis <? 3)%Z
    then push recommendations
              (lit "Focus more on business outcomes and ROI rather than just features")
    else recommendations in
  recommendations.

(** ** Spreadsheet rows

    A row of a sheet: its number in the sheet and its cells by the header of
    their column.  [row.get(header)] is the cell under the first column of
    that header, [undefined] where the row has no such cell. *)

Record Row := mkRow { rowNumber : Z; cells : list (jsstring * jsstring) }.

Fixpoint cell (header : jsstring) (cells : list (jsstring * jsstring)) : JsValue :=
  match cells with
  | [] => JsUndefined
  | (h, v) :: cells' =>
      if list_eq_dec ascii_dec h header then JsString v else cell header cells'
  end.

Definition get (row : Row) (header : string) : JsValue := cell (lit header) (cells row).

(** ** [authenticateToken]

    [verifyIdToken] stands for [admin.auth().verifyIdToken]: the decoded
    token, or [None] where the call rejects. *)

Inductive AuthOutcome (U : Type) :=
| Next (user : U)        (* [req.user = decodedToken; next()] *)
| Status401              (* [{ error: 'Access token required' }] *)
| Status403.             (* [{ error: 'Invalid token' }] *)

Arguments Next {U} user.
Arguments Status401 {U}.
Arguments Status403 {U}.

(** [authHeader && authHeader.split(' ')[1]] for a header that is a string
    or [undefined]. *)
Definition bearer_token (authHeader : option jsstring) : JsValue :=
  match authHeader with
  | None => JsUndefined
  | Some [] => JsString []
  | Some h => at_index (split h " ") 1
  end.

Definition authenticateToken {U} (verifyIdToken : jsstring -> option U)
                             (authHeader : option jsstring) : AuthOutcome U :=
  match bearer_token authHeader with
  | JsString (c :: token) =>
      match verifyIdToken (c :: token) with
      | Some decodedToken => Next decodedToken
      | None => Status403
      end
  | _ => Status401
  end.

(** ** [POST /api/sessions/start]: the identifier of a new session *)

(** [`session_${Date.now()}_${req.user.uid}`], [now] being [Date.now()]. *)
Definition new_session_id (now : Z) (uid : jsstring) : jsstring :=
  lit "session_" ++ Num.toString now ++ lit "_" ++ uid.

(** ** [GET /api/sessions/history] *)

Module History.

Record Feedback := mkFeedback {
  talkTimeRatio : Q;
  fillerWordCount : Q;
  confidenceScore : Q;
  conversationLength : Q;
  aiFeedback : JsValue
}.

Record Session := mkSession {
  id : JsValue;
  scenarioId : JsValue;
  scenarioTitle : jsstring;
  scenarioCategory : jsstring;
  scenarioDifficulty : jsstring;
  startTime : JsValue;
  endTime : JsValue;
  duration : Q;
  status : JsValue;
  feedback : option Feedback
}.

Record Pagination := mkPagination {
  total : Z;
  offset : option Q;
  limit : option Q;
  hasMore : bool
}.

Record Summary := mkSummary {
  totalSessions : Z;
  completedSessions : Z;
  avgConfidenceScore : Z;
  avgDurationMinutes : Z
}.

Record Result := mkResult {
  sessions : list Session;
  pagination : Pagination;
  summary : Summary
}.

Inductive Response :=
| Json200 (result : Result)
| Error500 (error : jsstring).

(** [parseInt(v)] of a query parameter that defaults to the number [d]. *)
Definition query_int (v : option jsstring) (d : Z) : option Q :=
  match v with
  | Some s => Num.parseInt (JsString s)
  | None => Num.parseInt (JsString (Num.toString d))
  end.

(** The callback of [userSessions.map]: the session of a row, with the first
    feedback row of its identifier.  [sessionId.split] throws where the row
    has no [id] cell. *)
Definition session_of (feedbackRows : list Row) (session : Row) : completion Session :=
  let sessionId := get session "id" in
  let feedback :=
    find (fun f => strict_eq (get f "sessionId") sessionId) feedbackRows in
  pieces <- match sessionId with
            | JsString s => Normal (split s "_")
            | _ => Throw TypeError
            end ;;
  Normal
    {| id := sessionId;
       scenarioId := or_else (get session "scenarioId") (JsString (lit "unknown"));
       scenarioTitle :=
         lit "Practice Session "
         ++ to_string (or_else (at_index pieces 1) (JsString (lit "Unknown")));
       scenarioCategory := lit "General";
       scenarioDifficulty := lit "Medium";
       startTime := get session "startTime";
       endTime := get session "endTime";
       duration := Num.or_else (Num.parseInt (get session "duration")) 0;
       status := or_else (get session "status") (JsString (lit "completed"));
       feedback :=
         match feedback with
         | Some feedback =>
             Some {| talkTimeRatio :=
                       Num.or_else (Num.parseInt (get feedback "talkTimeRatio")) 50;
                     fillerWordCount :=
                       Num.or_else (Num.parseInt (get feedback "fillerWordCount")) 0;
                     confidenceScore :=
                       Num.or_else (Num.parseInt (get feedback "confidenceScore")) 50;
                     conversationLength :=
                       Num.or_else (Num.parseInt (get feedback "conversationLength")) 0;
                     aiFeedback := get feedback "aiFeedback" |}
         | None => None
         end |}.

(** [s.feedback?.confidenceScore] as a condition. *)
Definition has_confidence (s : Session) : bool :=
  match feedback s with
  | Some f => negb (Qeq_bool (confidenceScore f) 0)
  | None => false
  end.

(** [s.feedback.confidenceScore] of a session that has feedback. *)
Definition confidence_of (s : Session) : Q :=
  match feedback s with
  | Some f => confidenceScore f
  | None => 0
  end.

(** The handler.  [sort] is the call of [Array.prototype.sort] that orders
    the sessions by the dates their start times parse to, latest first;
    [sessionsSheet] and [feedbackSheet] are the rows of the two sheets,
    [None] for a sheet the document does not have. *)
Definition sessions_history (sort : list Session -> list Session) (uid : jsstring)
                            (limit offset : option jsstring)
                            (sessionsSheet feedbackSheet : option (list Row))
  : Response :=
  let limit := query_int limit 10 in
  let offset := query_int offset 0 in
  match sessionsSheet, feedbackSheet with
  | None, _ => Error500 (lit "Sessions sheet not found")
  | Some _, None => Error500 (lit "Feedback sheet not found")
  | Some sessionRows, Some feedbackRows =>
      let userSessions :=
        filter (fun row => strict_eq (get row "userId") (JsString uid)) sessionRows in
      match mapM (session_of feedbackRows) userSessions with
      | Throw _ => Error500 (lit "Failed to fetch session history")
      | Normal sessionsWithFeedback =>
          let sessionsWithFeedback := sort sessionsWithFeedback in
          let completedSessions :=
            filter (fun s => strict_eq (status s) (JsString (lit "completed")))
                   sessionsWithFeedback in
          let avgConfidence :=
            if (0 <? length completedSessions)%nat
               && existsb has_confidence completedSessions
            then Math_round
                   (Js.div (fold_left (fun sum s => Num.add sum (confidence_of s))
                                      (filter has_confidence completedSessions) 0)
                           (inject_Z (len (filter has_confidence completedSessions))))
            else 0%Z in
          let avgDuration :=
            if (0 <? length completedSessions)%nat
            then Math_round
                   (Js.div (Js.div (fold_left (fun sum s => Num.add sum (duration s))
                                              completedSessions 0)
                                   (inject_Z (len completedSessions)))
                           60000)
            else 0%Z in
          let paginatedSessions :=
            slice sessionsWithFeedback offset (Num.add_nan offset limit) in
          Json200
            {| sessions := paginatedSessions;
               pagination :=
                 {| total := len sessionsWithFeedback;
                    offset := offset;
                    limit := limit;
                    hasMore := Num.gt (len sessionsWithFeedback)
                                      (Num.add_nan offset limit) |};
               summary :=
                 {| totalSessions := len sessionsWithFeedback;
                    completedSessions := len completedSessions;
                    avgConfidenceScore := avgConfidence;
                    avgDurationMinutes := avgDuration |} |}
      end
  end.

End History.

(** ** [GET /api/sessions/:sessionId/details] *)

Module Details.

Record SessionInfo := mkSessionInfo {
  id : JsValue;
  startTime : JsValue;
  endTime : JsValue;
  duration : Q;
  transcript : JsValue;
  status : JsValue
}.

Record ScenarioInfo := mkScenarioInfo {
  title : JsValue;
  description : JsValue;
  category : JsValue;
  difficulty : JsValue;
  objectives : JsValue
}.

Record FeedbackInfo := mkFeedbackInfo {
  talkTimeRatio : Q;
  confidenceScore : Q;
  fillerWordCount : Q;
  conversationLength : Q;
  aiFeedback : JsValue
}.

Record Exchange := mkExchange {
  userMessage : JsValue;
  aiResponse : JsValue;
  timestamp : JsValue
}.

Record Result := mkResult {
  session : SessionInfo;
  scenario : option ScenarioInfo;
  feedback : option FeedbackInfo;
  conversationHistory : list Exchange
}.

Inductive Response :=
| Json200 (result : Result)
| Error404          (* [{ error: 'Session not found' }] *)
| Error500.         (* [{ error: 'Failed to fetch session details' }] *)

(** The handler.  [sort] is the call of [Array.prototype.sort] that orders
    the exchanges by the dates their timestamps parse to; a sheet the
    document does not have is [None], and reading its rows throws. *)
Definition session_details (sort : list Exchange -> list Exchange)
                           (uid sessionId : jsstring)
                           (sessionsSheet feedbackSheet scenariosSheet : option (list Row))
  : Response :=
  match sessionsSheet, feedbackSheet, scenariosSheet with
  | Some sessionRows, Some feedbackRows, Some scenarioRows =>
      match find (fun row => strict_eq (get row "id") (JsString sessionId)
                             && strict_eq (get row "userId") (JsString uid))
                 sessionRows with
      | None => Error404
      | Some session =>
          let feedback :=
            filter (fun f => strict_eq (get f "sessionId") (JsString sessionId))
                   feedbackRows in
          let scenarioData :=
            find (fun s => strict_eq (get s "id") (get session "scenarioId")
                           || strict_eq (JsString (Num.toString (rowNumber s)))
                                        (get session "scenarioId"))
                 scenarioRows in
          let conversationHistory :=
            sort (map (fun f => {| userMessage := get f "userMessage";
                                   aiResponse := get f "aiResponse";
                                   timestamp := get f "timestamp" |})
                      (filter (fun f => truthy (get f "userMessage")
                                        && truthy (get f "aiResponse"))
                              feedback)) in
          Json200
            {| session :=
                 {| id := get session "id";
                    startTime := get session "startTime";
                    endTime := get session "endTime";
                    duration := Num.or_else (Num.parseInt (get session "duration")) 0;
                    transcript := get session "transcript";
                    status := get session "status" |};
               scenario :=
                 match scenarioData with
                 | Some scenarioData =>
                     Some {| title := get scenarioData "title";
                             description := get scenarioData "description";
                             category := get scenarioData "category";
                             difficulty := get scenarioData "difficulty";
                             objectives := get scenarioData "scenario_objectives" |}
                 | None => None
                 end;
               feedback :=
                 match feedback with
                 | first :: _ =>
                     Some {| talkTimeRatio :=
                               Num.or_else (Num.parseInt (get first "talkTimeRatio")) 0;
                             confidenceScore :=
                               Num.or_else (Num.parseInt (get first "confidenceScore")) 0;
                             fillerWordCount :=
                               Num.or_else (Num.parseInt (get first "fillerWordCount")) 0;
                             conversationLength :=
                               Num.or_else (Num.parseInt (get first "conversationLength")) 0;
                             aiFeedback := get first "aiFeedback" |}
                 | [] => None
                 end;
               conversationHistory := conversationHistory |}
      end
  | _, _, _ => Error500
  end.

End Details.

(** ** [GET /api/scenarios]

    [JSON.parse] is a parameter of the model: [JSON_parse] gives what it
    returns, or the exception it throws, and [empty_array] is the array
    without elements. *)

(** The double quote and the line feed. *)
Definition double_quote : ascii := ascii_of_nat 34.
Definition line_feed : ascii := ascii_of_nat 10.

(** [s.replace(/^\[|\]$/g, '')]: an opening bracket at the start of the text
    and a closing bracket at its end are taken out. *)
Definition strip_outer_brackets (s : jsstring) : jsstring :=
  let s := match s with
           | c :: s' => if Ascii.eqb c "[" then s' else s
           | [] => []
           end in
  match rev s with
  | c :: r => if Ascii.eqb c "]" then rev r else s
  | [] => s
  end.

(** The text of a [key_objections] cell as it is handed to [JSON.parse]. *)
Definition clean_objections (objectionsValue : jsstring) : jsstring :=
  let cleanValue := objectionsValue in
  let cleanValue :=
    map (fun c => if Ascii.eqb c "'" then double_quote else c) cleanValue in
  let cleanValue := strip_outer_brackets cleanValue in
  if negb (startsWith cleanValue (lit "["))
  then lit "[" ++ cleanValue ++ lit "]"
  else cleanValue.

Module Scenarios.

Section Parse.

Variable J : Type.
Variable JSON_parse : jsstring -> completion J.
Variable empty_array : J.

Record Scenario := mkScenario {
  scenario_id : JsValue;
  id : JsValue;
  title : JsValue;
  description : JsValue;
  difficulty : JsValue;
  category : JsValue;
  ai_character_name : JsValue;
  ai_character_role : JsValue;
  ai_character_personality : JsValue;
  ai_character_background : JsValue;
  sales_skill_area : JsValue;
  buyer_persona : JsValue;
  google_ads_focus : JsValue;
  business_vertical : JsValue;
  campaign_complexity : JsValue;
  key_objections : J;
  success_metrics : JsValue;
  coaching_focus : JsValue;
  scenario_objectives : JsValue;
  estimated_duration : Q;
  ai_prompts : JsValue;
  usage_count : Q;
  is_active : bool
}.

(** The inner [try]: a cell that is empty gives no objections, and so does a
    text [JSON.parse] throws at. *)
Definition parse_objections (row : Row) : J :=
  let objectionsValue := get row "key_objections" in
  match objectionsValue with
  | JsString (c :: s) =>
      match JSON_parse (clean_objections (c :: s)) with
      | Normal keyObjections => keyObjections
      | Throw _ => empty_array
      end
  | _ => empty_array
  end.

(** The body of the loop: a row without a title is skipped. *)
Definition scenario_of (row : Row) : option Scenario :=
  let title := get row "title" in
  if negb (truthy title) then None
  else
    let keyObjections := parse_objections row in
    Some
      {| scenario_id :=
           or_else (or_else (get row "scenario_id") (get row "id"))
                   (JsString (lit "scenario_" ++ Num.toString (rowNumber row)));
         id :=
           or_else (or_else (get row "id") (get row "scenario_id"))
                   (JsString (Num.toString (rowNumber row)));
         title := title;
         description :=
           or_else (get row "description") (JsString (lit "No description provided"));
         difficulty := or_else (get row "difficulty") (JsString (lit "Medium"));
         category := or_else (get row "category") (JsString (lit "General"));
         ai_character_name :=
           or_else (get row "ai_character_name") (JsString (lit "Sarah Mitchell"));
         ai_character_role :=
           or_else (get row "ai_character_role") (JsString (lit "Business Professional"));
         ai_character_personality :=
           or_else (get row "ai_character_personality")
                   (JsString (lit "Professional, helpful"));
         ai_character_background :=
           or_else (get row "ai_character_background")
                   (JsString (lit "Works in business"));
         sales_skill_area :=
           or_else (get row "sales_skill_area") (JsString (lit "General Sales"));
         buyer_persona :=
           or_else (get row "buyer_persona") (JsString (lit "Business Professional"));
         google_ads_focus :=
           or_else (get row "google_ads_focus") (JsString (lit "General Marketing"));
         business_vertical :=
           or_else (get row "business_vertical") (JsString (lit "General Business"));
         campaign_complexity :=
           or_else (get row "campaign_complexity") (JsString (lit "Beginner"));
         key_objections := keyObjections;
         success_metrics :=
           or_else (get row "success_metrics")
                   (JsString (lit "Complete the conversation successfully"));
         coaching_focus :=
           or_else (get row "coaching_focus")
                   (JsString (lit "General communication skills"));
         scenario_objectives :=
           or_else (get row "scenario_objectives")
                   (JsString (lit "Practice sales conversation"));
         estimated_duration :=
           Num.or_else (Num.parseInt (get row "estimated_duration")) 10;
         ai_prompts :=
           or_else (get row "ai_prompts")
                   (JsString (lit "You are a professional business person having a conversation."));
         usage_count := Num.or_else (Num.parseInt (get row "usage_count")) 0;
         is_active := negb (strict_eq (get row "is_active") (JsString (lit "FALSE"))) |}.

Inductive Response :=
| Json200 (scenarios : list Scenario)
| Error500.         (* [{ error: 'Scenarios sheet not found' }] *)

(** The handler; [scenariosSheet] is [None] for a document without the
    sheet. *)
Definition list_scenarios (scenariosSheet : option (list Row)) : Response :=
  match scenariosSheet with
  | None => Error500
  | Some rows =>
      Json200 (flat_map (fun row => match scenario_of row with
                                    | Some scenario => [scenario]
                                    | None => []
                                    end) rows)
  end.

End Parse.

Arguments scenario_id {J} _.
Arguments id {J} _.
Arguments title {J} _.
Arguments description {J} _.
Arguments difficulty {J} _.
Arguments category {J} _.
Arguments ai_character_name {J} _.
Arguments ai_character_role {J} _.
Arguments ai_character_personality {J} _.
Arguments ai_character_background {J} _.
Arguments sales_skill_area {J} _.
Arguments buyer_persona {J} _.
Arguments google_ads_focus {J} _.
Arguments business_vertical {J} _.
Arguments campaign_complexity {J} _.
Arguments key_objections {J} _.
Arguments success_metrics {J} _.
Arguments coaching_focus {J} _.
Arguments scenario_objectives {J} _.
Arguments estimated_duration {J} _.
Arguments ai_prompts {J} _.
Arguments usage_count {J} _.
Arguments is_active {J} _.
Arguments Json200 {J} scenarios.
Arguments Error500 {J}.
Arguments parse_objections {J} JSON_parse empty_array row.
Arguments scenario_of {J} JSON_parse empty_array row.
Arguments list_scenarios {J} JSON_parse empty_array scenariosSheet.

End Scenarios.

(** ** [POST /api/ai/chat] *)

Module Chat.

Inductive Role := system | user | assistant.

Record Message := mkMessage { role : Role; content : JsValue }.

Inductive Response :=
| Json200 (response : jsstring) (character characterRole : JsValue)
| Fallback    (* status 200, [{ response: "Yes, I'm here. What did you want to
                 discuss?", character: "Customer" }] *)
| Error400    (* [{ error: 'Missing userMessage or scenarioId' }] *)
| Error404.   (* [{ error: 'Scenario not found' }] *)

(** [msg.speaker === 'ai'] *)
Definition is_ai (msg : Turn) : bool := strict_eq (speaker msg) (JsString (lit "ai")).

(** [arr.slice(start)] *)
Definition slice_from {A} (arr : list A) (start : Z) : list A :=
  skipn (Z.to_nat (relative_index (len arr) start)) arr.

(** The lines of a template literal that spans lines. *)
Definition lines (l : list jsstring) : jsstring := join [line_feed] l.

(** A message of a request to the language model whose content is any
    value of the request body. *)
Record Outgoing := mkOutgoing { to_role : Role; to_content : Request.Value }.

(** [conversationContext] for a history that is an array. *)
Definition conversationContext {N : Request.NumberToString} (characterName : JsValue)
                               (elements : list Request.Value)
  : completion jsstring :=
  if (0 <? length elements)%nat
  then parts <- mapM (Request.labelled (lit "Salesperson") (to_string characterName))
                     (slice_from elements (-2)) ;;
       Normal (lit "Previous conversation context: " ++ join (lit ". ") parts)
  else Normal (lit "This is the beginning of the conversation.").

Definition systemPrompt (characterName characterRole characterPersonality
                         businessVertical : JsValue)
                        (conversationContext userMessage : jsstring) : jsstring :=
  lines
    [lit "You are " ++ to_string characterName ++ lit ", a " ++ to_string characterRole
     ++ lit " at a " ++ to_string businessVertical ++ lit " company.";
     [];
     lit "Character Profile:";
     lit "- Name: " ++ to_string characterName;
     lit "- Role: " ++ to_string characterRole;
     lit "- Personality: " ++ to_string characterPersonality;
     lit "- Business: " ++ to_string businessVertical;
     [];
     conversationContext;
     [];
     lit "The person you're talking to just said: "
     ++ [double_quote] ++ userMessage ++ [double_quote];
     [];
     lit "Instructions:";
     lit "- You are the CUSTOMER in this conversation, not the salesperson";
     lit "- Respond naturally as " ++ to_string characterName ++ lit " would";
     lit "- Keep responses conversational and brief (1-2 sentences)";
     lit "- Show appropriate interest or skepticism based on your personality";
     lit "- Ask relevant questions about their offering";
     lit "- Stay in character throughout";
     [];
     lit "Respond as " ++ to_string characterName
     ++ lit " would naturally respond to what was just said."].

(** The messages handed to the model: the system prompt, the turns among
    the last four of the history that the trainee or the model spoke, and
    the message of the request. *)
Definition messages (systemPrompt : jsstring) (conversationHistory : list Turn)
                    (userMessage : jsstring) : list Message :=
  let messages := [mkMessage system (JsString systemPrompt)] in
  let recentHistory := slice_from conversationHistory (-4) in
  let messages :=
    fold_left (fun messages msg =>
                 if is_user msg then push messages (mkMessage user (message msg))
                 else if is_ai msg then push messages (mkMessage assistant (message msg))
                 else messages)
              recentHistory messages in
  push messages (mkMessage user (JsString userMessage)).

(** [aiResponse.replace(/^(Customer:|AI:|Assistant:)\s*/i, '')] *)
Definition strip_speaker_label (aiResponse : jsstring) : jsstring :=
  let lower := toLowerCase aiResponse in
  if startsWith lower (lit "customer:") then trim_start (skipn 9 aiResponse)
  else if startsWith lower (lit "ai:") then trim_start (skipn 3 aiResponse)
  else if startsWith lower (lit "assistant:") then trim_start (skipn 10 aiResponse)
  else aiResponse.

(** The line terminators, which the dot of a regular expression does not
    match. *)
Definition is_line_terminator (c : ascii) : bool :=
  (code c =? 10)%N || (code c =? 13)%N.

(** What is left of a text after the first closing bracket, when no line
    ends before it: the rest of a match of [.*?\]]. *)
Fixpoint after_group (s : jsstring) : option jsstring :=
  match s with
  | [] => None
  | c :: s' =>
      if Ascii.eqb c "]" then Some s'
      else if is_line_terminator c then None
      else after_group s'
  end.

(** [aiResponse.replace(/\[.*?\]/g, '')]; [skip] counts the code units of
    the current match still to be dropped. *)
Fixpoint strip_groups_loop (skip : nat) (s : jsstring) : jsstring :=
  match s with
  | [] => []
  | c :: s' =>
      match skip with
      | S n => strip_groups_loop n s'
      | O =>
          if Ascii.eqb c "["
          then match after_group s' with
               | Some rest => strip_groups_loop (length s' - length rest) s'
               | None => c :: strip_groups_loop 0 s'
               end
          else c :: strip_groups_loop 0 s'
      end
  end.

Definition strip_groups (s : jsstring) : jsstring := strip_groups_loop 0 s.

Definition repetitivePatterns : list jsstring :=
  map lit ["i'm sorry, i didn't quite hear you clearly";
           "what company are you calling from";
           "sorry, i didn't catch that";
           "could you repeat that";
           "i don't understand"]%string.

Definition isRepetitive (aiResponse : jsstring) : bool :=
  existsb (fun pattern => includes (toLowerCase aiResponse) pattern) repetitivePatterns.

(** The reply that takes the place of a repetitive or short one. *)
Definition specific_reply (userMessage : jsstring) (businessVertical : JsValue)
  : jsstring :=
  let lower := toLowerCase userMessage in
  if includes lower (lit "hello") || includes lower (lit "hi")
  then lit "Hello. How can I help you today?"
  else if includes lower (lit "google") || includes lower (lit "ads")
          || includes lower (lit "advertising")
  then lit "Advertising for my " ++ to_string businessVertical
       ++ lit " business? What exactly are you proposing?"
  else if includes lower (lit "marketing") || includes lower (lit "promotion")
  then lit "Marketing help? Tell me more about what you have in mind."
  else if includes lower (lit "business") || includes lower (lit "company")
  then lit "What kind of business solution are you offering?"
  else if includes lower (lit "help") || includes lower (lit "improve")
  then lit "Help with what specifically? What are you suggesting?"
  else lit "I'm listening. What is this regarding?".

(** From the content of the completion to the reply. *)
Definition reply (content userMessage : jsstring) (businessVertical : JsValue)
  : jsstring :=
  let aiResponse := trim content in
  let aiResponse := strip_speaker_label aiResponse in
  let aiResponse := strip_groups aiResponse in
  if isRepetitive aiResponse || (length aiResponse <? 10)%nat
  then specific_reply userMessage businessVertical
  else aiResponse.

(** The messages for a history that is an array of any values: reading
    the speaker of an element that is [undefined] or [null] throws. *)
Definition outgoing_messages (systemPrompt : jsstring) (elements : list Request.Value)
                             (userMessage : jsstring) : completion (list Outgoing) :=
  let messages := [mkOutgoing system (Request.VString systemPrompt)] in
  let recentHistory := slice_from elements (-4) in
  messages <-
    foldM (fun messages msg =>
             speaker <- Request.property msg "speaker" ;;
             if Request.is_text speaker (lit "user")
             then message <- Request.property msg "message" ;;
                  Normal (push messages (mkOutgoing user message))
             else if Request.is_text speaker (lit "ai")
             then message <- Request.property msg "message" ;;
                  Normal (push messages (mkOutgoing assistant message))
             else Normal messages)
          recentHistory messages ;;
  Normal (push messages (mkOutgoing user (Request.VString userMessage))).

(** From the history to the reply, once the scenario is found: the context,
    the messages, the call of the language model and the reply made of its
    content.  [openai] stands for the chat completion: the content of its
    first choice, or the exception of a call that fails.  A history that is
    no array has no [slice] that gives an array, so that [map] or [forEach]
    throws. *)
Definition aiResponse {N : Request.NumberToString}
                      (openai : list Outgoing -> completion Request.Value)
                      (characterName characterRole characterPersonality
                       businessVertical : JsValue)
                      (userMessage : jsstring) (conversationHistory : Request.Value)
  : completion jsstring :=
  match conversationHistory with
  | Request.VArray elements =>
      conversationContext <- conversationContext characterName elements ;;
      let systemPrompt :=
        systemPrompt characterName characterRole characterPersonality
                     businessVertical conversationContext userMessage in
      messages <- outgoing_messages systemPrompt elements userMessage ;;
      content <- openai messages ;;
      match content with
      | Request.VString content =>
          Normal (reply content userMessage businessVertical)
      | _ => Throw TypeError      (* [content.trim()] *)
      end
  | _ => Throw TypeError
  end.

(** The handler, for any values of [userMessage], [scenarioId] and
    [conversationHistory], the properties of these names of the body of the
    request; [scenariosSheet] is [None] where the rows of the sheet cannot
    be read.  Every exception ends in the [catch] of the
    handler, which answers with the fallback: those of the first
    [console.log], which calls [userMessage.substring] and reads
    [conversationHistory.length], come before the check of the fields.  The
    handler also parses the [key_objections] cell, inside a [try] of its own
    and without using the result. *)
Definition chat {N : Request.NumberToString}
                (openai : list Outgoing -> completion Request.Value)
                (userMessage scenarioId conversationHistory : Request.Value)
                (scenariosSheet : option (list Row)) : Response :=
  let conversationHistory :=
    match conversationHistory with
    | Request.VUndefined => Request.VArray []
    | _ => conversationHistory
    end in
  match userMessage, Request.length_of conversationHistory with
  | Request.VString text, Normal _ =>
      if negb (Request.truthy userMessage) || negb (Request.truthy scenarioId)
      then Error400
      else
        match scenariosSheet with
        | None => Fallback
        | Some rows =>
            match find (fun row =>
                          Request.strict_eq_cell (get row "scenario_id") scenarioId
                          || Request.strict_eq_cell (get row "id") scenarioId)
                       rows with
            | None => Error404
            | Some scenario =>
                let characterName :=
                  or_else (get scenario "ai_character_name")
                          (JsString (lit "Alex Johnson")) in
                let characterRole :=
                  or_else (get scenario "ai_character_role")
                          (JsString (lit "Business Professional")) in
                let characterPersonality :=
                  or_else (get scenario "ai_character_personality")
                          (JsString (lit "Professional, helpful")) in
                let businessVertical :=
                  or_else (get scenario "business_vertical")
                          (JsString (lit "General Business")) in
                match aiResponse openai characterName characterRole
                                 characterPersonality businessVertical text
                                 conversationHistory with
                | Normal aiResponse => Json200 aiResponse characterName characterRole
                | Throw _ => Fallback
                end
            end
        end
  | _, _ => Fallback
  end.

End Chat.

(** ** [POST /api/sessions/end] *)

Inductive Response :=
| Json200 (analysis : MetricsRecord) (aiFeedback conversationLength : Request.Value)
| Error400          (* [{ error: 'Session ID required' }] *)
| Error500.         (* [{ error: 'Failed to end session', ... }] *)

(** The two messages of the request for feedback. *)
Definition feedback_request (conversationText : jsstring) : list Chat.Outgoing :=
  [Chat.mkOutgoing Chat.system
     (Request.VString (lit "You are a sales coach. Analyze this sales roleplay conversation and provide constructive feedback on communication skills, persuasion techniques, and areas for improvement. Keep it concise and actionable."));
   Chat.mkOutgoing Chat.user
     (Request.VString (lit "Please analyze this sales conversation:" ++ [line_feed; line_feed]
                       ++ firstn 2000 conversationText))].

(** The feedback step, which sits in a [try] of its own: whatever throws in
    it, the text of a turn that cannot be written as a string or the call
    of the language model, leaves the feedback at a fixed sentence.
    [openai] is the content of the first choice of the completion, or the
    exception of a call that fails. *)
Definition session_feedback {N : Request.NumberToString}
                            (openai : list Chat.Outgoing -> completion Request.Value)
                            (conversationHistory : Request.Value) : Request.Value :=
  let attempt :=
    match conversationHistory with
    | Request.VArray elements =>
        turns <- mapM (Request.labelled (lit "Salesperson") (lit "Customer"))
                      elements ;;
        let conversationText := join [line_feed] turns in
        if (10 <? length conversationText)%nat
        then openai (feedback_request conversationText)
        else Normal (Request.VString (lit "Great job starting the conversation! Try to engage more with the customer to get detailed feedback."))
    | _ => Throw TypeError      (* [conversationHistory.map] *)
    end in
  match attempt with
  | Normal aiFeedback => aiFeedback
  | Throw _ =>
      Request.VString (lit "Session completed successfully. Keep practicing to improve your skills!")
  end.

(** The handler, as far as its answer goes, for any values of [sessionId],
    [transcript] and [conversationHistory]: the properties of these names
    of the body of the request, [undefined] for a property the body does
    not have.  The first lines read
    [conversationHistory.length], before the check of [sessionId].  The two
    spreadsheet steps sit in [try]/[catch] blocks of their own and never
    reach the outer [catch]. *)
Definition sessions_end {N : Request.NumberToString}
                        (openai : list Chat.Outgoing -> completion Request.Value)
                        (sessionId transcript conversationHistory : Request.Value)
  : Response :=
  let conversationHistory :=
    match conversationHistory with
    | Request.VUndefined => Request.VArray []
    | _ => conversationHistory
    end in
  match Request.length_of conversationHistory with
  | Throw _ => Error500
  | Normal conversationLength =>
      if negb (Request.truthy sessionId) then Error400
      else
        let redactedTranscript :=
          Request.redactPII (Request.or_else transcript (Request.VString [])) in
        match Request.analyzeSession redactedTranscript conversationHistory with
        | Throw _ => Error500
        | Normal analysis =>
            Json200 analysis (session_feedback openai conversationHistory)
                    conversationLength
        end
  end.

(** ** [POST /api/sessions/analyze-google-ads] *)

Inductive AdsResponse :=
| AdsJson200 (analysis : GoogleAds.Performance) (aiFeedback : Request.Value)
             (skillArea : JsValue) (coachingRecommendations : list jsstring)
| AdsError500.      (* [{ error: 'Failed to analyze performance' }] *)

(** [scenario?.get(header)] *)
Definition scenario_cell (scenario : option Row) (header : string) : JsValue :=
  match scenario with
  | Some scenario => get scenario header
  | None => JsUndefined
  end.

(** The two messages of the request for coaching. *)
Definition coaching_request (scenario : option Row) (conversation : jsstring)
  : list Chat.Outgoing :=
  [Chat.mkOutgoing Chat.system
     (Request.VString
        (Chat.lines
           [lit "You are a Google Ads sales coach. Analyze this roleplay performance and provide specific feedback on:";
            lit "        ";
            lit "        1. Google Ads product knowledge accuracy";
            lit "        2. Objection handling for digital advertising concerns  ";
            lit "        3. Discovery questions for understanding client needs";
            lit "        4. Explanation clarity of technical concepts";
            lit "        5. Business value demonstration";
            lit "        ";
            lit "        Be specific about what they did well and what to improve. Focus on Google Ads selling skills.";
            lit "        ";
            lit "        Scenario: " ++ to_string (scenario_cell scenario "title");
            lit "        Skill Area: "
            ++ to_string (scenario_cell scenario "sales_skill_area");
            lit "        Buyer Persona: "
            ++ to_string (scenario_cell scenario "buyer_persona")]));
   Chat.mkOutgoing Chat.user
     (Request.VString (lit "Analyze this Google Ads sales conversation:"
                       ++ [line_feed; line_feed] ++ conversation))].

(** The handler, for any values of [scenarioId] and [conversationHistory],
    the properties of these names of the body of the request.
    [scenariosSheet] is [None] where the rows of the sheet cannot be read:
    the document has no such sheet, so that calling [getRows] throws, or
    the call fails.  [openai] is the content of the first choice
    of the completion, or the exception of a call that fails.  The history
    has no default here; the messages of the request are made before the
    call, and the text of a turn that cannot be written as a string throws
    there.  Every exception ends in the [catch] of the handler. *)
Definition analyze_google_ads {N : Request.NumberToString}
                              (openai : list Chat.Outgoing -> completion Request.Value)
                              (scenarioId conversationHistory : Request.Value)
                              (scenariosSheet : option (list Row)) : AdsResponse :=
  match scenariosSheet with
  | None => AdsError500
  | Some rows =>
      let scenario :=
        find (fun row => Request.strict_eq_cell (get row "scenario_id") scenarioId)
             rows in
      let answer :=
        googleAdsAnalysis <- Request.analyzeGoogleAdsPerformance conversationHistory ;;
        turns <- match conversationHistory with
                 | Request.VArray elements =>
                     mapM (Request.labelled (lit "Seller") (lit "Buyer")) elements
                 | _ => Throw TypeError
                 end ;;
        aiFeedback <- openai (coaching_request scenario (join [line_feed] turns)) ;;
        Normal (googleAdsAnalysis, aiFeedback) in
      match answer with
      | Normal (googleAdsAnalysis, aiFeedback) =>
          AdsJson200 googleAdsAnalysis aiFeedback
                     (scenario_cell scenario "sales_skill_area")
                     (generateCoachingRecommendations googleAdsAnalysis)
      | Throw _ => AdsError500
      end
  end.

(** ** [AnalysisService.analyzeTranscript] of the first server file *)

Module AnalysisService.

Record Metrics := mkMetrics {
  fillerWordCount : Z;
  talkToListenRatio : Q;
  avgPauseLength : Q;
  speakingPace : Z;
  confidence : Q
}.

Definition fillerWords : list jsstring :=
  map lit ["um"; "uh"; "like"; "you know"; "so"; "actually"; "basically"]%string.

(** [parseFloat(x.toFixed(2))]: [toFixed] takes the integer [n] nearest to
    [100 x], the greater of two that are as near, and writes [n / 100] in
    decimal digits; [parseFloat] reads the double nearest to that. *)
Definition two_decimals (x : Q) : Q :=
  fl (inject_Z (Qfloor (x * 100 + (1 # 2))) / 100).

(** [word.replace(/[.,!?]/g, '')] *)
Definition without_punctuation (word : jsstring) : jsstring :=
  filter (fun c => negb (one_of ".,!?" c)) word.

(** [analyzeTranscript(transcript)]; calling [toLowerCase] on a transcript
    that is no string throws. *)
Definition analyzeTranscript (transcript : JsValue) : completion Metrics :=
  match transcript with
  | JsString transcript =>
      let words := split_runs is_space (toLowerCase transcript) in
      let fillerWordCount :=
        len (filter (fun word =>
                       GoogleAds.array_includes fillerWords (without_punctuation word))
                    words) in
      let wordCount := len words in
      let speakingPace := wordCount in
      let confidence :=
        Qmax 0 (Qmin 1 (Js.sub 1 (Js.mul (Js.div (inject_Z fillerWordCount)
                                                 (inject_Z wordCount)) 2))) in
      Normal {| fillerWordCount := fillerWordCount;
                talkToListenRatio := fl (8 # 10);
                avgPauseLength := 3 # 2;
                speakingPace := speakingPace;
                confidence := two_decimals confidence |}
  | _ => Throw TypeError
  end.

End AnalysisService.

(** ** Definitions of the further properties *)

(** Every code unit of the model. *)
Definition all_ascii : list ascii := map ascii_of_nat (seq 0 256).

(** Every match of the expression reads a code unit of the class [P]. *)
Fixpoint needs (P : ascii -> bool) (r : regex) : bool :=
  match r with
  | Cls f => forallb (fun c => implb (f c) (P c)) all_ascii
  | Seq r1 r2 => needs P r1 || needs P r2
  | Alt r1 r2 => needs P r1 && needs P r2
  | _ => false
  end.

(** The code units one of which every match of [redactPII] reads: a capital
    letter A-Z, a digit, or the at sign. *)
Definition pii_mark (c : ascii) : bool :=
  is_upper c || is_digit c || Ascii.eqb c "@".

Definition plain (t : jsstring) : bool := forallb (fun c => negb (pii_mark c)) t.

(** The object [analyzeSession] builds once its three counting filters have
    returned: each filter keeps the turns at which its callback gave [true]. *)
Definition analysis_of (transcript : option jsstring)
                       (conversationHistory : list Turn) : MetricsRecord :=
  let textToAnalyze := textToAnalyze transcript conversationHistory in
  let words := tokenize textToAnalyze in
  let sentences :=
    filter trim_nonempty
           (split_runs (fun c => existsb (Ascii.eqb c) (lit ".!?")) textToAnalyze) in
  let userMessages := filter is_user conversationHistory in
  let fillerWordCount := len (filter is_filler words) in
  let confidenceScore := confidence_raw fillerWordCount (len words) in
  let averageSentenceLength :=
    if (0 <? length sentences)%nat
    then Js.div (inject_Z (len words)) (inject_Z (len sentences)) else 0 in
  let totalMessages := len conversationHistory in
  let estimatedTalkTime :=
    if (0 <? totalMessages)%Z
    then Math_round
           (Js.mul (Js.div (inject_Z (len userMessages)) (inject_Z totalMessages))
                   100)
    else 50%Z in
  let allUserText :=
    toLowerCase (join (lit " ")
                      (map (fun msg => join_text (message msg)) userMessages)) in
  let conceptsUsed :=
    filter (fun concept => includes allUserText (toLowerCase concept))
           googleAdsConcepts in
  let discoveryQuestions :=
    len (filter (fun msg => value_of (is_discovery_question msg)) userMessages) in
  let objectionHandling :=
    len (filter (fun msg => value_of (lower_includes_any (message msg) objectionPhrases))
                userMessages) in
  let businessValueMentions :=
    len (filter (fun msg => value_of (lower_includes_any (message msg)
                                                         businessValueKeywords))
                userMessages) in
  let discovery_score := discovery_score_of discoveryQuestions in
  let product_knowledge_score := product_knowledge_score_of (len conceptsUsed) in
  let objection_handling_score := objection_handling_score_of objectionHandling in
  let business_value_score := business_value_score_of businessValueMentions in
  let overall_effectiveness_score :=
    overall_effectiveness_score_of discovery_score product_knowledge_score
                                   objection_handling_score business_value_score in
  {| talkTimeRatio := estimatedTalkTime;
     fillerWordCount := fillerWordCount;
     confidenceScore := Math_round confidenceScore;
     wordCount := len words;
     averageSentenceLength :=
       Js.div (inject_Z (Math_round (Js.mul averageSentenceLength 10))) 10;
     conversationLength := len conversationHistory;
     discovery_score := discovery_score;
     product_knowledge_score := product_knowledge_score;
     objection_handling_score := objection_handling_score;
     business_value_score := business_value_score;
     overall_effectiveness_score := overall_effectiveness_score;
     google_ads_concepts_used := Some conceptsUsed;
     discovery_questions_count := Some discoveryQuestions;
     objection_handling_count := Some objectionHandling;
     business_value_mentions := Some businessValueMentions |}.

(** The fillers that are one word. *)
Definition oneWordFillers : list jsstring :=
  map lit ["um"; "uh"; "like"; "basically"; "literally"; "actually"]%string.

(** A turn with the letters of its message in lower case. *)
Definition lower_message (msg : Turn) : Turn :=
  mkTurn (speaker msg)
         (match message msg with
          | JsString s => JsString (toLowerCase s)
          | v => v
          end).

(** No member of the list occurs twice. *)
Fixpoint distinct (l : list jsstring) : bool :=
  match l with
  | [] => true
  | x :: l' =>
      negb (existsb (fun y => if list_eq_dec ascii_dec x y then true else false) l')
      && distinct l'
  end.

(** The counts of [analyzeGoogleAdsPerformance] and the object it builds once
    its three counting filters have returned. *)
Definition ads_user_text (conversationHistory : list Turn) : jsstring :=
  toLowerCase (join (lit " ")
                    (map (fun msg => join_text (message msg))
                         (filter is_user conversationHistory))).

Definition ads_concepts (conversationHistory : list Turn) : list jsstring :=
  filter (fun concept => includes (ads_user_text conversationHistory) (toLowerCase concept))
         GoogleAds.googleAdsConcepts.

Definition ads_discovery (conversationHistory : list Turn) : Z :=
  len (filter (fun msg =>
                 value_of (andM (call_includes (message msg) (lit "?"))
                                (lower_includes_any (message msg)
                                                    GoogleAds.discoveryKeywords)))
              (filter is_user conversationHistory)).

Definition ads_objection (conversationHistory : list Turn) : Z :=
  len (filter (fun msg => value_of (lower_includes_any (message msg)
                                                       GoogleAds.objectionPhrases))
              (filter is_user conversationHistory)).

Definition ads_business (conversationHistory : list Turn) : Z :=
  len (filter (fun msg => value_of (lower_includes_any (message msg)
                                                       GoogleAds.businessValueKeywords))
              (filter is_user conversationHistory)).

Definition performance_of (conversationHistory : list Turn) : GoogleAds.Performance :=
  let userMessages := filter is_user conversationHistory in
  let conceptsUsed := ads_concepts conversationHistory in
  let discoveryQuestions := ads_discovery conversationHistory in
  let objectionHandling := ads_objection conversationHistory in
  let businessValueMentions := ads_business conversationHistory in
  {| GoogleAds.discovery_score :=
       Z.min 5 (Z.max 1 (Math_ceil (Js.div (inject_Z discoveryQuestions) 2)));
     GoogleAds.product_knowledge_score := Z.min 5 (Z.max 1 (len conceptsUsed));
     GoogleAds.objection_handling_score := Z.min 5 (Z.max 1 objectionHandling);
     GoogleAds.solution_fit_score :=
       Z.min 5 (Z.max 1 (if GoogleAds.array_includes conceptsUsed (lit "performance max")
                            || GoogleAds.array_includes conceptsUsed (lit "smart campaigns")
                         then 4 else 2));
     GoogleAds.clarity_confidence_score :=
       Z.min 5 (Z.max 1 (Math_ceil (Js.div (inject_Z (len userMessages)) 3)));
     GoogleAds.business_value_score := Z.min 5 (Z.max 1 businessValueMentions);
     GoogleAds.overall_effectiveness_score :=
       Z.min 5 (Z.max 1 (Math_ceil
         (Js.div (inject_Z (discoveryQuestions + len conceptsUsed
                            + objectionHandling + businessValueMentions)) 4)));
     GoogleAds.google_ads_concepts_used := conceptsUsed;
     GoogleAds.conversation_length := len conversationHistory;
     GoogleAds.user_message_count := len userMessages |}.

(** [Math.min(5, Math.max(1, x))] *)
Definition clamp15 (x : Z) : Z := Z.min 5 (Z.max 1 x).

(** The four recommendations of [generateCoachingRecommendations]. *)
Definition advice_discovery : jsstring :=
  lit "Practice asking more discovery questions about client goals and current marketing".
Definition advice_product : jsstring :=
  lit "Study Google Ads products: Performance Max, Smart Campaigns, and Search Campaigns".
Definition advice_objection : jsstring :=
  lit "Work on addressing budget and ROI concerns with examples and case studies".
Definition advice_business : jsstring :=
  lit "Focus more on business outcomes and ROI rather than just features".

(** The text holds no space. *)
Definition no_space (s : jsstring) : bool := forallb (fun c => negb (Ascii.eqb c " ")) s.

(** The sessions of a user in the order of the answer, before the page is
    cut out: [None] where making them throws. *)
Definition history_sessions (sort : list History.Session -> list History.Session)
                            (uid : jsstring) (sessionRows feedbackRows : list Row)
  : option (list History.Session) :=
  match mapM (History.session_of feedbackRows)
             (filter (fun row => strict_eq (get row "userId") (JsString uid))
                     sessionRows) with
  | Normal l => Some (sort l)
  | Throw _ => None
  end.

(** The integers the two query parameters ask for. *)
Definition requested_offset (offset : option jsstring) : option Z :=
  match offset with
  | Some s => Num.parse s
  | None => Some 0%Z
  end.

Definition requested_limit (limit : option jsstring) : option Z :=
  match limit with
  | Some s => Num.parse s
  | None => Some 10%Z
  end.

(** Test data: a sheet of sessions of two users and a sheet of feedback. *)
Definition row (n : Z) (cells : list (string * string)) : Row :=
  mkRow n (map (fun c => (lit (fst c), lit (snd c))) cells).

Definition sheet_sessions : list Row :=
  [row 2 [("id", "session_1_u1"); ("userId", "u1"); ("status", "completed");
          ("duration", "120000")];
   row 3 [("id", "session_2_u2"); ("userId", "u2"); ("status", "completed")];
   row 4 [("id", "session_3_u1"); ("userId", "u1"); ("status", "active")];
   row 5 [("id", "session_4_u1"); ("userId", "u1"); ("duration", "60000")]]%string.

Definition sheet_feedback : list Row :=
  [row 2 [("sessionId", "session_1_u1"); ("talkTimeRatio", "0");
          ("confidenceScore", "80"); ("fillerWordCount", "3");
          ("conversationLength", "6"); ("aiFeedback", "Good.")];
   row 3 [("sessionId", "session_4_u1"); ("talkTimeRatio", "57");
          ("confidenceScore", "45"); ("fillerWordCount", "0");
          ("conversationLength", "4"); ("aiFeedback", "Keep going.")]]%string.

(** A sort that leaves the order as it is. *)
Definition keep_order {A} (l : list A) : list A := l.

Definition sample_sessions : list History.Session :=
  match history_sessions keep_order (lit "u1") sheet_sessions sheet_feedback with
  | Some l => l
  | None => []
  end.

Definition no_session : History.Session :=
  History.mkSession JsUndefined JsUndefined [] [] [] JsUndefined JsUndefined 0
                    JsUndefined None.

Definition sample_result : History.Result :=
  Eval vm_compute in
    match History.sessions_history keep_order (lit "u1") None None
                                   (Some sheet_sessions) (Some sheet_feedback) with
    | History.Json200 r => r
    | History.Error500 _ =>
        History.mkResult [] (History.mkPagination 0 None None false)
                         (History.mkSummary 0 0 0 0)
    end.

Definition sample_session : History.Session :=
  Eval vm_compute in hd no_session (History.sessions sample_result).

Definition sample_details : Details.Result :=
  Eval vm_compute in
    match Details.session_details keep_order (lit "u1") (lit "session_1_u1")
            (Some sheet_sessions) (Some sheet_feedback) (Some []) with
    | Details.Json200 d => d
    | _ => Details.mkResult
             (Details.mkSessionInfo JsUndefined JsUndefined JsUndefined 0
                                    JsUndefined JsUndefined)
             None None []
    end.

(** The text fields of a scenario that the listing fills in where a cell is
    empty. *)
Definition text_fields {J} (s : Scenarios.Scenario J) : list JsValue :=
  [Scenarios.scenario_id s; Scenarios.id s; Scenarios.title s;
   Scenarios.description s; Scenarios.difficulty s; Scenarios.category s;
   Scenarios.ai_character_name s; Scenarios.ai_character_role s;
   Scenarios.ai_character_personality s; Scenarios.ai_character_background s;
   Scenarios.sales_skill_area s; Scenarios.buyer_persona s;
   Scenarios.google_ads_focus s; Scenarios.business_vertical s;
   Scenarios.campaign_complexity s; Scenarios.success_metrics s;
   Scenarios.coaching_focus s; Scenarios.scenario_objectives s;
   Scenarios.ai_prompts s].

(** The text holds a match of [\[.*?\]]: an opening bracket with a closing
    one after it on the same line. *)
Fixpoint has_group (s : jsstring) : bool :=
  match s with
  | [] => false
  | c :: s' =>
      (Ascii.eqb c "[" && match Chat.after_group s' with
                          | Some _ => true
                          | None => false
                          end)
      || has_group s'
  end.

(** What [forEach] adds to the messages for a turn of the history. *)
Definition message_of (msg : Turn) : list Chat.Message :=
  if is_user msg then [Chat.mkMessage Chat.user (message msg)]
  else if Chat.is_ai msg then [Chat.mkMessage Chat.assistant (message msg)]
  else [].


(** ** The shape of the values of a request *)

(** [undefined] or [null]: the values whose properties cannot be read. *)
Definition nullish (v : Request.Value) : bool :=
  match v with
  | Request.VUndefined | Request.VNull => true
  | _ => false
  end.

(** The value of a property of an element that can be read. *)
Definition field (v : Request.Value) (name : string) : Request.Value :=
  match v with
  | Request.VObject properties => Request.lookup (lit name) properties
  | _ => Request.VUndefined
  end.

(** The element is a trainee turn: its speaker is ['user']. *)
Definition user_turn (v : Request.Value) : bool :=
  Request.is_text (field v "speaker") (lit "user").

Definition is_text_value (v : Request.Value) : bool :=
  match v with
  | Request.VString _ => true
  | _ => false
  end.

(** No element of the array is [undefined] or [null]. *)
Definition readable (elements : list Request.Value) : bool :=
  forallb (fun v => negb (nullish v)) elements.

(** Every element can be read and every trainee turn carries a string
    message. *)
Definition well_formed_array (elements : list Request.Value) : bool :=
  readable elements &&
  forallb (fun v => is_text_value (field v "message")) (filter user_turn elements).

(** The inputs for which [analyzeSession] returns: a history that is
    missing, an empty array, an empty string or an object whose length is
    0, with a falsy transcript (the default object); an empty or missing
    history with a transcript that is a string; a non-empty array that is
    well formed, with any transcript. *)
Definition analysable (transcript conversationHistory : Request.Value) : bool :=
  match conversationHistory with
  | Request.VUndefined | Request.VArray [] =>
      negb (Request.truthy transcript) || is_text_value transcript
  | Request.VArray elements => well_formed_array elements
  | Request.VString [] => negb (Request.truthy transcript)
  | Request.VObject properties =>
      negb (Request.truthy transcript)
      && Request.is_zero (Request.lookup (lit "length") properties)
  | _ => false
  end.

(** A value of the request as a field of a turn, and an element as a turn:
    a value that is neither a string nor [undefined] stands as [null], with
    which it shares that it is not ['user'] and that the methods of strings
    cannot be called on it. *)
Definition cell_of (v : Request.Value) : JsValue :=
  match v with
  | Request.VUndefined => JsUndefined
  | Request.VString s => JsString s
  | _ => JsNull
  end.

Definition turn_of (v : Request.Value) : Turn :=
  mkTurn (cell_of (field v "speaker")) (cell_of (field v "message")).

Definition transcript_of (v : Request.Value) : option jsstring :=
  match v with
  | Request.VString s => Some s
  | _ => None
  end.

(** A turn as an object of the request. *)
Definition value_of_cell (v : JsValue) : Request.Value :=
  match v with
  | JsUndefined => Request.VUndefined
  | JsNull => Request.VNull
  | JsString s => Request.VString s
  end.

Definition object_of (msg : Turn) : Request.Value :=
  Request.VObject [(lit "speaker", value_of_cell (speaker msg));
                   (lit "message", value_of_cell (message msg))].

(** [ToString] of the message of the turn throws. *)
Definition unwritable {N : Request.NumberToString} (v : Request.Value) : bool :=
  negb (returns (Request.to_string (field v "message"))).

(** ** Test data of the requests *)

(** The text of a number in the examples: right for the integers below
    [10^21], the only numbers the examples hold. *)
Definition integer_text : Request.NumberToString :=
  fun n =>
    match n with
    | Request.Finite x => Num.toString (Qfloor x)
    | Request.Infinity negative => lit (if negative then "-Infinity" else "Infinity")
    | Request.NaN => lit "NaN"
    end.

(** A language model that answers every request with the same sentence, and
    one whose call fails. *)
Definition coach (messages : list Chat.Outgoing) : completion Request.Value :=
  Normal (Request.VString (lit "Tell me more about it.")).

Definition unreachable (messages : list Chat.Outgoing) : completion Request.Value :=
  Throw TypeError.

(** The object [{ speaker, message }]. *)
Definition turn (speaker message : string) : Request.Value :=
  Request.VObject [(lit "speaker", Request.VString (lit speaker));
                   (lit "message", Request.VString (lit message))].

Definition text (s : string) : Request.Value := Request.VString (lit s).

Definition number (n : Z) : Request.Value :=
  Request.VNumber (Request.Finite (inject_Z n)).

(** A trainee turn without a message. *)
Definition no_message : Request.Value :=
  Request.VObject [(lit "speaker", Request.VString (lit "user"))].

(** 400 words, 109 of them fillers. *)
Definition filler_transcript : jsstring :=
  concat (repeat (lit "um ") 109) ++ concat (repeat (lit "fine ") 291).

Definition sample_request : list Request.Value :=
  [turn "user" "What is your current budget for this?"; turn "ai" "We have not set one."].

Definition sample_rows : list Row :=
  [mkRow 2 [(lit "scenario_id", lit "s1"); (lit "title", lit "Cold call");
            (lit "sales_skill_area", lit "Discovery")]].

(** The two answers are of the same status and, where they hold an analysis,
    hold the same one with the same conversation length: they differ in
    the feedback at most. *)
Definition same_analysis (a b : Response) : Prop :=
  match a, b with
  | Json200 r _ n, Json200 r' _ n' => r = r' /\ n = n'
  | Error400, Error400 => True
  | Error500, Error500 => True
  | _, _ => False
  end.

(** The histories for which [analyzeGoogleAdsPerformance] returns. *)
Definition ads_analysable (conversationHistory : Request.Value) : bool :=
  match conversationHistory with
  | Request.VArray elements => well_formed_array elements
  | _ => false
  end.

(** The elements of a history that is an array; no other history has any. *)
Definition elements_of (conversationHistory : Request.Value) : list Request.Value :=
  match conversationHistory with
  | Request.VArray elements => elements
  | _ => []
  end.

(** A counterpart turn whose message cannot be written as a string: an
    object with a property [toString] that is no function. *)
Definition unwritable_turn : Request.Value :=
  Request.VObject
    [(lit "speaker", Request.VString (lit "ai"));
     (lit "message", Request.VObject [(lit "toString", Request.VNumber (Request.Finite 1))])].

(** A transcript that is a string or missing, and a message with a content
    that is a string, [null] or [undefined], as values of the request. *)
Definition transcript_value (transcript : option jsstring) : Request.Value :=
  match transcript with
  | Some s => Request.VString s
  | None => Request.VUndefined
  end.

Definition outgoing_of (m : Chat.Message) : Chat.Outgoing :=
  Chat.mkOutgoing (Chat.role m) (value_of_cell (Chat.content m)).
(** * Properties *)

(** ** Double arithmetic

    Rounding to the nearest double is monotone, and so it respects the
    equality of rationals. *)

Lemma rne_floor (x : Q) : (Qfloor x <= rne x <= Qfloor x + 1)%Z.
Proof.
  unfold rne. destruct (Qcompare _ _); [destruct (Z.even _)| |]; lia.
Qed.

Lemma rne_le (x y : Q) : x <= y -> (rne x <= rne y)%Z.
Proof.
  intros H. pose proof (Qfloor_resp_le _ _ H) as Hf.
  pose proof (rne_floor x) as Bx. pose proof (rne_floor y) as By.
  destruct (Z.eq_dec (Qfloor x) (Qfloor y)) as [E|N]; [|lia].
  unfold rne in *. rewrite <- E in *.
  destruct (Qcompare_spec (x - inject_Z (Qfloor x)) (1 # 2)) as [Hx|Hx|Hx];
    destruct (Qcompare_spec (y - inject_Z (Qfloor x)) (1 # 2)) as [Hy|Hy|Hy];
    try destruct (Z.even (Qfloor x)); try lia; exfalso; lra.
Qed.

Lemma rne_ge (x : Q) (m : Z) : inject_Z m <= x -> (m <= rne x)%Z.
Proof.
  intros H. apply Qfloor_resp_le in H. rewrite Qfloor_Z in H.
  pose proof (rne_floor x). lia.
Qed.

Lemma rne_le_Z (x : Q) (m : Z) : x <= inject_Z m -> (rne x <= m)%Z.
Proof.
  intros H. pose proof (Qfloor_resp_le _ _ H) as Hf. rewrite Qfloor_Z in Hf.
  pose proof (rne_floor x) as B.
  destruct (Z.eq_dec (Qfloor x) m) as [E|N]; [|lia].
  unfold rne. pose proof (Qfloor_le x) as L. rewrite E in *.
  destruct (Qcompare_spec (x - inject_Z m) (1 # 2)) as [Hx|Hx|Hx];
    try lia; exfalso; lra.
Qed.

Lemma pow2_positive (k : Z) : 0 < pow2 k.
Proof. apply Qpower_0_lt. reflexivity. Qed.

Lemma pow2_le (n m : Z) : (n <= m)%Z -> pow2 n <= pow2 m.
Proof. intros H. apply Qpower_le_compat_l; [exact H | discriminate]. Qed.

Lemma pow2_lt_inv (n m : Z) : pow2 n < pow2 m -> (n < m)%Z.
Proof. intros H. apply (Qpower_lt_compat_l_inv 2); [exact H | reflexivity]. Qed.

Lemma pow2_add (n m : Z) : pow2 (n + m) == pow2 n * pow2 m.
Proof. apply Qpower_plus. discriminate. Qed.

Lemma pow2_frac (x y : Z) :
  (0 <= x)%Z -> (0 <= y)%Z -> pow2 (x - y) == inject_Z (2 ^ x) / inject_Z (2 ^ y).
Proof.
  intros Hx Hy. unfold pow2. rewrite Qpower_minus by discriminate.
  now rewrite !Zpower_Qpower.
Qed.

Lemma inject_Z_pos (y : Z) : (0 < y)%Z -> 0 < inject_Z y.
Proof. intros H. unfold Qlt. simpl. lia. Qed.

Lemma frac_lt (n : Z) (d : positive) (x y : Z) :
  (0 < y)%Z -> (n * y < x * Zpos d)%Z -> n # d < inject_Z x / inject_Z y.
Proof.
  intros Hy H. apply Qlt_shift_div_l.
  - now apply inject_Z_pos.
  - unfold Qlt, Qmult, inject_Z. simpl. lia.
Qed.

Lemma frac_le (n : Z) (d : positive) (x y : Z) :
  (0 < y)%Z -> (x * Zpos d <= n * y)%Z -> inject_Z x / inject_Z y <= n # d.
Proof.
  intros Hy H. apply Qle_shift_div_r.
  - now apply inject_Z_pos.
  - unfold Qle, Qmult, inject_Z. simpl. lia.
Qed.

Lemma binade_spec (q : Q) :
  0 < q -> pow2 (binade q) <= q /\ q < pow2 (binade q + 1).
Proof.
  intros Hq. destruct q as [n d].
  assert (Hn : (0 < n)%Z) by (unfold Qlt in Hq; simpl in Hq; lia).
  pose proof (Z.log2_spec n Hn) as [A1 A2].
  pose proof (Z.log2_spec (Zpos d) eq_refl) as [B1 B2].
  pose proof (Z.log2_nonneg n) as A0. pose proof (Z.log2_nonneg (Zpos d)) as B0.
  set (a := Z.log2 n) in *. set (b := Z.log2 (Zpos d)) in *.
  assert (Pa : (0 < 2 ^ a)%Z) by (apply Z.pow_pos_nonneg; lia).
  assert (Pb : (0 < 2 ^ b)%Z) by (apply Z.pow_pos_nonneg; lia).
  assert (Sa : (2 ^ Z.succ a = 2 * 2 ^ a)%Z) by (apply Z.pow_succ_r; lia).
  assert (Sb : (2 ^ Z.succ b = 2 * 2 ^ b)%Z) by (apply Z.pow_succ_r; lia).
  assert (Up : n # d < pow2 (a - b + 1)).
  { replace (a - b + 1)%Z with (Z.succ a - b)%Z by lia.
    rewrite pow2_frac by lia. apply frac_lt; nia. }
  assert (Lo : pow2 (a - b - 1) <= n # d).
  { replace (a - b - 1)%Z with (a - Z.succ b)%Z by lia.
    rewrite pow2_frac by lia. apply frac_le; nia. }
  unfold binade. cbn [Qnum Qden]. fold a b.
  destruct (Qle_bool (pow2 (a - b)) (n # d)) eqn:E.
  - apply Qle_bool_iff in E. split; assumption.
  - split; [exact Lo|].
    replace (a - b - 1 + 1)%Z with (a - b)%Z by lia.
    apply Qnot_le_lt. intros C. apply Qle_bool_iff in C. congruence.
Qed.

Lemma binade_le (p q : Q) : 0 < p -> p <= q -> (binade p <= binade q)%Z.
Proof.
  intros Hp H. assert (Hq : 0 < q) by lra.
  destruct (binade_spec p Hp) as [P1 _]. destruct (binade_spec q Hq) as [_ Q2].
  assert (L : pow2 (binade p) < pow2 (binade q + 1)) by lra.
  apply pow2_lt_inv in L. lia.
Qed.

Lemma pow2_52 (e : Z) : pow2 e == inject_Z (2 ^ 52) * pow2 (e - 52).
Proof.
  replace e with (52 + (e - 52))%Z at 1 by lia. rewrite pow2_add.
  apply Qmult_comp; reflexivity.
Qed.

Lemma pow2_53 (e : Z) : pow2 (e + 1) == inject_Z (2 ^ 53) * pow2 (e - 52).
Proof.
  replace (e + 1)%Z with (53 + (e - 52))%Z by lia. rewrite pow2_add.
  apply Qmult_comp; reflexivity.
Qed.

Lemma round_pos_bounds (q : Q) :
  0 < q -> pow2 (binade q) <= round_pos q /\ round_pos q <= pow2 (binade q + 1).
Proof.
  intros Hq. destruct (binade_spec q Hq) as [L U].
  unfold round_pos. set (e := binade q) in *.
  pose proof (pow2_positive (e - 52)) as P. set (ulp := pow2 (e - 52)) in *.
  rewrite (pow2_52 e) in L |- *. rewrite (pow2_53 e) in U |- *. fold ulp in L, U |- *.
  split; apply Qmult_le_compat_r; try lra; rewrite <- Zle_Qle.
  - apply rne_ge. apply Qle_shift_div_l; [exact P | exact L].
  - apply rne_le_Z. apply Qle_shift_div_r; [exact P | lra].
Qed.

Lemma round_pos_le (p q : Q) : 0 < p -> p <= q -> round_pos p <= round_pos q.
Proof.
  intros Hp H. assert (Hq : 0 < q) by lra.
  pose proof (binade_le p q Hp H) as E.
  destruct (Z.eq_dec (binade p) (binade q)) as [Eq|Ne].
  - unfold round_pos. rewrite Eq.
    pose proof (pow2_positive (binade q - 52)) as P.
    apply Qmult_le_compat_r; [|lra]. rewrite <- Zle_Qle. apply rne_le.
    apply Qmult_le_compat_r; [exact H|]. apply Qlt_le_weak, Qinv_lt_0_compat, P.
  - destruct (round_pos_bounds p Hp) as [_ Up].
    destruct (round_pos_bounds q Hq) as [Lq _].
    assert (pow2 (binade p + 1) <= pow2 (binade q)) by (apply pow2_le; lia).
    lra.
Qed.

Lemma round_pos_pos (q : Q) : 0 < q -> 0 < round_pos q.
Proof.
  intros Hq. destruct (round_pos_bounds q Hq) as [L _].
  pose proof (pow2_positive (binade q)). lra.
Qed.

Lemma fl_zero (q : Q) : q == 0 -> fl q == 0.
Proof.
  intros H. unfold fl. rewrite Qred_correct. destruct q as [n d].
  unfold Qeq in H. simpl in H. assert (n = 0%Z) by lia. subst n. reflexivity.
Qed.

Lemma fl_pos (q : Q) : 0 < q -> fl q == round_pos q.
Proof.
  intros H. unfold fl. rewrite Qred_correct. destruct q as [[|n|n] d]; try reflexivity;
    unfold Qlt in H; simpl in H; lia.
Qed.

Lemma fl_neg (q : Q) : q < 0 -> fl q == - round_pos (- q).
Proof.
  intros H. unfold fl. rewrite Qred_correct. destruct q as [[|n|n] d]; try reflexivity;
    unfold Qlt in H; simpl in H; lia.
Qed.

Lemma fl_le (p q : Q) : p <= q -> fl p <= fl q.
Proof.
  intros H.
  destruct (Q_dec p 0) as [[Hp|Hp]|Hp]; destruct (Q_dec q 0) as [[Hq|Hq]|Hq];
    try (exfalso; lra).
  - rewrite (fl_neg p Hp), (fl_neg q Hq).
    assert (round_pos (- q) <= round_pos (- p)) by (apply round_pos_le; lra). lra.
  - rewrite (fl_neg p Hp), (fl_pos q Hq).
    assert (0 < round_pos (- p)) by (apply round_pos_pos; lra).
    pose proof (round_pos_pos q Hq). lra.
  - rewrite (fl_neg p Hp), (fl_zero q Hq).
    assert (0 < round_pos (- p)) by (apply round_pos_pos; lra). lra.
  - rewrite (fl_pos p Hp), (fl_pos q Hq). now apply round_pos_le.
  - rewrite (fl_zero p Hp), (fl_pos q Hq). pose proof (round_pos_pos q Hq). lra.
  - rewrite (fl_zero p Hp), (fl_zero q Hq). lra.
Qed.

Lemma fl_comp (p q : Q) : p == q -> fl p == fl q.
Proof.
  intros H. apply Qle_antisym; apply fl_le; rewrite H; apply Qle_refl.
Qed.

Lemma rne_error (x : Q) :
  x - (1 # 2) <= inject_Z (rne x) /\ inject_Z (rne x) <= x + (1 # 2).
Proof.
  pose proof (Qfloor_le x) as L. pose proof (Qlt_floor x) as U.
  rewrite inject_Z_plus in U. change (inject_Z 1) with 1 in U.
  unfold rne.
  destruct (Qcompare_spec (x - inject_Z (Qfloor x)) (1 # 2)) as [H|H|H];
    [destruct (Z.even (Qfloor x))| |]; rewrite ?inject_Z_plus;
    change (inject_Z 1) with 1; split; lra.
Qed.

Lemma round_pos_error (q : Q) :
  0 < q ->
  q - pow2 (binade q - 53) <= round_pos q /\ round_pos q <= q + pow2 (binade q - 53).
Proof.
  intros Hq. unfold round_pos.
  pose proof (pow2_positive (binade q - 52)) as P.
  assert (E : pow2 (binade q - 53) == (1 # 2) * pow2 (binade q - 52)).
  { replace (binade q - 53)%Z with (-1 + (binade q - 52))%Z by lia.
    rewrite pow2_add. apply Qmult_comp; reflexivity. }
  rewrite E. set (ulp := pow2 (binade q - 52)) in *.
  destruct (rne_error (q / ulp)) as [L U].
  assert (Q1 : q == q / ulp * ulp) by (field; lra).
  split.
  - setoid_replace (q - (1 # 2) * ulp) with ((q / ulp - (1 # 2)) * ulp)
      by (field; lra).
    apply Qmult_le_compat_r; lra.
  - setoid_replace (q + (1 # 2) * ulp) with ((q / ulp + (1 # 2)) * ulp)
      by (field; lra).
    apply Qmult_le_compat_r; lra.
Qed.

Lemma binade_lt (q : Q) (k : Z) : 0 < q -> q < pow2 k -> (binade q < k)%Z.
Proof.
  intros Hq H. destruct (binade_spec q Hq) as [L _].
  apply pow2_lt_inv. lra.
Qed.

(** Below [2^k], rounding moves a number by at most [2^(k-54)]. *)
Lemma fl_error (q : Q) (k : Z) :
  0 <= q -> q < pow2 k ->
  q - pow2 (k - 54) <= fl q /\ fl q <= q + pow2 (k - 54).
Proof.
  intros H0 Hk. pose proof (pow2_positive (k - 54)) as P.
  destruct (Q_dec q 0) as [[H|H]|H]; [lra| |].
  - rewrite (fl_pos q H). destruct (round_pos_error q H) as [L U].
    pose proof (binade_lt q k H Hk) as B.
    assert (pow2 (binade q - 53) <= pow2 (k - 54)) by (apply pow2_le; lia).
    lra.
  - rewrite (fl_zero q H). lra.
Qed.

(** The double nearest to one tenth. *)
Example fl_tenth : fl (1 # 10) = 3602879701896397 # 36028797018963968.
Proof. vm_compute. reflexivity. Qed.

Lemma div_le (a b c : Q) : 0 < c -> a <= b -> Js.div a c <= Js.div b c.
Proof.
  intros Hc H. apply fl_le. apply Qmult_le_compat_r; [exact H|].
  apply Qlt_le_weak, Qinv_lt_0_compat, Hc.
Qed.

Lemma mul_le (a b c : Q) : 0 <= c -> a <= b -> Js.mul a c <= Js.mul b c.
Proof. intros Hc H. apply fl_le. now apply Qmult_le_compat_r. Qed.

Lemma sub_le (a b c : Q) : b <= c -> Js.sub a c <= Js.sub a b.
Proof. intros H. apply fl_le. lra. Qed.

(** ** Arithmetic of [Math.round] and [Math.ceil] *)

Lemma Math_round_Z (z : Z) : Math_round (inject_Z z) = z.
Proof.
  unfold Math_round, Qfloor, inject_Z, Qplus; simpl.
  replace (z * 2 + 1)%Z with (1 + z * 2)%Z by lia.
  rewrite Z.div_add by lia. reflexivity.
Qed.

Lemma Math_round_le (x y : Q) : x <= y -> (Math_round x <= Math_round y)%Z.
Proof.
  intros H. apply Qfloor_resp_le. apply Qplus_le_compat; [exact H | apply Qle_refl].
Qed.

Lemma Math_round_between (x : Q) (lo hi : Z) :
  inject_Z lo <= x -> x <= inject_Z hi -> (lo <= Math_round x <= hi)%Z.
Proof.
  intros H1 H2. split.
  - rewrite <- (Math_round_Z lo). now apply Math_round_le.
  - rewrite <- (Math_round_Z hi). now apply Math_round_le.
Qed.

Lemma Math_round_comp (x y : Q) : x == y -> Math_round x = Math_round y.
Proof. intros H. unfold Math_round. now rewrite H. Qed.

Lemma Math_ceil_le (x y : Q) : x <= y -> (Math_ceil x <= Math_ceil y)%Z.
Proof. apply Qceiling_resp_le. Qed.

Lemma fl_bounds (q lo hi : Q) :
  fl lo == lo -> fl hi == hi -> lo <= q -> q <= hi -> lo <= fl q /\ fl q <= hi.
Proof.
  intros El Eh Hl Hh. split; [rewrite <- El | rewrite <- Eh]; now apply fl_le.
Qed.

Lemma inject_Z_div_le (a b c : Z) :
  (0 < c)%Z -> (a <= b)%Z ->
  Js.div (inject_Z a) (inject_Z c) <= Js.div (inject_Z b) (inject_Z c).
Proof.
  intros Hc Hab. apply div_le; [now apply inject_Z_pos | now rewrite <- Zle_Qle].
Qed.

Lemma exact_ratio_bounds (a b : Z) :
  (0 <= a <= b)%Z -> (0 < b)%Z ->
  0 <= inject_Z a / inject_Z b /\ inject_Z a / inject_Z b <= 1.
Proof.
  intros Hab Hb. pose proof (inject_Z_pos b Hb) as Hb'. split.
  - apply Qle_shift_div_l; [exact Hb'|]. rewrite Qmult_0_l.
    replace 0 with (inject_Z 0) by reflexivity. rewrite <- Zle_Qle. lia.
  - apply Qle_shift_div_r; [exact Hb'|]. rewrite Qmult_1_l.
    rewrite <- Zle_Qle. lia.
Qed.

Lemma ratio_bounds (a b : Z) :
  (0 <= a <= b)%Z -> (0 < b)%Z ->
  0 <= Js.div (inject_Z a) (inject_Z b) /\ Js.div (inject_Z a) (inject_Z b) <= 1.
Proof.
  intros Hab Hb. destruct (exact_ratio_bounds a b Hab Hb).
  apply fl_bounds; try reflexivity; assumption.
Qed.

(** ** Callbacks that may throw *)

Lemma error_unique (e : JsError) : e = TypeError.
Proof. now destruct e. Qed.

Lemma filterM_returns {A} (f : A -> completion bool) (l : list A) :
  forallb (fun x => returns (f x)) l = true ->
  filterM f l = Normal (filter (fun x => value_of (f x)) l).
Proof.
  induction l as [|x l IH]; simpl; intros H; [reflexivity|].
  apply andb_true_iff in H as [Hx Hl].
  destruct (f x) as [b|e]; [|discriminate]. simpl.
  rewrite (IH Hl). reflexivity.
Qed.

Lemma filterM_throws {A} (f : A -> completion bool) (l : list A) :
  forallb (fun x => returns (f x)) l = false ->
  filterM f l = Throw TypeError.
Proof.
  induction l as [|x l IH]; simpl; intros H; [discriminate|].
  destruct (f x) as [b|e]; simpl in *.
  - rewrite (IH H). reflexivity.
  - now rewrite (error_unique e).
Qed.

Lemma filterM_Normal_inv {A} (f : A -> completion bool) (l r : list A) :
  filterM f l = Normal r ->
  forallb (fun x => returns (f x)) l = true /\
  r = filter (fun x => value_of (f x)) l.
Proof.
  intros H.
  destruct (forallb (fun x => returns (f x)) l) eqn:E.
  - rewrite (filterM_returns _ _ E) in H. now inversion H.
  - rewrite (filterM_throws _ _ E) in H. discriminate.
Qed.

Lemma lower_includes_any_string (m : jsstring) (keys : list jsstring) :
  lower_includes_any (JsString m) keys
  = Normal (existsb (fun k => includes (toLowerCase m) k) keys).
Proof.
  induction keys as [|k keys IH]; [reflexivity|].
  destruct keys as [|k' keys].
  - simpl. now rewrite orb_false_r.
  - change (lower_includes_any (JsString m) (k :: k' :: keys))
      with (orM (call_lower_includes (JsString m) k)
                (lower_includes_any (JsString m) (k' :: keys))).
    rewrite IH. simpl.
    destruct (includes (toLowerCase m) k); reflexivity.
Qed.

Lemma lower_includes_any_throws (v : JsValue) (k : jsstring) (keys : list jsstring) :
  is_string v = false -> lower_includes_any v (k :: keys) = Throw TypeError.
Proof.
  intros H. destruct v; try discriminate; destruct keys; reflexivity.
Qed.

Lemma is_discovery_question_string (msg : Turn) (m : jsstring) :
  message msg = JsString m ->
  is_discovery_question msg = Normal (Spec.asks discoveryKeywords m).
Proof.
  intros H. unfold is_discovery_question. rewrite H, lower_includes_any_string.
  unfold Spec.asks, andM, call_includes, bind.
  destruct (includes m (lit "?")); reflexivity.
Qed.

Lemma is_discovery_question_returns (msg : Turn) :
  returns (is_discovery_question msg) = is_string (message msg).
Proof.
  destruct (message msg) as [| |m] eqn:E.
  - unfold is_discovery_question. now rewrite E.
  - unfold is_discovery_question. now rewrite E.
  - now rewrite (is_discovery_question_string _ _ E).
Qed.

Lemma lower_includes_any_returns (v : JsValue) (k : jsstring) (keys : list jsstring) :
  returns (lower_includes_any v (k :: keys)) = is_string v.
Proof.
  destruct (is_string v) eqn:E.
  - destruct v; try discriminate. now rewrite lower_includes_any_string.
  - now rewrite lower_includes_any_throws.
Qed.

(** ** What [analyzeSession] returns *)

Lemma len_nonneg {A} (l : list A) : (0 <= len l)%Z.
Proof. unfold len. lia. Qed.

Lemma len_filter_le {A} (f : A -> bool) (l : list A) : (len (filter f l) <= len l)%Z.
Proof. unfold len. pose proof (filter_length_le f l). lia. Qed.

Lemma analyzeSession_default (t : option jsstring) (h : list Turn) :
  falsy t && (length h =? 0)%nat = true ->
  analyzeSession t h = Normal default_record.
Proof. intros H. unfold analyzeSession. now rewrite H. Qed.

Lemma forallb_pointwise {A} (f g : A -> bool) (l : list A) :
  (forall x, f x = g x) -> forallb f l = forallb g l.
Proof.
  intros H. induction l as [|x l IH]; simpl; [reflexivity|]. now rewrite H, IH.
Qed.

Lemma well_formed_filters (h : list Turn) :
  well_formed h = true ->
  forallb (fun x => returns (is_discovery_question x)) (filter is_user h) = true /\
  forallb (fun x => returns (lower_includes_any (message x) objectionPhrases))
          (filter is_user h) = true /\
  forallb (fun x => returns (lower_includes_any (message x) businessValueKeywords))
          (filter is_user h) = true.
Proof.
  unfold well_formed. intros H. repeat split.
  - erewrite forallb_pointwise; [exact H|]. intros x. apply is_discovery_question_returns.
  - erewrite forallb_pointwise; [exact H|]. intros x. apply lower_includes_any_returns.
  - erewrite forallb_pointwise; [exact H|]. intros x. apply lower_includes_any_returns.
Qed.

Lemma analyzeSession_returns (t : option jsstring) (h : list Turn) :
  well_formed h = true -> exists r, analyzeSession t h = Normal r.
Proof.
  intros H. unfold analyzeSession.
  destruct (falsy t && (length h =? 0)%nat); [eexists; reflexivity|].
  destruct (well_formed_filters h H) as (H1 & H2 & H3).
  cbv zeta.
  rewrite (filterM_returns _ _ H1), (filterM_returns _ _ H2), (filterM_returns _ _ H3).
  eexists. reflexivity.
Qed.

Lemma analyzeSession_throws (t : option jsstring) (h : list Turn) :
  well_formed h = false -> analyzeSession t h = Throw TypeError.
Proof.
  intros H. unfold analyzeSession.
  assert (Hh : (length h =? 0)%nat = false).
  { destruct h; [discriminate H | reflexivity]. }
  rewrite Hh, andb_false_r. cbv zeta.
  rewrite filterM_throws; [reflexivity|].
  unfold well_formed in H. erewrite forallb_pointwise; [exact H|].
  intros x. apply is_discovery_question_returns.
Qed.

Lemma discovery_filter_count (h : list Turn) :
  forallb (fun x => returns (is_discovery_question x)) (filter is_user h) = true ->
  len (filter (fun x => value_of (is_discovery_question x)) (filter is_user h))
  = Spec.discovery_count discoveryKeywords h.
Proof.
  intros H. unfold Spec.discovery_count. f_equal. apply filter_ext_in.
  intros x Hx. destruct (message x) as [| |m] eqn:E.
  - rewrite forallb_forall in H. specialize (H x Hx).
    rewrite is_discovery_question_returns, E in H. discriminate.
  - rewrite forallb_forall in H. specialize (H x Hx).
    rewrite is_discovery_question_returns, E in H. discriminate.
  - now rewrite (is_discovery_question_string _ _ E).
Qed.

Lemma Normal_inj {A} (a b : A) : Normal a = Normal b -> a = b.
Proof. intros H. now inversion H. Qed.

Lemma analyzeSession_analysed (t : option jsstring) (h : list Turn) (r : MetricsRecord) :
  analyzeSession t h = Normal r ->
  falsy t && (length h =? 0)%nat = false ->
  analysed t h r.
Proof.
  intros H Hnd. unfold analyzeSession in H. rewrite Hnd in H. cbv zeta in H.
  destruct (filterM is_discovery_question (filter is_user h)) as [dq|] eqn:Edq;
    [|discriminate H].
  destruct (filterM (fun msg => lower_includes_any (message msg) objectionPhrases)
                    (filter is_user h)) as [oh|] eqn:Eoh; [|discriminate H].
  destruct (filterM (fun msg => lower_includes_any (message msg) businessValueKeywords)
                    (filter is_user h)) as [bv|] eqn:Ebv; [|discriminate H].
  unfold bind in H. apply Normal_inj in H. subst r.
  apply filterM_Normal_inv in Edq as [Hdq ->].
  rewrite (discovery_filter_count _ Hdq).
  constructor; cbn [wordCount fillerWordCount confidenceScore talkTimeRatio
                    conversationLength discovery_questions_count discovery_score
                    google_ads_concepts_used product_knowledge_score
                    objection_handling_count objection_handling_score
                    business_value_mentions business_value_score
                    overall_effectiveness_score]; try reflexivity.
  - eexists; split; reflexivity.
  - eexists; repeat split; [apply len_nonneg].
  - eexists; repeat split; [apply len_nonneg].
Qed.

(** Either the default object, or an object built by the analysis. *)
Lemma analyzeSession_cases (t : option jsstring) (h : list Turn) (r : MetricsRecord) :
  analyzeSession t h = Normal r ->
  (falsy t = true /\ h = [] /\ r = default_record) \/
  ((falsy t = false \/ h <> []) /\ analysed t h r).
Proof.
  intros H. destruct (falsy t && (length h =? 0)%nat) eqn:E.
  - left. rewrite (analyzeSession_default _ _ E) in H. apply Normal_inj in H. subst r.
    apply andb_true_iff in E as [E1 E2]. destruct h; [auto | discriminate].
  - right. split; [|now apply analyzeSession_analysed].
    apply andb_false_iff in E as [E|E]; [now left|right].
    destruct h; [discriminate | congruence].
Qed.

(** ** Bounds of the scores *)

Lemma confidence_raw_bounds (f w : Z) :
  inject_Z 20 <= confidence_raw f w /\ confidence_raw f w <= inject_Z 100.
Proof.
  unfold confidence_raw. split.
  - apply Q.le_max_l.
  - apply Q.max_lub; [discriminate | apply Q.le_min_l].
Qed.

Lemma fillerRatio_bounds (f w : Z) :
  (0 <= f <= w)%Z -> 0 <= fillerRatio f w /\ fillerRatio f w <= 1.
Proof.
  intros H. unfold fillerRatio. destruct (0 <? w)%Z eqn:E.
  - apply ratio_bounds; [exact H | now apply Z.ltb_lt].
  - split; discriminate.
Qed.

Lemma talk_ratio_bounds (u n : Z) :
  (0 <= u <= n)%Z -> (0 < n)%Z ->
  (0 <= Math_round (Js.mul (Js.div (inject_Z u) (inject_Z n)) 100) <= 100)%Z.
Proof.
  intros Hu Hn. destruct (ratio_bounds _ _ Hu Hn) as [H0 H1].
  destruct (fl_bounds (Js.div (inject_Z u) (inject_Z n) * 100) 0 100) as [A B];
    try reflexivity; try lra.
  apply Math_round_between; assumption.
Qed.

Lemma clamp_1_5 (x : Z) : (1 <= Z.min 5 (Z.max 1 x) <= 5)%Z.
Proof. lia. Qed.

Lemma analysed_bounds (t : option jsstring) (h : list Turn) (r : MetricsRecord) :
  analysed t h r ->
  (20 <= confidenceScore r <= 100)%Z /\
  (0 <= talkTimeRatio r <= 100)%Z /\
  (1 <= discovery_score r <= 5)%Z /\
  (1 <= product_knowledge_score r <= 5)%Z /\
  (1 <= objection_handling_score r <= 5)%Z /\
  (1 <= business_value_score r <= 5)%Z /\
  (1 <= overall_effectiveness_score r <= 5)%Z.
Proof.
  intros [Hw Hf Hc Ht _ _ Hd (cs & _ & Hp) (no & _ & _ & Ho) (nb & _ & _ & Hb) Hov].
  assert (C : (20 <= confidenceScore r <= 100)%Z).
  { rewrite Hc. apply Math_round_between; apply confidence_raw_bounds. }
  assert (T : (0 <= talkTimeRatio r <= 100)%Z).
  { rewrite Ht. destruct (0 <? len h)%Z eqn:E; [|lia].
    apply talk_ratio_bounds; [|now apply Z.ltb_lt].
    split; [apply len_nonneg | apply len_filter_le]. }
  rewrite Hov, Hd, Hp, Ho, Hb.
  unfold overall_effectiveness_score_of, discovery_score_of,
    product_knowledge_score_of, objection_handling_score_of,
    business_value_score_of.
  repeat split; try apply C; try apply T; try apply clamp_1_5.
Qed.

Lemma sample_record_eq : analyzeSession None sample_history = Normal sample_record.
Proof. vm_compute. reflexivity. Qed.

(** C2. [analyzeSession(null, [])] and [analyzeSession('', [])] return the
    default object: no words, no fillers, confidence 50, talk-time ratio 50,
    average sentence length 0, conversation length 0, and each of the five
    1-5 scores equal to 2. *)
Theorem default_on_empty_input :
  analyzeSession None [] = Normal default_record /\
  analyzeSession (Some []) [] = Normal default_record /\
  wordCount default_record = 0%Z /\
  fillerWordCount default_record = 0%Z /\
  confidenceScore default_record = 50%Z /\
  talkTimeRatio default_record = 50%Z /\
  averageSentenceLength default_record = 0 /\
  conversationLength default_record = 0%Z /\
  discovery_score default_record = 2%Z /\
  product_knowledge_score default_record = 2%Z /\
  objection_handling_score default_record = 2%Z /\
  business_value_score default_record = 2%Z /\
  overall_effectiveness_score default_record = 2%Z.
Proof. repeat split. Qed.

(** C3. Whatever the transcript and the history, the object [analyzeSession]
    returns has its confidence score in [[20,100]], its talk-time ratio in
    [[0,100]] and each of its five 1-5 scores in [[1,5]]. *)
Theorem scores_bounded (t : option jsstring) (h : list Turn) (r : MetricsRecord) :
  analyzeSession t h = Normal r ->
  (20 <= confidenceScore r <= 100)%Z /\
  (0 <= talkTimeRatio r <= 100)%Z /\
  (1 <= discovery_score r <= 5)%Z /\
  (1 <= product_knowledge_score r <= 5)%Z /\
  (1 <= objection_handling_score r <= 5)%Z /\
  (1 <= business_value_score r <= 5)%Z /\
  (1 <= overall_effectiveness_score r <= 5)%Z.
Proof.
  intros H. destruct (analyzeSession_cases _ _ _ H) as [(_ & _ & ->) | [_ Ha]].
  - cbn. lia.
  - exact (analysed_bounds _ _ _ Ha).
Qed.

Lemma scores_bounded_witness :
  (20 <= confidenceScore sample_record <= 100)%Z /\
  (0 <= talkTimeRatio sample_record <= 100)%Z /\
  (1 <= discovery_score sample_record <= 5)%Z /\
  (1 <= product_knowledge_score sample_record <= 5)%Z /\
  (1 <= objection_handling_score sample_record <= 5)%Z /\
  (1 <= business_value_score sample_record <= 5)%Z /\
  (1 <= overall_effectiveness_score sample_record <= 5)%Z.
Proof.
  apply (scores_bounded None sample_history sample_record).
  vm_compute. reflexivity.
Defined.

(** C10. In the object [analyzeSession] returns, the filler count is at most
    the word count, so the filler ratio of the confidence formula lies in
    [[0,1]]. *)
Theorem fillers_at_most_words (t : option jsstring) (h : list Turn) (r : MetricsRecord) :
  analyzeSession t h = Normal r ->
  (0 <= fillerWordCount r <= wordCount r)%Z /\
  0 <= fillerRatio (fillerWordCount r) (wordCount r) /\
  fillerRatio (fillerWordCount r) (wordCount r) <= 1.
Proof.
  intros H.
  assert (Hfw : (0 <= fillerWordCount r <= wordCount r)%Z).
  { destruct (analyzeSession_cases _ _ _ H) as [(_ & _ & ->) | [_ Ha]].
    - cbn. lia.
    - rewrite (an_fillers _ _ _ Ha), (an_words _ _ _ Ha).
      split; [apply len_nonneg | apply len_filter_le]. }
  split; [exact Hfw | exact (fillerRatio_bounds _ _ Hfw)].
Qed.

Lemma fillers_at_most_words_witness :
  (0 <= fillerWordCount sample_record <= wordCount sample_record)%Z /\
  0 <= fillerRatio (fillerWordCount sample_record) (wordCount sample_record) /\
  fillerRatio (fillerWordCount sample_record) (wordCount sample_record) <= 1.
Proof.
  apply (fillers_at_most_words None sample_history sample_record).
  vm_compute. reflexivity.
Defined.

(** ** Histories without trainee turns *)

Lemma analyzeSession_history_only (t t' : option jsstring) (h : list Turn) :
  h <> [] -> analyzeSession t h = analyzeSession t' h.
Proof.
  intros Hh. destruct h as [|a h]; [congruence|].
  assert (E0 : (length (a :: h) =? 0)%nat = false) by reflexivity.
  assert (E1 : (0 <? length (a :: h))%nat = true) by reflexivity.
  unfold analyzeSession, textToAnalyze. rewrite E0, E1, !andb_false_r. reflexivity.
Qed.

Lemma turns_without_trainee (t : option jsstring) (h : list Turn) :
  h <> [] -> filter is_user h = [] ->
  exists r,
    analyzeSession t h = Normal r /\
    (forall t', analyzeSession t' h = Normal r) /\
    textToAnalyze t h = [] /\
    wordCount r = 0%Z /\
    confidenceScore r = 100%Z /\
    talkTimeRatio r = 0%Z.
Proof.
  intros Hh Hu.
  assert (Hwf : well_formed h = true) by (unfold well_formed; now rewrite Hu).
  destruct (analyzeSession_returns t h Hwf) as [r Hr].
  assert (Htext : textToAnalyze t h = []).
  { unfold textToAnalyze. rewrite Hu. destruct h; [congruence | reflexivity]. }
  destruct (analyzeSession_cases _ _ _ Hr) as [(_ & -> & _) | [_ Ha]]; [congruence|].
  destruct Ha as [Hw Hf Hc Ht _ _ _ _ _ _ _].
  rewrite Htext in Hw, Hf. cbn in Hw, Hf.
  exists r. repeat split; try assumption.
  - intros t'. now rewrite (analyzeSession_history_only t' t h Hh).
  - rewrite Hc, Hf, Hw. reflexivity.
  - rewrite Ht, Hu. destruct (0 <? len h)%Z eqn:E.
    + rewrite (Math_round_comp _ 0); [reflexivity|].
      apply fl_zero. rewrite (fl_zero (inject_Z 0 / inject_Z (len h))).
      * ring.
      * unfold Qdiv. ring.
    + destruct h; [congruence | discriminate E].
Qed.

(** ** The 1-5 scores as functions of their counts *)

Lemma discovery_score_of_saturating : saturating discovery_score_of.
Proof.
  unfold saturating, discovery_score_of. repeat split.
  - intros n m H.
    assert (Math_ceil (Js.div (inject_Z n) 2) <= Math_ceil (Js.div (inject_Z m) 2))%Z.
    { apply Math_ceil_le, div_le; [reflexivity | now rewrite <- Zle_Qle]. }
    lia.
  - intros n. lia.
Qed.

Lemma step_score_saturating (k : Z) :
  (0 <= k)%Z ->
  saturating (fun c => Z.min 5 (Z.max 1 (if (0 <? c)%Z then c + k else 1)))%Z.
Proof.
  intros Hk. unfold saturating. repeat split.
  - intros n m H. destruct (0 <? n)%Z eqn:En, (0 <? m)%Z eqn:Em; lia.
  - intros n. lia.
Qed.

(** C6. Each of the four maps from a count to its 1-5 score (discovery,
    product knowledge, objection handling, business value) is non-decreasing
    in the count, never exceeds 5 and sends the count 0 to the floor 1; and
    these maps are the ones [analyzeSession] computes its scores with, from
    the counts it reports. *)
Theorem sub_scores_saturating :
  saturating discovery_score_of /\
  saturating product_knowledge_score_of /\
  saturating objection_handling_score_of /\
  saturating business_value_score_of /\
  forall t h r dq cs oh bv,
    analyzeSession t h = Normal r ->
    discovery_questions_count r = Some dq ->
    google_ads_concepts_used r = Some cs ->
    objection_handling_count r = Some oh ->
    business_value_mentions r = Some bv ->
    discovery_score r = discovery_score_of dq /\
    product_knowledge_score r = product_knowledge_score_of (len cs) /\
    objection_handling_score r = objection_handling_score_of oh /\
    business_value_score r = business_value_score_of bv.
Proof.
  split; [exact discovery_score_of_saturating|].
  split; [exact (step_score_saturating 1 ltac:(lia))|].
  split; [exact (step_score_saturating 2 ltac:(lia))|].
  split; [exact (step_score_saturating 2 ltac:(lia))|].
  intros t h r dq cs oh bv H Hdq Hcs Hoh Hbv.
  destruct (analyzeSession_cases _ _ _ H) as [(_ & _ & ->) | [_ Ha]];
    [discriminate Hdq|].
  destruct Ha as [_ _ _ _ _ Edq Hd (cs' & Ecs & Hp) (no & Eoh & _ & Ho)
                    (nb & Ebv & _ & Hb) _].
  rewrite Hdq in Edq. rewrite Hcs in Ecs. rewrite Hoh in Eoh. rewrite Hbv in Ebv.
  inversion Edq; inversion Ecs; inversion Eoh; inversion Ebv; subst.
  repeat split; assumption.
Qed.

Lemma sub_scores_saturating_witness :
  (discovery_score_of 1 <= discovery_score_of 3)%Z /\
  discovery_score sample_record = discovery_score_of 1.
Proof.
  split.
  - apply (proj1 (proj1 sub_scores_saturating)). lia.
  - apply (proj2 (proj2 (proj2 (proj2 sub_scores_saturating)))
             None sample_history sample_record 1%Z [lit "budget"] 0%Z 0%Z);
      vm_compute; reflexivity.
Defined.

(** ** Confidence and filler words *)

Lemma Math_round_max (a : Z) (y : Q) :
  Math_round (Qmax (inject_Z a) y) = Z.max a (Math_round y).
Proof.
  destruct (Q.max_spec (inject_Z a) y) as [[H E] | [H E]];
    rewrite (Math_round_comp _ _ E).
  - apply Qlt_le_weak, Math_round_le in H. rewrite Math_round_Z in H. lia.
  - apply Math_round_le in H. rewrite Math_round_Z in *. lia.
Qed.

Lemma Math_round_min (a : Z) (y : Q) :
  Math_round (Qmin (inject_Z a) y) = Z.min a (Math_round y).
Proof.
  destruct (Q.min_spec (inject_Z a) y) as [[H E] | [H E]];
    rewrite (Math_round_comp _ _ E).
  - apply Qlt_le_weak, Math_round_le in H. rewrite Math_round_Z in *. lia.
  - apply Math_round_le in H. rewrite Math_round_Z in H. lia.
Qed.

Lemma confidence_raw_spec (f w : Z) :
  (0 <= w)%Z -> Math_round (confidence_raw f w) = Spec.confidence_ratio_first f w.
Proof.
  intros Hw. unfold confidence_raw, Spec.confidence_ratio_first, Spec.clamp, fillerRatio.
  change 20 with (inject_Z 20). change 100 with (inject_Z 100) at 1.
  rewrite Math_round_max, Math_round_min.
  replace (w =? 0)%Z with (negb (0 <? w)%Z) by lia.
  destruct (0 <? w)%Z; reflexivity.
Qed.

Lemma confidence_raw_antitone (f1 f2 w : Z) :
  (f1 <= f2)%Z -> confidence_raw f2 w <= confidence_raw f1 w.
Proof.
  intros H. unfold confidence_raw, fillerRatio.
  apply Q.max_le_compat_l, Q.min_le_compat_l, sub_le, mul_le; [discriminate|].
  destruct (0 <? w)%Z eqn:E; [|apply Qle_refl].
  apply Z.ltb_lt in E. now apply inject_Z_div_le.
Qed.

Lemma analysed_words_nonneg (t : option jsstring) (h : list Turn) (r : MetricsRecord) :
  analyzeSession t h = Normal r -> (0 <= fillerWordCount r <= wordCount r)%Z.
Proof.
  intros H. destruct (analyzeSession_cases _ _ _ H) as [(_ & _ & ->) | [_ Ha]].
  - cbn. lia.
  - rewrite (an_fillers _ _ _ Ha), (an_words _ _ _ Ha).
    split; [apply len_nonneg | apply len_filter_le].
Qed.

Lemma confidence_of_counts (t : option jsstring) (h : list Turn) (r : MetricsRecord) :
  analyzeSession t h = Normal r -> (0 < wordCount r)%Z ->
  confidenceScore r = Math_round (confidence_raw (fillerWordCount r) (wordCount r)).
Proof.
  intros H Hw. destruct (analyzeSession_cases _ _ _ H) as [(_ & _ & ->) | [_ Ha]].
  - cbn in Hw. lia.
  - apply (an_confidence _ _ _ Ha).
Qed.

(** ** Discovery questions *)

(** C5, as the specification states it, fails: it lists [measure] and
    [success] among the keywords, and [analyzeSession] does not look for
    them.  The one trainee turn ["Any success?"] is a discovery question by
    the specification's list, and [analyzeSession] counts none.  Nor is the
    list that of [analyzeGoogleAdsPerformance], which has no how, what, why,
    when, where: of three such questions it counts none. *)
Lemma discovery_keywords_counterexample :
  Spec.discovery_count Spec.discoveryKeywords [user "Any success?"] = 1%Z /\
  (exists r, analyzeSession None [user "Any success?"] = Normal r /\
             discovery_questions_count r = Some 0%Z) /\
  Spec.discovery_count Spec.discoveryKeywords wh_questions = 3%Z /\
  Spec.discovery_count GoogleAds.discoveryKeywords wh_questions = 0%Z.
Proof.
  split; [reflexivity|]. split; [|split; reflexivity].
  eexists. split; vm_compute; reflexivity.
Qed.

(** C5, amended.  Whenever the analysis runs (the transcript or the history
    is not empty), the discovery-question count of [analyzeSession] is the
    number of trainee turns whose message contains [?] and, whatever the
    case, one of goal, currently, budget, target, competition, challenge,
    how, what, why, when, where.  A history whose single trainee turn is
    ["What is your current budget for this?"] has count 1 and a discovery
    score of at least 2. *)
Theorem discovery_question_count :
  (forall t h r,
     analyzeSession t h = Normal r ->
     falsy t = false \/ h <> [] ->
     discovery_questions_count r = Some (Spec.discovery_count discoveryKeywords h)) /\
  (forall t h r turn,
     analyzeSession t h = Normal r ->
     filter is_user h = [turn] ->
     message turn = JsString (lit "What is your current budget for this?") ->
     discovery_questions_count r = Some 1%Z /\ (2 <= discovery_score r)%Z).
Proof.
  split.
  - intros t h r H Hnd.
    destruct (analyzeSession_cases _ _ _ H) as [(Ht & -> & _) | [_ Ha]].
    + destruct Hnd; congruence.
    + apply (an_dq _ _ _ Ha).
  - intros t h r turn H Hu Hm.
    destruct (analyzeSession_cases _ _ _ H) as [(_ & -> & _) | [_ Ha]];
      [discriminate Hu|].
    assert (E : Spec.discovery_count discoveryKeywords h = 1%Z).
    { unfold Spec.discovery_count. rewrite Hu. cbn [filter]. rewrite Hm.
      vm_compute. reflexivity. }
    rewrite (an_dq _ _ _ Ha), (an_discovery _ _ _ Ha), E.
    split; [reflexivity | vm_compute; discriminate].
Qed.

Lemma discovery_question_count_witness :
  discovery_questions_count sample_record = Some 1%Z /\
  (2 <= discovery_score sample_record)%Z.
Proof.
  apply (proj2 discovery_question_count None sample_history sample_record
               (user "What is your current budget for this?"));
    vm_compute; reflexivity.
Defined.

(** [analyzeGoogleAdsPerformance] is where [measure] and [success] are
    looked for; it does not look for how, what, why, when, where. *)
Lemma google_ads_discovery_score (h : list Turn) (p : GoogleAds.Performance) :
  GoogleAds.analyzeGoogleAdsPerformance h = Normal p ->
  GoogleAds.discovery_score p
  = Z.min 5 (Z.max 1 (Math_ceil
      (Js.div (inject_Z (Spec.discovery_count GoogleAds.discoveryKeywords h)) 2))).
Proof.
  intros H. unfold GoogleAds.analyzeGoogleAdsPerformance in H. cbv zeta in H.
  match type of H with
  | bind (filterM ?f ?l) _ = _ => destruct (filterM f l) as [dq|] eqn:Edq
  end; [|discriminate H].
  match type of H with
  | bind _ (fun _ => bind (filterM ?f ?l) _) = _ =>
      destruct (filterM f l) as [oh|] eqn:Eoh
  end; [|discriminate H].
  match type of H with
  | bind _ (fun _ => bind _ (fun _ => bind (filterM ?f ?l) _)) = _ =>
      destruct (filterM f l) as [bv|] eqn:Ebv
  end; [|discriminate H].
  unfold bind in H. apply Normal_inj in H. subst p.
  cbn [GoogleAds.discovery_score].
  apply filterM_Normal_inv in Edq as [Hdq ->].
  unfold Spec.discovery_count.
  erewrite filter_ext_in; [reflexivity|].
  intros x Hx. rewrite forallb_forall in Hdq. specialize (Hdq x Hx).
  destruct (message x) as [| |m]; try discriminate Hdq.
  rewrite lower_includes_any_string. unfold Spec.asks, andM, call_includes, bind.
  destruct (includes m (lit "?")); reflexivity.
Qed.

(** ** Talk-time ratio *)

Lemma Math_round_close (a b : Q) :
  b - (1 # 2) <= a -> a <= b + (1 # 2) ->
  (Math_round b - 1 <= Math_round a <= Math_round b + 1)%Z.
Proof.
  intros L U. unfold Math_round.
  pose proof (Qfloor_le (b + (1 # 2))) as Lb. pose proof (Qlt_floor (b + (1 # 2))) as Ub.
  pose proof (Qfloor_le (a + (1 # 2))) as La. pose proof (Qlt_floor (a + (1 # 2))) as Ua.
  rewrite inject_Z_plus in Ua, Ub. change (inject_Z 1) with 1 in Ua, Ub.
  set (m := Qfloor (b + (1 # 2))) in *. set (k := Qfloor (a + (1 # 2))) in *.
  assert (H1 : inject_Z k < inject_Z (m + 2)).
  { rewrite inject_Z_plus. change (inject_Z 2) with 2. lra. }
  assert (H2 : inject_Z m < inject_Z (k + 2)).
  { rewrite inject_Z_plus. change (inject_Z 2) with 2. lra. }
  rewrite <- Zlt_Qlt in H1, H2. lia.
Qed.






(** ** Failures of the analysis *)

(** ** Redaction *)

Lemma is_bracket_safe (f : ascii -> bool) (c : ascii) :
  negb (f "["%char) && negb (f "]"%char) = true -> is_bracket c = true -> f c = false.
Proof.
  intros H Hc. apply andb_true_iff in H as [H1 H2].
  apply negb_true_iff in H1, H2. unfold is_bracket in Hc.
  apply orb_true_iff in Hc as [Hc|Hc]; apply Ascii.eqb_eq in Hc; now subst.
Qed.

Lemma star_self (f : ascii -> bool) (s : jsstring) (p : option ascii) :
  In (p, s) (star f p s).
Proof.
  destruct s as [|c s]; simpl; [now left|].
  destruct (f c); [apply in_or_app; right|]; now left.
Qed.

Lemma star_suffix (f : ascii -> bool) (s : jsstring) :
  forall p y, In y (star f p s) -> exists w, s = w ++ snd y /\ fst y = after w p.
Proof.
  induction s as [|c s IH]; intros p y H; simpl in H.
  - destruct H as [<-|[]]. now exists [].
  - destruct (f c).
    + apply in_app_or in H as [H|[<-|[]]]; [|now exists []].
      destruct (IH _ _ H) as (w & E1 & E2).
      exists (c :: w). simpl. split; [now f_equal | exact E2].
    + destruct H as [<-|[]]. now exists [].
Qed.

Lemma run_suffix (r : regex) :
  forall st y, In y (run r st) ->
               exists w, snd st = w ++ snd y /\ fst y = after w (fst st).
Proof.
  induction r as [|f|r1 IH1 r2 IH2|r1 IH1 r2 IH2|f|]; intros [p s] y H; simpl in *.
  - destruct H as [<-|[]]. now exists [].
  - destruct s as [|c s]; [easy|]. destruct (f c); [|easy].
    destruct H as [<-|[]]. now exists [c].
  - apply in_flat_map in H as (m & Hm & Hy).
    destruct (IH1 _ _ Hm) as (w1 & E1 & F1). destruct (IH2 _ _ Hy) as (w2 & E2 & F2).
    exists (w1 ++ w2). simpl in *. split.
    + now rewrite <- app_assoc, <- E2.
    + unfold after in *. now rewrite fold_left_app, <- F1.
  - apply in_app_or in H as [H|H]; [exact (IH1 _ _ H) | exact (IH2 _ _ H)].
  - exact (star_suffix f s p y H).
  - destruct (at_boundary p s); [|easy]. destruct H as [<-|[]]. now exists [].
Qed.

Lemma run_length (r : regex) (st y : state) :
  In y (run r st) -> (length (snd y) <= length (snd st))%nat.
Proof.
  intros H. destruct (run_suffix r st y H) as (w & E & _).
  rewrite E, length_app. lia.
Qed.

Lemma run_consuming (r : regex) :
  consuming r = true ->
  forall st y, In y (run r st) -> (length (snd y) < length (snd st))%nat.
Proof.
  induction r as [|f|r1 IH1 r2 IH2|r1 IH1 r2 IH2|f|]; intros C [p s] y H;
    simpl in *; try discriminate.
  - destruct s as [|c s]; [easy|]. destruct (f c); [|easy].
    destruct H as [<-|[]]. simpl. lia.
  - apply in_flat_map in H as (m & Hm & Hy).
    pose proof (run_length _ _ _ Hm) as L1. pose proof (run_length _ _ _ Hy) as L2.
    simpl in *. apply orb_true_iff in C as [C|C].
    + specialize (IH1 C _ _ Hm). simpl in IH1. lia.
    + specialize (IH2 C _ _ Hy). lia.
  - apply andb_true_iff in C as [C1 C2].
    apply in_app_or in H as [H|H]; [exact (IH1 C1 _ _ H) | exact (IH2 C2 _ _ H)].
Qed.

Lemma run_starts_bnd (r : regex) (st y : state) :
  starts_bnd r = true -> In y (run r st) -> at_boundary (fst st) (snd st) = true.
Proof.
  destruct r as [| |r1 r2| | |]; try discriminate.
  destruct r1; try discriminate. intros _ H. simpl in H.
  destruct (at_boundary (fst st) (snd st)); [reflexivity | destruct H].
Qed.

Lemma run_ends_bnd (r : regex) :
  ends_bnd r = true ->
  forall st y, In y (run r st) -> at_boundary (fst y) (snd y) = true.
Proof.
  induction r as [|f|r1 IH1 r2 IH2|r1 IH1 r2 IH2|f|]; intros E st y H;
    simpl in *; try discriminate.
  - apply in_flat_map in H as (m & _ & Hy). exact (IH2 E _ _ Hy).
  - destruct (at_boundary (fst st) (snd st)) eqn:B; [|easy].
    destruct H as [<-|[]]. exact B.
Qed.

Lemma pii_rules_ok : rules_ok pii_rules = true.
Proof. vm_compute. reflexivity. Qed.

(** *** Matches are local *)

Lemma sim_star (f : ascii -> bool) :
  negb (f "["%char) && negb (f "]"%char) = true ->
  forall o s ps po y,
    sim ps s po o -> In y (star f po o) ->
    exists x, In x (star f ps s) /\ sim (fst x) (snd x) (fst y) (snd y).
Proof.
  intros Hf. induction o as [|c o IH]; intros s ps po y Hs Hy.
  - simpl in Hy. destruct Hy as [<-|[]].
    exists (ps, s). split; [apply star_self | exact Hs].
  - simpl in Hy. destruct (f c) eqn:Fc.
    + apply in_app_or in Hy as [Hy|[<-|[]]].
      * destruct Hs as [_ Hs]. destruct (is_bracket c) eqn:Bc.
        { rewrite (is_bracket_safe f c Hf Bc) in Fc. discriminate. }
        destruct s as [|c2 s]; [destruct Hs|]. destruct Hs as [-> Hs].
        destruct (IH _ _ _ _ Hs Hy) as (x & Hx & Sx).
        exists x. split; [|exact Sx]. simpl. rewrite Fc.
        apply in_or_app. now left.
      * exists (ps, s). split; [apply star_self | exact Hs].
    + destruct Hy as [<-|[]].
      exists (ps, s). split; [apply star_self | exact Hs].
Qed.

Lemma sim_run (r : regex) :
  safe r = true ->
  forall a b y,
    sim (fst a) (snd a) (fst b) (snd b) -> In y (run r b) ->
    exists x, In x (run r a) /\ sim (fst x) (snd x) (fst y) (snd y).
Proof.
  induction r as [|f|r1 IH1 r2 IH2|r1 IH1 r2 IH2|f|];
    intros Hr [ps s] [po o] y Hs Hy; simpl in *.
  - destruct Hy as [<-|[]]. exists (ps, s). split; [now left | exact Hs].
  - destruct o as [|c o]; [easy|]. destruct (f c) eqn:Fc; [|easy].
    destruct Hy as [<-|[]]. destruct Hs as [_ Hs].
    destruct (is_bracket c) eqn:Bc.
    { rewrite (is_bracket_safe f c Hr Bc) in Fc. discriminate. }
    destruct s as [|c2 s]; [destruct Hs|]. destruct Hs as [-> Hs].
    exists (Some c, s). rewrite Fc. split; [now left | exact Hs].
  - apply andb_true_iff in Hr as [H1 H2].
    apply in_flat_map in Hy as (m & Hm & Hy).
    destruct (IH1 H1 (ps, s) (po, o) m Hs Hm) as (m' & Hm' & Sm).
    destruct (IH2 H2 m' m y Sm Hy) as (x & Hx & Sx).
    exists x. split; [|exact Sx]. apply in_flat_map. now exists m'.
  - apply andb_true_iff in Hr as [H1 H2].
    apply in_app_or in Hy as [Hy|Hy].
    + destruct (IH1 H1 (ps, s) (po, o) y Hs Hy) as (x & Hx & Sx).
      exists x. split; [apply in_or_app; now left | exact Sx].
    + destruct (IH2 H2 (ps, s) (po, o) y Hs Hy) as (x & Hx & Sx).
      exists x. split; [apply in_or_app; now right | exact Sx].
  - exact (sim_star f Hr o s ps po y Hs Hy).
  - destruct (at_boundary po o) eqn:B; [|easy]. destruct Hy as [<-|[]].
    assert (Bs : at_boundary ps s = true).
    { destruct o; simpl in Hs; now apply Hs. }
    rewrite Bs. exists (ps, s). split; [now left | exact Hs].
Qed.

Lemma exec_None (r : regex) (st : state) : exec r st = None <-> run r st = [].
Proof. unfold exec. destruct (run r st); simpl; split; congruence. Qed.

(** A match in [o] is a match in [s]. *)
Lemma sim_exec (r : regex) (ps po : option ascii) (s o : jsstring) :
  safe r = true -> sim ps s po o ->
  exec r (ps, s) = None -> exec r (po, o) = None.
Proof.
  intros Hr Hs Hn. apply exec_None in Hn. apply exec_None.
  destruct (run r (po, o)) as [|y l] eqn:E; [reflexivity|].
  destruct (sim_run r Hr (ps, s) (po, o) y Hs) as (x & Hx & _).
  - rewrite E. now left.
  - rewrite Hn in Hx. destruct Hx.
Qed.

(** *** One global replacement *)

Section Scan.

Variables (rj : regex) (rep : jsstring).
Hypothesis rj_consuming : consuming rj = true.
Hypothesis rj_starts : starts_bnd rj = true.
Hypothesis rj_ends : ends_bnd rj = true.

Lemma skip_app (w : jsstring) :
  forall p rest,
    replace_loop rj rep p (length w) (w ++ rest)
    = replace_loop rj rep (after w p) 0 rest.
Proof.
  induction w as [|c w IH]; intros p rest; [reflexivity|].
  simpl. apply IH.
Qed.

Lemma exec_consumes (p : option ascii) (s : jsstring) (st : state) :
  exec rj (p, s) = Some st ->
  exists c w, s = (c :: w) ++ snd st /\ fst st = after (c :: w) p /\
              at_boundary p s = true /\ at_boundary (fst st) (snd st) = true.
Proof.
  intros H. assert (Hin : In st (run rj (p, s))).
  { unfold exec in H. destruct (run rj (p, s)); [discriminate|].
    simpl in H. injection H as ->. now left. }
  destruct (run_suffix _ _ _ Hin) as (w & E & F).
  pose proof (run_consuming _ rj_consuming _ _ Hin) as L.
  simpl in E, F, L. destruct w as [|c w].
  - rewrite E in L. simpl in L. lia.
  - exists c, w. repeat split; try assumption.
    + exact (run_starts_bnd _ _ _ rj_starts Hin).
    + exact (run_ends_bnd _ rj_ends _ _ Hin).
Qed.

Lemma scan_end (p : option ascii) : replace_loop rj rep p 0 [] = [].
Proof.
  cbn [replace_loop]. destruct (exec rj (p, [])) as [st|] eqn:E; [|reflexivity].
  destruct (exec_consumes _ _ _ E) as (c & w & H & _). discriminate H.
Qed.

Lemma scan_miss (p : option ascii) (c : ascii) (s : jsstring) :
  exec rj (p, c :: s) = None ->
  replace_loop rj rep p 0 (c :: s) = c :: replace_loop rj rep (Some c) 0 s.
Proof. intros H. cbn [replace_loop]. now rewrite H. Qed.

Lemma scan_hit (p : option ascii) (s : jsstring) (st : state) :
  exec rj (p, s) = Some st ->
  replace_loop rj rep p 0 s = rep ++ replace_loop rj rep (fst st) 0 (snd st).
Proof.
  intros H. destruct (exec_consumes _ _ _ H) as (c & w & E & F & _).
  destruct st as [p' rest]. simpl in E, F. subst s.
  change (replace_loop rj rep p 0 (c :: w ++ rest))
    with (match exec rj (p, c :: w ++ rest) with
          | None => c :: replace_loop rj rep (Some c) 0 (w ++ rest)
          | Some (_, rest') =>
              match (length (c :: w ++ rest) - length rest')%nat with
              | O => rep ++ c :: replace_loop rj rep (Some c) 0 (w ++ rest)
              | S n => rep ++ replace_loop rj rep (Some c) n (w ++ rest)
              end
          end).
  rewrite H.
  replace (length (c :: w ++ rest) - length rest)%nat with (S (length w))
    by (change (length (c :: w ++ rest)) with (S (length (w ++ rest)));
        rewrite length_app; lia).
  rewrite skip_app. simpl. now rewrite F.
Qed.

(** A word boundary at the start of the output is one of the input. *)
Lemma scan_head_boundary (p : option ascii) (s : jsstring) :
  at_boundary p (replace_loop rj rep p 0 s) = true -> at_boundary p s = true.
Proof.
  destruct s as [|c s]; [now rewrite scan_end|].
  destruct (exec rj (p, c :: s)) as [st|] eqn:E.
  - intros _. now destruct (exec_consumes _ _ _ E) as (_ & _ & _ & _ & B & _).
  - now rewrite (scan_miss _ _ _ E).
Qed.

Hypothesis rep_bracket : exists u, rep = "["%char :: u.

Lemma sim_scan (s : jsstring) :
  forall ps po,
    (at_boundary po (replace_loop rj rep ps 0 s) = true -> at_boundary ps s = true) ->
    sim ps s po (replace_loop rj rep ps 0 s).
Proof.
  induction s as [|c s IH]; intros ps po B.
  - rewrite scan_end in *. simpl. auto.
  - destruct (exec rj (ps, c :: s)) as [st|] eqn:E.
    + rewrite (scan_hit _ _ _ E) in *. destruct rep_bracket as [u ->].
      simpl. auto.
    + rewrite (scan_miss _ _ _ E) in *. simpl. split; [exact B|].
      destruct (is_bracket c); [exact I|]. split; [reflexivity|].
      apply IH, scan_head_boundary.
Qed.

End Scan.

(** *** A replacement creates no match *)

Lemma exec_nil (r : regex) (p : option ascii) :
  consuming r = true -> exec r (p, []) = None.
Proof.
  intros C. apply exec_None. destruct (run r (p, [])) as [|y l] eqn:E; [reflexivity|].
  assert (H : In y (run r (p, []))) by (rewrite E; now left).
  apply (run_consuming r C) in H. simpl in H. lia.
Qed.

Lemma is_bracket_not_word (c : ascii) : is_bracket c = true -> is_word c = false.
Proof.
  unfold is_bracket. intros H.
  apply orb_true_iff in H as [H|H]; apply Ascii.eqb_eq in H; now subst.
Qed.

Lemma exec_at_bracket (r : regex) (p : option ascii) (c : ascii) (s : jsstring) :
  safe r = true -> consuming r = true -> is_bracket c = true ->
  exec r (p, c :: s) = None.
Proof.
  intros Hs Hc Hb. apply (sim_exec r p p [] (c :: s) Hs); [|now apply exec_nil].
  simpl. rewrite Hb. split; [|exact I].
  unfold at_boundary. simpl. now rewrite (is_bracket_not_word c Hb).
Qed.

Lemma sim_prefix (o2 u : jsstring) :
  existsb is_bracket u = true -> forall q, sim q u q (u ++ o2).
Proof.
  induction u as [|c u IH]; intros H q; [discriminate|].
  simpl. split; [auto|].
  simpl in H. destruct (is_bracket c); [exact I|].
  split; [reflexivity | now apply IH].
Qed.

Section Preserve.

Variables (rk rj : regex) (rep : jsstring).
Hypothesis rk_safe : safe rk = true.
Hypothesis rk_consuming : consuming rk = true.
Hypothesis rj_consuming : consuming rj = true.
Hypothesis rj_starts : starts_bnd rj = true.
Hypothesis rj_ends : ends_bnd rj = true.
Hypothesis rep_ok : placeholder_ok rk rep = true.

Lemma clean_suffix (w : jsstring) :
  forall p rest, cleanb rk p (w ++ rest) = true -> cleanb rk (after w p) rest = true.
Proof.
  induction w as [|c w IH]; intros p rest H; [exact H|].
  simpl in H. apply andb_true_iff in H as [_ H]. exact (IH _ _ H).
Qed.

Lemma clean_app (o2 u : jsstring) :
  forall q, closedb u = true -> cleanb rk q u = true ->
            cleanb rk (after u q) o2 = true -> cleanb rk q (u ++ o2) = true.
Proof.
  induction u as [|c u IH]; intros q Hc Hu Ho; [exact Ho|].
  cbn [closedb] in Hc. apply andb_true_iff in Hc as [Hb Hc].
  cbn [cleanb] in Hu. apply andb_true_iff in Hu as [He Hu].
  change ((c :: u) ++ o2) with (c :: u ++ o2). cbn [cleanb].
  apply andb_true_iff. split.
  - rewrite (sim_exec rk q q (c :: u) (c :: u ++ o2) rk_safe); [reflexivity| |].
    + exact (sim_prefix o2 (c :: u) Hb q).
    + destruct (exec rk (q, c :: u)); [discriminate He | reflexivity].
  - apply IH; assumption.
Qed.

Lemma rep_shape :
  exists u, rep = "["%char :: u /\ closedb u = true /\
            cleanb rk (Some "["%char) u = true.
Proof.
  unfold placeholder_ok in rep_ok. destruct rep as [|c u]; [discriminate|].
  apply andb_true_iff in rep_ok as [H H3]. apply andb_true_iff in H as [H1 H2].
  apply Ascii.eqb_eq in H1. subst c. now exists u.
Qed.

(** The text left by the replacement of [rj] has no match of [rk], when [rk]
    is [rj] itself or had no match in the text before. *)
Lemma scan_clean (n : nat) :
  forall s ps po,
    (length s <= n)%nat ->
    rk = rj \/ cleanb rk ps s = true ->
    (at_boundary po (replace_loop rj rep ps 0 s) = true -> at_boundary ps s = true) ->
    cleanb rk po (replace_loop rj rep ps 0 s) = true.
Proof.
  destruct rep_shape as (u & Erep & Hclosed & Hu).
  induction n as [|n IH]; intros s ps po L Hk B.
  - destruct s; [|simpl in L; lia].
    rewrite (scan_end rj rep rj_consuming rj_starts rj_ends).
    cbn [cleanb]. now rewrite (exec_nil rk po rk_consuming).
  - destruct s as [|c s].
    { rewrite (scan_end rj rep rj_consuming rj_starts rj_ends).
      cbn [cleanb]. now rewrite (exec_nil rk po rk_consuming). }
    destruct (exec rj (ps, c :: s)) as [[p' rest]|] eqn:E.
    + rewrite (scan_hit rj rep rj_consuming rj_starts rj_ends _ _ _ E).
      destruct (exec_consumes rj rj_consuming rj_starts rj_ends _ _ _ E)
        as (c1 & w & Es & Ep & _ & Bend).
      cbn [fst snd] in *. rewrite Erep.
      change (("["%char :: u) ++ replace_loop rj ("["%char :: u) p' 0 rest)
        with ("["%char :: u ++ replace_loop rj ("["%char :: u) p' 0 rest).
      cbn [cleanb]. apply andb_true_iff. split.
      * now rewrite (exec_at_bracket rk po "[" _ rk_safe rk_consuming).
      * apply clean_app; [exact Hclosed | exact Hu |].
        rewrite <- Erep. apply IH.
        -- rewrite Es in L. simpl in L. rewrite length_app in L. lia.
        -- destruct Hk as [Hk|Hk]; [now left | right].
           rewrite Es in Hk. rewrite Ep. now apply clean_suffix.
        -- intros _. exact Bend.
    + rewrite (scan_miss rj rep _ _ _ E) in *.
      cbn [cleanb]. apply andb_true_iff. split.
      * rewrite (sim_exec rk ps po (c :: s)
                   (c :: replace_loop rj rep (Some c) 0 s) rk_safe); [reflexivity| |].
        -- rewrite <- (scan_miss rj rep _ _ _ E).
           apply (sim_scan rj rep rj_consuming rj_starts rj_ends).
           ++ now exists u.
           ++ now rewrite (scan_miss rj rep _ _ _ E).
        -- destruct Hk as [->|Hk]; [exact E|].
           cbn [cleanb] in Hk. apply andb_true_iff in Hk as [Hk _].
           destruct (exec rk (ps, c :: s)); [discriminate Hk | reflexivity].
      * apply IH.
        -- simpl in L. lia.
        -- destruct Hk as [Hk|Hk]; [now left | right].
           cbn [cleanb] in Hk. now apply andb_true_iff in Hk as [_ Hk].
        -- apply (scan_head_boundary rj rep rj_consuming rj_starts rj_ends).
Qed.

End Preserve.

(** *** The five replacements, twice *)

Lemma clean_fixed (r : regex) (rep : jsstring) (s : jsstring) :
  forall p, cleanb r p s = true -> replace_loop r rep p 0 s = s.
Proof.
  induction s as [|c s IH]; intros p H; cbn [cleanb] in H;
    apply andb_true_iff in H as [He H]; cbn [replace_loop].
  - destruct (exec r (p, [])); [discriminate He | reflexivity].
  - destruct (exec r (p, c :: s)); [discriminate He|]. now rewrite (IH _ H).
Qed.

Section Rules.

Variable rules : list (regex * jsstring).
Hypothesis all_ok : rules_ok rules = true.

Lemma replace_all_clean (k j : regex * jsstring) (t : jsstring) :
  In k rules -> In j rules ->
  k = j \/ cleanb (fst k) None t = true ->
  cleanb (fst k) None (replace_all (fst j) (snd j) t) = true.
Proof.
  intros Hk Hj H. unfold rules_ok in all_ok. rewrite forallb_forall in all_ok.
  pose proof (all_ok k Hk) as Ok. pose proof (all_ok j Hj) as Oj.
  unfold rule_ok in Ok, Oj.
  apply andb_true_iff in Ok as [Ok Hrep]. rewrite forallb_forall in Hrep.
  specialize (Hrep j Hj). apply andb_true_iff in Oj as [Oj _].
  repeat (apply andb_true_iff in Ok as [Ok ?]).
  repeat (apply andb_true_iff in Oj as [Oj ?]).
  unfold replace_all.
  apply (scan_clean (fst k) (fst j) (snd j)) with (n := length t);
    try assumption; try lia.
  - destruct H as [->|H]; [now left | now right].
  - apply scan_head_boundary; assumption.
Qed.

Lemma apply_rules_clean (k : regex * jsstring) (l : list (regex * jsstring)) :
  In k rules -> incl l rules ->
  forall t, In k l \/ cleanb (fst k) None t = true ->
            cleanb (fst k) None (apply_rules l t) = true.
Proof.
  intros Hk. induction l as [|j l IH]; intros Hl t H.
  - destruct H as [[]|H]. exact H.
  - change (apply_rules (j :: l) t)
      with (apply_rules l (replace_all (fst j) (snd j) t)).
    assert (Hj : In j rules) by (apply Hl; now left).
    apply IH; [intros x Hx; apply Hl; now right|].
    destruct H as [[<-|H]|H].
    + right. apply replace_all_clean; auto.
    + now left.
    + right. apply replace_all_clean; auto.
Qed.

Lemma apply_rules_fixed (l : list (regex * jsstring)) :
  forall t, (forall k, In k l -> cleanb (fst k) None t = true) ->
            apply_rules l t = t.
Proof.
  induction l as [|j l IH]; intros t H; [reflexivity|].
  change (apply_rules (j :: l) t)
    with (apply_rules l (replace_all (fst j) (snd j) t)).
  unfold replace_all. rewrite clean_fixed by (apply H; now left).
  apply IH. intros k Hk. apply H. now right.
Qed.

Lemma apply_rules_idempotent (t : jsstring) :
  apply_rules rules (apply_rules rules t) = apply_rules rules t.
Proof.
  apply apply_rules_fixed. intros k Hk.
  apply apply_rules_clean; [exact Hk | apply incl_refl | now left].
Qed.

End Rules.

(** C8. [redactPII] is idempotent: redacting a redacted text changes
    nothing.  None of the five expressions matches anywhere in any of the
    five placeholders. *)
Theorem redactPII_idempotent :
  (forall t, redactPII (redactPII t) = redactPII t) /\
  forallb (fun rule =>
             forallb (fun other => cleanb (fst rule) None (snd other)) pii_rules)
          pii_rules = true.
Proof.
  split; [|vm_compute; reflexivity].
  intros [|c s]; [reflexivity|].
  change (redactPII (c :: s)) with (apply_rules pii_rules (c :: s)).
  destruct (apply_rules pii_rules (c :: s)) as [|c' s'] eqn:E; [reflexivity|].
  change (redactPII (c' :: s')) with (apply_rules pii_rules (c' :: s')).
  rewrite <- E. apply apply_rules_idempotent. exact pii_rules_ok.
Qed.

(** The examples of the specification. *)
Example redact_email :
  redactPII (lit "Contact me at jane.doe@example.com")
  = lit "Contact me at [EMAIL_REDACTED]".
Proof. vm_compute. reflexivity. Qed.

Example redact_phone :
  redactPII (lit "Call 555-123-4567 now") = lit "Call [PHONE_REDACTED] now".
Proof. vm_compute. reflexivity. Qed.

Example redact_ssn : redactPII (lit "SSN 123-45-6789") = lit "SSN [SSN_REDACTED]".
Proof. vm_compute. reflexivity. Qed.

(** The scenarios of the specification. *)
Example filler_heavy_transcript :
  exists r, analyzeSession None [user "Um, so, like, I uh think this is good"] = Normal r /\
            (3 <= fillerWordCount r)%Z /\ (confidenceScore r < 80)%Z.
Proof.
  eexists. split; [vm_compute; reflexivity|].
  split; vm_compute; [discriminate | reflexivity].
Qed.

Example alternating_turns :
  exists r, analyzeSession None [user "Hi, how are you?"; ai "Busy."; user "I see."; ai "So?"]
            = Normal r /\ talkTimeRatio r = 50%Z.
Proof. eexists. split; vm_compute; reflexivity. Qed.

(** * Further properties *)

(** ** Redaction: what is left, and what is kept *)

Lemma all_ascii_complete (c : ascii) : In c all_ascii.
Proof.
  unfold all_ascii. apply in_map_iff. exists (nat_of_ascii c). split.
  - apply ascii_nat_embedding.
  - apply in_seq. pose proof (nat_ascii_bounded c). lia.
Qed.

Lemma flat_map_nil {A B} (f : A -> list B) (l : list A) :
  (forall x, In x l -> f x = []) -> flat_map f l = [].
Proof.
  induction l as [|x l IH]; intros H; simpl; [reflexivity|].
  rewrite (H x), IH; [reflexivity | intros y Hy; apply H; now right | now left].
Qed.

Lemma forallb_suffix {A} (f : A -> bool) (w s : list A) :
  forallb f (w ++ s) = true -> forallb f s = true.
Proof. rewrite forallb_app. intros H. now apply andb_true_iff in H as [_ H]. Qed.

Lemma needs_run (P : ascii -> bool) (r : regex) :
  needs P r = true ->
  forall st, forallb (fun c => negb (P c)) (snd st) = true -> run r st = [].
Proof.
  induction r as [|f|r1 IH1 r2 IH2|r1 IH1 r2 IH2|f|]; intros N [p s] H;
    cbn [needs] in N; try discriminate; cbn [run snd fst] in *.
  - destruct s as [|c s]; [reflexivity|]. destruct (f c) eqn:F; [|reflexivity].
    rewrite forallb_forall in N. specialize (N c (all_ascii_complete c)).
    rewrite F in N. cbn [implb] in N. cbn [forallb] in H. rewrite N in H.
    discriminate.
  - apply orb_true_iff in N as [N|N].
    + now rewrite (IH1 N (p, s) H).
    + apply flat_map_nil. intros m Hm. apply (IH2 N).
      destruct (run_suffix _ _ _ Hm) as (w & E & _). cbn [snd] in E.
      rewrite E in H. exact (forallb_suffix _ _ _ H).
  - apply andb_true_iff in N as [N1 N2].
    now rewrite (IH1 N1 (p, s) H), (IH2 N2 (p, s) H).
Qed.

Lemma needs_clean (P : ascii -> bool) (r : regex) (s : jsstring) :
  needs P r = true -> forallb (fun c => negb (P c)) s = true ->
  forall p, cleanb r p s = true.
Proof.
  intros N. induction s as [|c s IH]; intros H p; cbn [cleanb].
  - assert (E : exec r (p, []) = None) by (apply exec_None, (needs_run P r N); exact H).
    now rewrite E.
  - assert (E : exec r (p, c :: s) = None)
      by (apply exec_None, (needs_run P r N); exact H).
    rewrite E. simpl in H. apply andb_true_iff in H as [_ H]. now rewrite IH.
Qed.

Lemma pii_rules_need_mark :
  forallb (fun rule => needs pii_mark (fst rule)) pii_rules = true.
Proof. vm_compute. reflexivity. Qed.

(** X1. Nothing is left to redact: in the text [redactPII] returns, none of
    its five expressions matches at any position. *)
Theorem redactPII_leaves_no_match (t : jsstring) :
  forallb (fun rule => cleanb (fst rule) None (redactPII t)) pii_rules = true.
Proof.
  apply forallb_forall. intros k Hk. destruct t as [|c s].
  - cbn [redactPII cleanb]. rewrite exec_nil; [reflexivity|].
    pose proof pii_rules_ok as Ok. unfold rules_ok in Ok.
    rewrite forallb_forall in Ok. specialize (Ok k Hk). unfold rule_ok in Ok.
    repeat (apply andb_true_iff in Ok as [Ok ?]). assumption.
  - change (redactPII (c :: s)) with (apply_rules pii_rules (c :: s)).
    apply (apply_rules_clean pii_rules pii_rules_ok);
      [exact Hk | apply incl_refl | now left].
Qed.

(** X2. A text without a capital letter A-Z, without a digit and without an
    at sign is returned as it is. *)
Theorem redactPII_keeps_plain_text (t : jsstring) :
  plain t = true -> redactPII t = t.
Proof.
  intros H. destruct t as [|c s]; [reflexivity|].
  change (redactPII (c :: s)) with (apply_rules pii_rules (c :: s)).
  apply apply_rules_fixed. intros k Hk.
  pose proof pii_rules_need_mark as N. rewrite forallb_forall in N.
  apply (needs_clean pii_mark); [exact (N k Hk) | exact H].
Qed.

Lemma redactPII_keeps_plain_text_witness :
  redactPII (lit "call me tomorrow, ok?") = lit "call me tomorrow, ok?".
Proof.
  apply (redactPII_keeps_plain_text (lit "call me tomorrow, ok?")).
  vm_compute. reflexivity.
Defined.

(** ** [analyzeSession]: what it reads *)

Lemma analyzeSession_same_turns (t t' : option jsstring) (h h' : list Turn) :
  length h = length h' -> filter is_user h = filter is_user h' ->
  h <> [] \/ t = t' ->
  analyzeSession t h = analyzeSession t' h'.
Proof.
  intros Hl Hu Hab.
  assert (E1 : analyzeSession t' h = analyzeSession t' h').
  { unfold analyzeSession, textToAnalyze, len. rewrite Hl, Hu. reflexivity. }
  rewrite <- E1. destruct Hab as [Hh| ->]; [|reflexivity].
  now apply analyzeSession_history_only.
Qed.

Lemma analyzeSession_built (t : option jsstring) (h : list Turn) (r : MetricsRecord) :
  analyzeSession t h = Normal r ->
  falsy t && (length h =? 0)%nat = false ->
  well_formed h = true /\ r = analysis_of t h.
Proof.
  intros H Hnd. split.
  - destruct (well_formed h) eqn:E; [reflexivity|].
    rewrite (analyzeSession_throws t h E) in H. discriminate H.
  - unfold analyzeSession in H. rewrite Hnd in H. cbv zeta in H.
    destruct (filterM is_discovery_question (filter is_user h)) as [dq|] eqn:Edq;
      [|discriminate H].
    destruct (filterM (fun msg => lower_includes_any (message msg) objectionPhrases)
                      (filter is_user h)) as [oh|] eqn:Eoh; [|discriminate H].
    destruct (filterM (fun msg => lower_includes_any (message msg) businessValueKeywords)
                      (filter is_user h)) as [bv|] eqn:Ebv; [|discriminate H].
    unfold bind in H. apply Normal_inj in H. subst r.
    apply filterM_Normal_inv in Edq as [_ ->].
    apply filterM_Normal_inv in Eoh as [_ ->].
    apply filterM_Normal_inv in Ebv as [_ ->].
    reflexivity.
Qed.

(** Either the default object or the built one. *)
Lemma analyzeSession_result (t : option jsstring) (h : list Turn) (r : MetricsRecord) :
  analyzeSession t h = Normal r ->
  (falsy t = true /\ h = [] /\ r = default_record) \/
  ((falsy t = false \/ h <> []) /\ r = analysis_of t h).
Proof.
  intros H. destruct (falsy t && (length h =? 0)%nat) eqn:E.
  - left. rewrite (analyzeSession_default _ _ E) in H. apply Normal_inj in H. subst r.
    apply andb_true_iff in E as [E1 E2]. destruct h; [auto | discriminate].
  - right. split; [|now apply analyzeSession_built].
    apply andb_false_iff in E as [E|E]; [now left|right].
    destruct h; [discriminate | congruence].
Qed.

(** ** Words *)

Lemma split_loop_Forall (Q : ascii -> Prop) (sep : ascii -> bool) (s : jsstring) :
  forall cur insep, Forall Q cur -> Forall Q s ->
                    Forall (Forall Q) (split_loop sep cur insep s).
Proof.
  induction s as [|c s IH]; intros cur insep Hc Hs; cbn [split_loop].
  - now constructor.
  - inversion Hs as [|? ? Hq Hs']; subst.
    destruct (sep c); [destruct insep|].
    + now apply IH.
    + constructor; [exact Hc | apply IH; [constructor | exact Hs']].
    + apply IH; [|exact Hs']. apply Forall_app. split; [exact Hc | now constructor].
Qed.

Lemma split_loop_no_sep (sep : ascii -> bool) (s : jsstring) :
  forall cur insep, Forall (fun c => sep c = false) cur ->
                    Forall (Forall (fun c => sep c = false)) (split_loop sep cur insep s).
Proof.
  induction s as [|c s IH]; intros cur insep Hc; cbn [split_loop].
  - now constructor.
  - destruct (sep c) eqn:E; [destruct insep|].
    + now apply IH.
    + constructor; [exact Hc | apply IH; constructor].
    + apply IH. apply Forall_app. split; [exact Hc | now constructor].
Qed.

Lemma lower_char_idempotent (c : ascii) : lower_char (lower_char c) = lower_char c.
Proof.
  assert (H : forallb (fun c => Ascii.eqb (lower_char (lower_char c)) (lower_char c))
                      all_ascii = true) by (vm_compute; reflexivity).
  rewrite forallb_forall in H. apply Ascii.eqb_eq, H, all_ascii_complete.
Qed.

Lemma toLowerCase_idempotent (s : jsstring) : toLowerCase (toLowerCase s) = toLowerCase s.
Proof.
  unfold toLowerCase. rewrite map_map. apply map_ext. apply lower_char_idempotent.
Qed.

Lemma startsWith_incl (p s : jsstring) : startsWith s p = true -> incl p s.
Proof.
  revert s. induction p as [|a p IH]; intros s H; [intros x []|].
  destruct s as [|b s]; [discriminate|]. cbn [startsWith] in H.
  apply andb_true_iff in H as [E H]. apply Ascii.eqb_eq in E. subst b.
  intros x [<-|Hx]; [now left | right; now apply (IH s)].
Qed.

Lemma includes_incl (s sub : jsstring) : includes s sub = true -> incl sub s.
Proof.
  induction s as [|c s IH]; cbn [includes]; intros H.
  - rewrite orb_false_r in H. now apply startsWith_incl.
  - apply orb_true_iff in H as [H|H]; [now apply startsWith_incl|].
    intros x Hx. right. now apply IH.
Qed.

Lemma tokenize_words (text w : jsstring) :
  In w (tokenize text) ->
  w <> [] /\ Forall (fun c => is_space c = false) w /\ Forall (fun c => lower_char c = c) w.
Proof.
  unfold tokenize, split_runs. intros H. apply filter_In in H as [H L]. repeat split.
  - destruct w; [discriminate L | discriminate].
  - pose proof (split_loop_no_sep is_space (toLowerCase text) [] false (Forall_nil _)) as F.
    rewrite Forall_forall in F. exact (F w H).
  - assert (F : Forall (Forall (fun c => lower_char c = c))
                       (split_loop is_space [] false (toLowerCase text))).
    { apply split_loop_Forall; [constructor|]. unfold toLowerCase.
      apply Forall_forall. intros c Hc. apply in_map_iff in Hc as (c' & <- & _).
      apply lower_char_idempotent. }
    rewrite Forall_forall in F. exact (F w H).
Qed.

(** X4. The words the analysis counts are non-empty, hold no white space and
    are in lower case.  So the two-word filler [you know] is found in no
    word: a word is a filler exactly when it contains one of the six
    one-word fillers. *)
Theorem words_hold_no_space (text w : jsstring) :
  In w (tokenize text) ->
  w <> [] /\
  forallb (fun c => negb (is_space c)) w = true /\
  toLowerCase w = w /\
  includes w (lit "you know") = false /\
  is_filler w = existsb (fun filler => includes w filler) oneWordFillers.
Proof.
  intros H. destruct (tokenize_words text w H) as (Hne & Hsp & Hlow).
  assert (Hyk : includes w (lit "you know") = false).
  { destruct (includes w (lit "you know")) eqn:E; [|reflexivity].
    apply includes_incl in E. rewrite Forall_forall in Hsp.
    assert (S : is_space " " = false).
    { apply Hsp, E. cbn. right; right; right; now left. }
    discriminate S. }
  repeat split; try assumption.
  - apply forallb_forall. intros c Hc. rewrite Forall_forall in Hsp.
    now rewrite (Hsp c Hc).
  - unfold toLowerCase. rewrite <- (map_id w) at 2. apply map_ext_in.
    rewrite Forall_forall in Hlow. exact Hlow.
  - unfold is_filler, fillerWords, oneWordFillers. cbn [map existsb].
    rewrite Hyk. reflexivity.
Qed.

Lemma words_hold_no_space_witness :
  lit "know," <> [] /\
  forallb (fun c => negb (is_space c)) (lit "know,") = true /\
  toLowerCase (lit "know,") = lit "know," /\
  includes (lit "know,") (lit "you know") = false /\
  is_filler (lit "know,") = existsb (fun filler => includes (lit "know,") filler) oneWordFillers.
Proof.
  apply (words_hold_no_space (lit "You know, it works") (lit "know,")).
  vm_compute. right. left. reflexivity.
Defined.

(** ** Integers are doubles *)

Lemma rne_comp (x y : Q) : x == y -> rne x = rne y.
Proof. intros H. apply Z.le_antisymm; apply rne_le; rewrite H; apply Qle_refl. Qed.

Lemma rne_Z (m : Z) : rne (inject_Z m) = m.
Proof.
  unfold rne. rewrite Qfloor_Z.
  destruct (Qcompare_spec (inject_Z m - inject_Z m) (1 # 2)) as [H|H|H];
    [exfalso; lra | reflexivity | exfalso; lra].
Qed.

Lemma pow2_Z (k : Z) : (0 <= k)%Z -> pow2 k == inject_Z (2 ^ k).
Proof. intros H. unfold pow2. now rewrite Zpower_Qpower. Qed.

(** A positive integer below [2^53] is a double. *)
Lemma round_pos_Z (n : Z) : (0 < n < 2 ^ 53)%Z -> round_pos (inject_Z n) == inject_Z n.
Proof.
  intros [H0 H1]. set (q := inject_Z n).
  assert (Hq : 0 < q) by now apply inject_Z_pos.
  destruct (binade_spec q Hq) as [L U]. set (e := binade q) in *.
  assert (E0 : (0 <= e)%Z).
  { assert (pow2 0 < pow2 (e + 1)).
    { apply Qle_lt_trans with q; [|exact U]. change (pow2 0) with 1. subst q.
      change 1 with (inject_Z 1). rewrite <- Zle_Qle. lia. }
    apply pow2_lt_inv in H. lia. }
  assert (E1 : (e < 53)%Z).
  { apply pow2_lt_inv. apply Qle_lt_trans with q; [exact L|].
    rewrite (pow2_Z 53) by lia. subst q. rewrite <- Zlt_Qlt. exact H1. }
  unfold round_pos. fold q. fold e.
  assert (P : 0 < inject_Z (2 ^ (52 - e))).
  { apply inject_Z_pos. apply Z.pow_pos_nonneg; lia. }
  assert (Eu : pow2 (e - 52) == 1 / inject_Z (2 ^ (52 - e))).
  { replace (e - 52)%Z with (0 - (52 - e))%Z by lia.
    rewrite pow2_frac by lia. reflexivity. }
  rewrite (rne_comp _ (inject_Z (n * 2 ^ (52 - e)))).
  - rewrite rne_Z, Eu, inject_Z_mult. fold q. field. lra.
  - rewrite Eu, inject_Z_mult. fold q. field. lra.
Qed.

Lemma fl_Z (n : Z) : (0 <= n < 2 ^ 53)%Z -> fl (inject_Z n) == inject_Z n.
Proof.
  intros [H0 H1]. destruct (Z.eq_dec n 0) as [->|Hn]; [reflexivity|].
  rewrite fl_pos by (apply inject_Z_pos; lia). apply round_pos_Z. lia.
Qed.

(** ** The overall score is the ceiling of the mean *)

Lemma ceil_quarter (n : Z) :
  (4 <= n <= 20)%Z ->
  Z.min 5 (Z.max 1 (Math_ceil (Js.div (inject_Z n) 4))) = ((n + 3) / 4)%Z.
Proof.
  intros H.
  assert (C : forallb (fun n => (Z.min 5 (Z.max 1 (Math_ceil (Js.div (inject_Z n) 4)))
                                 =? (n + 3) / 4)%Z)
                      (map Z.of_nat (seq 4 17)) = true) by (vm_compute; reflexivity).
  rewrite forallb_forall in C. apply Z.eqb_eq, C.
  apply in_map_iff. exists (Z.to_nat n). split; [lia | apply in_seq; lia].
Qed.

(** X5. The overall effectiveness score is the mean of the four sub-scores,
    rounded up to an integer; so it lies between the least and the greatest
    of them. *)
Theorem overall_is_ceiling_of_mean (t : option jsstring) (h : list Turn)
                                   (r : MetricsRecord) :
  analyzeSession t h = Normal r ->
  let d := discovery_score r in
  let p := product_knowledge_score r in
  let o := objection_handling_score r in
  let b := business_value_score r in
  overall_effectiveness_score r = ((d + p + o + b + 3) / 4)%Z /\
  (Z.min (Z.min d p) (Z.min o b) <= overall_effectiveness_score r
   <= Z.max (Z.max d p) (Z.max o b))%Z.
Proof.
  intros H d p o b.
  assert (E : overall_effectiveness_score r = ((d + p + o + b + 3) / 4)%Z).
  { destruct (analyzeSession_cases _ _ _ H) as [(_ & _ & ->) | [_ Ha]];
      [reflexivity|].
    pose proof (analysed_bounds _ _ _ Ha) as (_ & _ & Bd & Bp & Bo & Bb & _).
    rewrite (an_overall _ _ _ Ha). unfold overall_effectiveness_score_of.
    apply ceil_quarter. fold d p o b in Bd, Bp, Bo, Bb |- *. lia. }
  split; [exact E|]. rewrite E.
  split.
  - apply Z.div_le_lower_bound; lia.
  - assert ((d + p + o + b + 3) / 4 < Z.max (Z.max d p) (Z.max o b) + 1)%Z
      by (apply Z.div_lt_upper_bound; lia).
    lia.
Qed.

Lemma overall_is_ceiling_of_mean_witness :
  let d := discovery_score sample_record in
  let p := product_knowledge_score sample_record in
  let o := objection_handling_score sample_record in
  let b := business_value_score sample_record in
  overall_effectiveness_score sample_record = ((d + p + o + b + 3) / 4)%Z /\
  (Z.min (Z.min d p) (Z.min o b) <= overall_effectiveness_score sample_record
   <= Z.max (Z.max d p) (Z.max o b))%Z.
Proof.
  apply (overall_is_ceiling_of_mean None sample_history sample_record).
  vm_compute. reflexivity.
Defined.

(** ** Average sentence length *)

Lemma Math_round_zero (x : Q) : x == 0 -> Math_round x = 0%Z.
Proof. intros H. now rewrite (Math_round_comp x 0 H). Qed.

Lemma one_decimal_bounds (avg : Q) (w : Z) :
  (0 <= w < 2 ^ 32)%Z -> 0 <= avg -> avg <= inject_Z w ->
  let k := Math_round (Js.mul avg 10) in
  (0 <= k <= 10 * w)%Z /\
  0 <= Js.div (inject_Z k) 10 /\ Js.div (inject_Z k) 10 <= inject_Z w.
Proof.
  intros Hw H0 H1 k.
  assert (Ew : fl (inject_Z w) == inject_Z w) by (apply fl_Z; lia).
  assert (E10 : fl (inject_Z (10 * w)) == inject_Z (10 * w)) by (apply fl_Z; lia).
  assert (Hk : (0 <= k <= 10 * w)%Z).
  { subst k. apply Math_round_between.
    - change (inject_Z 0) with (fl 0). apply fl_le. lra.
    - rewrite <- E10. apply fl_le. rewrite inject_Z_mult.
      change (inject_Z 10) with 10. lra. }
  split; [exact Hk|].
  assert (K0 : 0 <= inject_Z k) by (change 0 with (inject_Z 0); rewrite <- Zle_Qle; lia).
  assert (K1 : inject_Z k <= 10 * inject_Z w).
  { change 10 with (inject_Z 10). rewrite <- inject_Z_mult, <- Zle_Qle. lia. }
  unfold Js.div. split.
  - change 0 with (fl 0). apply fl_le. apply Qle_shift_div_l; lra.
  - rewrite <- Ew. apply fl_le. apply Qle_shift_div_r; lra.
Qed.

(** X6. The average sentence length of the result lies between 0 and the
    word count, and it is a number of tenths: the double nearest to [k/10]
    for an integer [k] between 0 and ten times the word count. *)
Theorem average_sentence_length_bounds (t : option jsstring) (h : list Turn)
                                       (r : MetricsRecord) :
  analyzeSession t h = Normal r ->
  (wordCount r < 2 ^ 32)%Z ->
  0 <= averageSentenceLength r /\
  averageSentenceLength r <= inject_Z (wordCount r) /\
  exists k, (0 <= k <= 10 * wordCount r)%Z /\
            averageSentenceLength r = Js.div (inject_Z k) 10.
Proof.
  intros H Hw. destruct (analyzeSession_result _ _ _ H) as [(_ & _ & ->) | [_ ->]].
  - repeat split; try discriminate. exists 0%Z. split; [cbn; lia | reflexivity].
  - unfold analysis_of in *. cbv zeta in *.
    cbn [averageSentenceLength wordCount] in *.
    set (w := len (tokenize (textToAnalyze t h))) in *.
    set (sentences := filter trim_nonempty _) in *.
    assert (W0 : (0 <= w)%Z) by apply len_nonneg.
    set (avg := if (0 <? length sentences)%nat
                then Js.div (inject_Z w) (inject_Z (len sentences)) else 0).
    assert (Ew : fl (inject_Z w) == inject_Z w) by (apply fl_Z; lia).
    assert (A : 0 <= avg /\ avg <= inject_Z w).
    { subst avg. destruct (0 <? length sentences)%nat eqn:E.
      - apply Nat.ltb_lt in E.
        assert (S1 : 1 <= inject_Z (len sentences)).
        { change 1 with (inject_Z 1). rewrite <- Zle_Qle. unfold len. lia. }
        assert (Q0 : 0 <= inject_Z w)
          by (change 0 with (inject_Z 0); rewrite <- Zle_Qle; exact W0).
        unfold Js.div. split.
        + change 0 with (fl 0). apply fl_le. apply Qle_shift_div_l; lra.
        + rewrite <- Ew at 2. apply fl_le. apply Qle_shift_div_r; [lra|].
          assert (1 * inject_Z w <= inject_Z (len sentences) * inject_Z w)
            by (apply Qmult_le_compat_r; lra).
          lra.
      - split; [lra|]. change 0 with (inject_Z 0). rewrite <- Zle_Qle. exact W0. }
    destruct A as [A0 A1].
    destruct (one_decimal_bounds avg w (conj W0 Hw) A0 A1) as (Hk & B0 & B1).
    repeat split; try assumption.
    eexists. split; [exact Hk | reflexivity].
Qed.

Lemma average_sentence_length_bounds_witness :
  0 <= averageSentenceLength sample_record /\
  averageSentenceLength sample_record <= inject_Z (wordCount sample_record) /\
  exists k, (0 <= k <= 10 * wordCount sample_record)%Z /\
            averageSentenceLength sample_record = Js.div (inject_Z k) 10.
Proof.
  apply (average_sentence_length_bounds None sample_history sample_record).
  - vm_compute. reflexivity.
  - vm_compute. reflexivity.
Defined.

(** ** The counts of the result *)

Lemma analyzeSession_eq (t : option jsstring) (h : list Turn) :
  analyzeSession t h =
  if falsy t && (length h =? 0)%nat then Normal default_record
  else if well_formed h then Normal (analysis_of t h) else Throw TypeError.
Proof.
  destruct (falsy t && (length h =? 0)%nat) eqn:E.
  - now apply analyzeSession_default.
  - destruct (well_formed h) eqn:W.
    + destruct (analyzeSession_returns t h W) as [r Hr]. rewrite Hr. f_equal.
      now apply analyzeSession_built.
    + now apply analyzeSession_throws.
Qed.

Lemma distinct_NoDup (l : list jsstring) : distinct l = true -> NoDup l.
Proof.
  induction l as [|x l IH]; intros H; [constructor|].
  cbn [distinct] in H. apply andb_true_iff in H as [H1 H2].
  constructor; [|now apply IH].
  intros Hin. apply negb_true_iff in H1.
  assert (E : existsb (fun y => if list_eq_dec ascii_dec x y then true else false) l = true).
  { apply existsb_exists. exists x. split; [exact Hin|].
    destruct (list_eq_dec ascii_dec x x); congruence. }
  congruence.
Qed.

Lemma googleAdsConcepts_NoDup : NoDup googleAdsConcepts.
Proof. apply distinct_NoDup. vm_compute. reflexivity. Qed.

(** X7. Once the analysis runs, its three counts are each at most the number
    of trainee turns, which is at most the conversation length, the number
    of all turns; the concepts it reports are members of its list of
    concepts, none of them twice. *)
Theorem counts_within_trainee_turns (t : option jsstring) (h : list Turn)
                                    (r : MetricsRecord) :
  analyzeSession t h = Normal r ->
  falsy t = false \/ h <> [] ->
  let u := len (filter is_user h) in
  conversationLength r = len h /\ (u <= len h)%Z /\
  exists dq oh bv cs,
    discovery_questions_count r = Some dq /\
    objection_handling_count r = Some oh /\
    business_value_mentions r = Some bv /\
    google_ads_concepts_used r = Some cs /\
    (0 <= dq <= u)%Z /\ (0 <= oh <= u)%Z /\ (0 <= bv <= u)%Z /\
    incl cs googleAdsConcepts /\ NoDup cs.
Proof.
  intros H Hnd u.
  destruct (analyzeSession_result _ _ _ H) as [(F & -> & _) | [_ ->]].
  - destruct Hnd as [Hnd|Hnd]; congruence.
  - split; [reflexivity|]. split; [apply len_filter_le|].
    unfold analysis_of. cbv zeta.
    cbn [discovery_questions_count objection_handling_count business_value_mentions
         google_ads_concepts_used].
    do 4 eexists. repeat split; try apply len_nonneg; try apply len_filter_le.
    + intros c Hc. apply filter_In in Hc. apply Hc.
    + apply NoDup_filter, googleAdsConcepts_NoDup.
Qed.

Lemma counts_within_trainee_turns_witness :
  let u := len (filter is_user sample_history) in
  conversationLength sample_record = len sample_history /\ (u <= len sample_history)%Z /\
  exists dq oh bv cs,
    discovery_questions_count sample_record = Some dq /\
    objection_handling_count sample_record = Some oh /\
    business_value_mentions sample_record = Some bv /\
    google_ads_concepts_used sample_record = Some cs /\
    (0 <= dq <= u)%Z /\ (0 <= oh <= u)%Z /\ (0 <= bv <= u)%Z /\
    incl cs googleAdsConcepts /\ NoDup cs.
Proof.
  apply (counts_within_trainee_turns None sample_history sample_record).
  - vm_compute. reflexivity.
  - right. discriminate.
Defined.

(** ** The case of the letters *)

Lemma ascii_check (P : ascii -> bool) :
  forallb P all_ascii = true -> forall c, P c = true.
Proof. intros H c. rewrite forallb_forall in H. apply H, all_ascii_complete. Qed.

Lemma is_space_lower (c : ascii) : is_space (lower_char c) = is_space c.
Proof.
  apply eqb_prop.
  apply (ascii_check (fun c => Bool.eqb (is_space (lower_char c)) (is_space c))).
  vm_compute. reflexivity.
Qed.

Lemma punct_lower (c : ascii) :
  existsb (Ascii.eqb (lower_char c)) (lit ".!?") = existsb (Ascii.eqb c) (lit ".!?").
Proof.
  apply eqb_prop.
  apply (ascii_check (fun c => Bool.eqb (existsb (Ascii.eqb (lower_char c)) (lit ".!?"))
                                        (existsb (Ascii.eqb c) (lit ".!?")))).
  vm_compute. reflexivity.
Qed.

Lemma question_mark_lower (c : ascii) :
  Ascii.eqb "?" (lower_char c) = Ascii.eqb "?" c.
Proof.
  apply eqb_prop.
  apply (ascii_check (fun c => Bool.eqb (Ascii.eqb "?" (lower_char c)) (Ascii.eqb "?" c))).
  vm_compute. reflexivity.
Qed.

Lemma filter_map_swap {A B} (f : B -> bool) (g : A -> B) (l : list A) :
  filter f (map g l) = map g (filter (fun x => f (g x)) l).
Proof.
  induction l as [|x l IH]; [reflexivity|]. cbn [map filter].
  destruct (f (g x)); cbn [map]; now rewrite IH.
Qed.

Lemma toLowerCase_join (sep : jsstring) (l : list jsstring) :
  toLowerCase (join sep l) = join (toLowerCase sep) (map toLowerCase l).
Proof.
  unfold toLowerCase. induction l as [|x l IH]; [reflexivity|].
  destruct l as [|y l]; [reflexivity|].
  change (join sep (x :: y :: l)) with (x ++ sep ++ join sep (y :: l)).
  rewrite !map_app, IH. reflexivity.
Qed.

Lemma split_loop_map (sep : ascii -> bool) (g : ascii -> ascii) (s : jsstring) :
  (forall c, sep (g c) = sep c) ->
  forall cur insep,
    split_loop sep (map g cur) insep (map g s) = map (map g) (split_loop sep cur insep s).
Proof.
  intros Hg. induction s as [|c s IH]; intros cur insep; [reflexivity|].
  cbn [map split_loop]. rewrite Hg. destruct (sep c); [destruct insep|].
  - apply IH.
  - cbn [map]. f_equal. apply (IH [] true).
  - rewrite <- IH. now rewrite map_app.
Qed.

Lemma trim_nonempty_lower (w : jsstring) :
  trim_nonempty (toLowerCase w) = trim_nonempty w.
Proof.
  unfold trim_nonempty, toLowerCase. induction w as [|c w IH]; [reflexivity|].
  cbn [map existsb]. now rewrite is_space_lower, IH.
Qed.

Lemma sentences_lower (s : jsstring) :
  length (filter trim_nonempty
            (split_runs (fun c => existsb (Ascii.eqb c) (lit ".!?")) (toLowerCase s)))
  = length (filter trim_nonempty
              (split_runs (fun c => existsb (Ascii.eqb c) (lit ".!?")) s)).
Proof.
  unfold split_runs, toLowerCase.
  pose proof (split_loop_map _ lower_char s punct_lower [] false) as E.
  change (map lower_char []) with (@nil ascii) in E. rewrite E.
  rewrite filter_map_swap, length_map. f_equal. apply filter_ext.
  intros w. apply trim_nonempty_lower.
Qed.

Lemma includes_one (s : jsstring) (a : ascii) :
  includes s [a] = existsb (Ascii.eqb a) s.
Proof.
  induction s as [|c s IH]; [reflexivity|].
  cbn [includes existsb]. rewrite IH. f_equal.
  cbn [startsWith]. destruct s; apply andb_true_r.
Qed.

Lemma includes_question_mark_lower (s : jsstring) :
  includes (toLowerCase s) (lit "?") = includes s (lit "?").
Proof.
  change (lit "?") with ["?"%char]. rewrite !includes_one. unfold toLowerCase.
  induction s as [|c s IH]; [reflexivity|].
  cbn [map existsb]. now rewrite question_mark_lower, IH.
Qed.

Lemma lower_includes_any_lower (m : Turn) (keys : list jsstring) :
  lower_includes_any (message (lower_message m)) keys
  = lower_includes_any (message m) keys.
Proof.
  unfold lower_message. cbn [message]. destruct (message m) as [| |s]; try reflexivity.
  rewrite !lower_includes_any_string. now rewrite toLowerCase_idempotent.
Qed.

Lemma is_discovery_question_lower (m : Turn) :
  is_discovery_question (lower_message m) = is_discovery_question m.
Proof.
  unfold is_discovery_question. rewrite lower_includes_any_lower.
  unfold lower_message. cbn [message]. destruct (message m) as [| |s]; try reflexivity.
  unfold call_includes. now rewrite includes_question_mark_lower.
Qed.

Lemma user_messages_lower (h : list Turn) :
  filter is_user (map lower_message h) = map lower_message (filter is_user h).
Proof. rewrite filter_map_swap. reflexivity. Qed.

Lemma user_text_lower (l : list Turn) :
  join (lit " ") (map (fun msg => join_text (message msg)) (map lower_message l))
  = toLowerCase (join (lit " ") (map (fun msg => join_text (message msg)) l)).
Proof.
  rewrite toLowerCase_join, !map_map. f_equal. apply map_ext.
  intros m. unfold lower_message. cbn [message]. now destruct (message m).
Qed.

Lemma length_filter_lower (f : Turn -> bool) (l : list Turn) :
  (forall m, f (lower_message m) = f m) ->
  length (filter f (map lower_message l)) = length (filter f l).
Proof.
  intros Hf. rewrite filter_map_swap, length_map.
  f_equal. apply filter_ext. exact Hf.
Qed.

Lemma well_formed_lower (h : list Turn) :
  well_formed (map lower_message h) = well_formed h.
Proof.
  unfold well_formed. rewrite user_messages_lower.
  induction (filter is_user h) as [|m l IH]; [reflexivity|].
  cbn [map forallb]. rewrite IH. f_equal.
  unfold lower_message. cbn [message]. now destruct (message m).
Qed.

Lemma analysis_of_lower (t : option jsstring) (h : list Turn) :
  analysis_of (option_map toLowerCase t) (map lower_message h) = analysis_of t h.
Proof.
  assert (T : textToAnalyze (option_map toLowerCase t) (map lower_message h)
              = toLowerCase (textToAnalyze t h)).
  { unfold textToAnalyze. rewrite length_map.
    destruct (0 <? length h)%nat.
    - rewrite user_messages_lower. apply user_text_lower.
    - now destruct t. }
  assert (W : tokenize (textToAnalyze (option_map toLowerCase t) (map lower_message h))
              = tokenize (textToAnalyze t h)).
  { rewrite T. unfold tokenize. now rewrite toLowerCase_idempotent. }
  unfold analysis_of, len. cbv zeta. rewrite W, T, sentences_lower.
  rewrite !user_messages_lower.
  rewrite (length_filter_lower (fun msg => value_of (is_discovery_question msg)))
    by (intros m; now rewrite is_discovery_question_lower).
  rewrite (length_filter_lower
             (fun msg => value_of (lower_includes_any (message msg) objectionPhrases)))
    by (intros m; now rewrite lower_includes_any_lower).
  rewrite (length_filter_lower
             (fun msg => value_of (lower_includes_any (message msg) businessValueKeywords)))
    by (intros m; now rewrite lower_includes_any_lower).
  rewrite user_text_lower, toLowerCase_idempotent.
  rewrite !length_map. reflexivity.
Qed.

(** X8. The analysis does not tell capital letters from small ones in the
    text it reads: with the transcript and every message put in lower case
    it returns, or throws, the same. *)
Theorem analysis_is_case_insensitive (t : option jsstring) (h : list Turn) :
  analyzeSession (option_map toLowerCase t) (map lower_message h) = analyzeSession t h.
Proof.
  rewrite !analyzeSession_eq, length_map, well_formed_lower, analysis_of_lower.
  assert (F : falsy (option_map toLowerCase t) = falsy t) by (now destruct t as [[|c s]|]).
  now rewrite F.
Qed.

(** ** The transcript-only variant *)

Lemma split_loop_length (sep : ascii -> bool) (s : jsstring) :
  forall cur insep, (1 <= length (split_loop sep cur insep s))%nat.
Proof.
  induction s as [|c s IH]; intros cur insep; cbn [split_loop]; [simpl; lia|].
  destruct (sep c); [destruct insep|]; try apply IH.
  cbn [length]. lia.
Qed.

Lemma confidence_bounds (x : Q) :
  (20 <= Math_round (Qmax 20 (Qmin 100 x)) <= 100)%Z.
Proof.
  apply Math_round_between.
  - apply Q.le_max_l.
  - apply Q.max_lub; [discriminate | apply Q.le_min_l].
Qed.

(** X9. The transcript-only [analyzeSession] of the older server files:
    for a non-empty transcript it counts at least one word, even where the
    transcript is white space only, so its filler ratio never divides by
    zero; the filler count is at most the word count and the confidence
    score lies in [[20,100]].  A missing or empty transcript gives the
    fixed object with no words, confidence 50 and talk-time ratio 0. *)
Theorem transcript_only_bounds (t : option jsstring) :
  let r := TranscriptOnly.analyzeSession t in
  (0 <= TranscriptOnly.fillerWordCount r <= TranscriptOnly.wordCount r)%Z /\
  (20 <= TranscriptOnly.confidenceScore r <= 100)%Z /\
  (falsy t = false -> (1 <= TranscriptOnly.wordCount r)%Z) /\
  (falsy t = true ->
   TranscriptOnly.wordCount r = 0%Z /\ TranscriptOnly.confidenceScore r = 50%Z /\
   TranscriptOnly.talkTimeRatio r = 0%Z).
Proof.
  intros r. subst r. unfold TranscriptOnly.analyzeSession.
  destruct (falsy t) eqn:F; cbv zeta;
    cbn [TranscriptOnly.fillerWordCount TranscriptOnly.wordCount
         TranscriptOnly.confidenceScore TranscriptOnly.talkTimeRatio].
  - repeat split; try lia; discriminate.
  - repeat split; try apply len_nonneg; try apply len_filter_le;
      try apply confidence_bounds; try discriminate.
    intros _. unfold len, split_runs.
    pose proof (split_loop_length is_space (toLowerCase (or_empty t)) [] false). lia.
Qed.

Lemma transcript_only_bounds_witness :
  (1 <= TranscriptOnly.wordCount (TranscriptOnly.analyzeSession (Some (lit " "))))%Z /\
  TranscriptOnly.confidenceScore (TranscriptOnly.analyzeSession None) = 50%Z.
Proof.
  split.
  - apply (proj1 (proj2 (proj2 (transcript_only_bounds (Some (lit " ")))))).
    reflexivity.
  - apply (proj2 (proj2 (proj2 (transcript_only_bounds None)))). reflexivity.
Defined.

(** The empty pieces of a split: at most one at each end. *)
Lemma split_loop_empty_pieces (sep : ascii -> bool) (s : jsstring) :
  forall cur insep,
    (length (split_loop sep cur insep s)
     <= length (filter (fun w => (0 <? length w)%nat) (split_loop sep cur insep s))
        + match cur with
          | [] => if insep then 1 else 2
          | _ :: _ => 1
          end)%nat.
Proof.
  induction s as [|c s IH]; intros cur insep; cbn [split_loop].
  - destruct cur; [destruct insep|]; simpl; lia.
  - destruct (sep c); [destruct insep|].
    + apply IH.
    + specialize (IH [] true). destruct cur; cbn [filter length Nat.ltb Nat.leb] in *.
      * lia.
      * simpl. lia.
    + specialize (IH (cur ++ [c]) false).
      destruct (cur ++ [c]) eqn:E; [now destruct cur|].
      destruct cur; [destruct insep|]; lia.
Qed.

Lemma filter_filter_implied {A} (f g : A -> bool) (l : list A) :
  (forall x, f x = true -> g x = true) -> filter f (filter g l) = filter f l.
Proof.
  intros H. induction l as [|x l IH]; [reflexivity|]. cbn [filter].
  destruct (g x) eqn:G.
  - cbn [filter]. now rewrite IH.
  - rewrite IH. destruct (f x) eqn:F; [|reflexivity].
    rewrite (H x F) in G. discriminate.
Qed.

Lemma is_filler_nonempty (w : jsstring) :
  is_filler w = true -> (0 <? length w)%nat = true.
Proof. destruct w; [vm_compute; discriminate | reflexivity]. Qed.

Lemma confidence_raw_words (f w1 w2 : Z) :
  (0 <= f <= w1)%Z -> (w1 <= w2)%Z -> (1 <= w2)%Z ->
  confidence_raw f w1 <=
  Qmax 20 (Qmin 100 (Js.sub 100 (Js.mul (Js.div (inject_Z f) (inject_Z w2)) 200))).
Proof.
  intros Hf Hw H2. unfold confidence_raw.
  apply Q.max_le_compat_l, Q.min_le_compat_l, sub_le, mul_le; [discriminate|].
  unfold fillerRatio. destruct (0 <? w1)%Z eqn:E.
  - apply Z.ltb_lt in E. unfold Js.div. apply fl_le.
    assert (F0 : 0 <= inject_Z f)
      by (change 0 with (inject_Z 0); rewrite <- Zle_Qle; lia).
    assert (P1 : 0 < inject_Z w1) by (apply inject_Z_pos; lia).
    assert (P2 : 0 < inject_Z w2) by (apply inject_Z_pos; lia).
    assert (L : inject_Z w1 <= inject_Z w2) by (rewrite <- Zle_Qle; lia).
    apply Qle_shift_div_l; [exact P1|].
    setoid_replace (inject_Z f / inject_Z w2 * inject_Z w1)
      with (inject_Z f * (inject_Z w1 / inject_Z w2)) by (field; lra).
    assert (R : inject_Z w1 / inject_Z w2 <= 1)
      by (apply Qle_shift_div_r; lra).
    assert (inject_Z f * (inject_Z w1 / inject_Z w2) <= inject_Z f * 1)
      by (rewrite !(Qmult_comm (inject_Z f)); apply Qmult_le_compat_r; lra).
    lra.
  - assert (f = 0%Z) by lia. subst f. unfold Js.div.
    rewrite (fl_zero (inject_Z 0 / inject_Z w2)); [apply Qle_refl|].
    unfold Qdiv. ring.
Qed.

(** X10. The two variants of [analyzeSession] on the same non-empty
    transcript, without a history: the older one also counts the empty
    pieces a transcript with white space at its ends splits into, at most
    two, so its word count is the greater by at most 2; the filler counts
    agree, and the older confidence score is not the smaller. *)
Theorem transcript_only_counts_empty_pieces (t : jsstring) :
  t <> [] ->
  let o := TranscriptOnly.analyzeSession (Some t) in
  exists r,
    analyzeSession (Some t) [] = Normal r /\
    (wordCount r <= TranscriptOnly.wordCount o <= wordCount r + 2)%Z /\
    TranscriptOnly.fillerWordCount o = fillerWordCount r /\
    (confidenceScore r <= TranscriptOnly.confidenceScore o)%Z.
Proof.
  intros Ht o.
  assert (F : falsy (Some t) = false) by (destruct t; [congruence | reflexivity]).
  exists (analysis_of (Some t) []).
  split; [rewrite analyzeSession_eq, F; reflexivity|].
  subst o. unfold TranscriptOnly.analyzeSession. rewrite F. cbv zeta.
  unfold analysis_of. cbv zeta.
  cbn [wordCount fillerWordCount confidenceScore TranscriptOnly.wordCount
       TranscriptOnly.fillerWordCount TranscriptOnly.confidenceScore].
  change (textToAnalyze (Some t) []) with t. change (or_empty (Some t)) with t.
  unfold tokenize. set (pieces := split_runs is_space (toLowerCase t)).
  assert (Hf : filter is_filler (filter (fun word => (0 <? length word)%nat) pieces)
               = filter is_filler pieces)
    by (apply filter_filter_implied, is_filler_nonempty).
  rewrite Hf.
  assert (Hw : (len (filter (fun word => (0 <? length word)%nat) pieces) <= len pieces
                <= len (filter (fun word => (0 <? length word)%nat) pieces) + 2)%Z).
  { split; [apply len_filter_le|]. unfold len, pieces, split_runs.
    pose proof (split_loop_empty_pieces is_space (toLowerCase t) [] false) as E.
    cbv beta iota in E. lia. }
  assert (H1 : (1 <= len pieces)%Z).
  { unfold len, pieces, split_runs.
    pose proof (split_loop_length is_space (toLowerCase t) [] false). lia. }
  repeat split; try apply Hw.
  apply Math_round_le, confidence_raw_words; try lia.
  split; [apply len_nonneg|]. rewrite <- Hf. apply len_filter_le.
Qed.

Lemma transcript_only_counts_empty_pieces_witness :
  let o := TranscriptOnly.analyzeSession (Some (lit " um, hello ")) in
  exists r,
    analyzeSession (Some (lit " um, hello ")) [] = Normal r /\
    (wordCount r <= TranscriptOnly.wordCount o <= wordCount r + 2)%Z /\
    TranscriptOnly.fillerWordCount o = fillerWordCount r /\
    (confidenceScore r <= TranscriptOnly.confidenceScore o)%Z.
Proof.
  apply (transcript_only_counts_empty_pieces (lit " um, hello ")).
  discriminate.
Defined.

(** ** [analyzeGoogleAdsPerformance] *)

Lemma ads_question_returns (msg : Turn) :
  returns (andM (call_includes (message msg) (lit "?"))
                (lower_includes_any (message msg) GoogleAds.discoveryKeywords))
  = is_string (message msg).
Proof.
  destruct (message msg) as [| |m]; try reflexivity.
  rewrite lower_includes_any_string. unfold andM, call_includes, bind.
  now destruct (includes m (lit "?")).
Qed.

Lemma ads_filters_return (h : list Turn) (keys : list jsstring) (k : jsstring) :
  forallb (fun x => returns (lower_includes_any (message x) (k :: keys)))
          (filter is_user h) = well_formed h.
Proof.
  unfold well_formed. apply forallb_pointwise. intros x.
  apply lower_includes_any_returns.
Qed.

Lemma analyzeGoogleAdsPerformance_eq (h : list Turn) :
  GoogleAds.analyzeGoogleAdsPerformance h =
  if well_formed h then Normal (performance_of h) else Throw TypeError.
Proof.
  unfold GoogleAds.analyzeGoogleAdsPerformance. cbv zeta.
  assert (Q : forallb (fun x => returns
                         (andM (call_includes (message x) (lit "?"))
                               (lower_includes_any (message x)
                                                   GoogleAds.discoveryKeywords)))
                      (filter is_user h) = well_formed h).
  { unfold well_formed. apply forallb_pointwise. intros x. apply ads_question_returns. }
  assert (O : forallb (fun x => returns (lower_includes_any (message x)
                                                           GoogleAds.objectionPhrases))
                      (filter is_user h) = well_formed h)
    by exact (ads_filters_return h _ _).
  assert (B : forallb (fun x => returns (lower_includes_any (message x)
                                                           GoogleAds.businessValueKeywords))
                      (filter is_user h) = well_formed h)
    by exact (ads_filters_return h _ _).
  destruct (well_formed h) eqn:W.
  - rewrite (filterM_returns _ _ Q), (filterM_returns _ _ O), (filterM_returns _ _ B).
    reflexivity.
  - now rewrite (filterM_throws _ _ Q).
Qed.

(** *** The scores as integers *)

Lemma ceil_div_clamped (k n : Z) :
  (k = 2 \/ k = 3 \/ k = 4)%Z -> (0 <= n)%Z ->
  clamp15 (Math_ceil (Js.div (inject_Z n) (inject_Z k))) = clamp15 ((n + k - 1) / k).
Proof.
  intros Hk Hn.
  assert (C : forallb (fun k => forallb (fun n =>
                (clamp15 (Math_ceil (Js.div (inject_Z n) (inject_Z k)))
                 =? clamp15 ((n + k - 1) / k))%Z) (map Z.of_nat (seq 0 21)))
              [2; 3; 4]%Z = true) by (vm_compute; reflexivity).
  rewrite forallb_forall in C.
  assert (Ik : In k [2; 3; 4]%Z) by (cbn; lia).
  specialize (C k Ik). rewrite forallb_forall in C.
  destruct (Z_le_gt_dec n 20) as [L|G].
  - apply Z.eqb_eq, C. apply in_map_iff. exists (Z.to_nat n).
    split; [lia | apply in_seq; lia].
  - assert (C20 : clamp15 (Math_ceil (Js.div (inject_Z 20) (inject_Z k))) = 5%Z).
    { assert (I : In 20%Z (map Z.of_nat (seq 0 21))).
      { apply in_map_iff. exists 20%nat. split; [reflexivity | apply in_seq; lia]. }
      apply C, Z.eqb_eq in I. rewrite I.
      destruct Hk as [->|[->| ->]]; reflexivity. }
    assert (M : (Math_ceil (Js.div (inject_Z 20) (inject_Z k))
                 <= Math_ceil (Js.div (inject_Z n) (inject_Z k)))%Z).
    { apply Math_ceil_le, inject_Z_div_le; lia. }
    assert (5 <= (n + k - 1) / k)%Z by (apply Z.div_le_lower_bound; lia).
    unfold clamp15 in *. lia.
Qed.

Lemma ads_scores_of_counts (h : list Turn) (p : GoogleAds.Performance) :
  GoogleAds.analyzeGoogleAdsPerformance h = Normal p ->
  let dq := ads_discovery h in
  let cs := len (GoogleAds.google_ads_concepts_used p) in
  let oh := ads_objection h in
  let bv := ads_business h in
  let u := GoogleAds.user_message_count p in
  (0 <= dq <= u)%Z /\ (0 <= cs <= 18)%Z /\ (0 <= oh <= u)%Z /\ (0 <= bv <= u)%Z /\
  GoogleAds.discovery_score p = clamp15 ((dq + 1) / 2) /\
  GoogleAds.product_knowledge_score p = clamp15 cs /\
  GoogleAds.objection_handling_score p = clamp15 oh /\
  GoogleAds.business_value_score p = clamp15 bv /\
  GoogleAds.clarity_confidence_score p = clamp15 ((u + 2) / 3) /\
  GoogleAds.overall_effectiveness_score p = clamp15 ((dq + cs + oh + bv + 3) / 4) /\
  GoogleAds.solution_fit_score p =
    (if includes (ads_user_text h) (lit "performance max")
        || includes (ads_user_text h) (lit "smart campaigns") then 4 else 2)%Z.
Proof.
  intros H. rewrite analyzeGoogleAdsPerformance_eq in H.
  destruct (well_formed h); [|discriminate H]. apply Normal_inj in H. subst p.
  unfold performance_of. cbv zeta.
  cbn [GoogleAds.discovery_score GoogleAds.product_knowledge_score
       GoogleAds.objection_handling_score GoogleAds.business_value_score
       GoogleAds.clarity_confidence_score GoogleAds.overall_effectiveness_score
       GoogleAds.solution_fit_score GoogleAds.google_ads_concepts_used
       GoogleAds.user_message_count].
  assert (D : (0 <= ads_discovery h <= len (filter is_user h))%Z)
    by (split; [apply len_nonneg | apply len_filter_le]).
  assert (O : (0 <= ads_objection h <= len (filter is_user h))%Z)
    by (split; [apply len_nonneg | apply len_filter_le]).
  assert (B : (0 <= ads_business h <= len (filter is_user h))%Z)
    by (split; [apply len_nonneg | apply len_filter_le]).
  assert (C : (0 <= len (ads_concepts h) <= 18)%Z).
  { split; [apply len_nonneg|].
    apply (Z.le_trans _ (len GoogleAds.googleAdsConcepts));
      [apply len_filter_le | vm_compute; discriminate]. }
  repeat split; try apply D; try apply O; try apply B; try apply C.
  - change 2 with (inject_Z 2). fold (clamp15 (Math_ceil (Js.div (inject_Z (ads_discovery h)) (inject_Z 2)))).
    rewrite ceil_div_clamped by lia. do 2 f_equal. lia.
  - change 3 with (inject_Z 3). fold (clamp15 (Math_ceil (Js.div (inject_Z (len (filter is_user h))) (inject_Z 3)))).
    rewrite ceil_div_clamped by (try lia; apply len_nonneg). do 2 f_equal. lia.
  - change 4 with (inject_Z 4).
    fold (clamp15 (Math_ceil (Js.div (inject_Z (ads_discovery h + len (ads_concepts h)
                                                + ads_objection h + ads_business h))
                                     (inject_Z 4)))).
    rewrite ceil_div_clamped by lia. do 2 f_equal. lia.
  - assert (E : forall k, In k GoogleAds.googleAdsConcepts -> toLowerCase k = k ->
                          GoogleAds.array_includes (ads_concepts h) k
                          = includes (ads_user_text h) k).
    { intros k Hk Hl. unfold GoogleAds.array_includes, ads_concepts.
      destruct (includes (ads_user_text h) k) eqn:I.
      - apply existsb_exists. exists k. split.
        + apply filter_In. split; [exact Hk | now rewrite Hl].
        + destruct (list_eq_dec ascii_dec k k); congruence.
      - destruct (existsb _ _) eqn:X; [|reflexivity].
        apply existsb_exists in X as (y & Hy & Ey).
        destruct (list_eq_dec ascii_dec y k) as [->|]; [|discriminate].
        apply filter_In in Hy as [_ Hy]. rewrite Hl in Hy. congruence. }
    rewrite !E; try reflexivity.
    + destruct (_ || _); reflexivity.
    + cbn. do 5 right. now left.
    + cbn. do 4 right. now left.
Qed.

(** X12. The seven 1-5 scores of [analyzeGoogleAdsPerformance] as functions
    of integers, the division of the code being rounded to a double: the
    discovery score is half the number of discovery questions, rounded up;
    the clarity score a third of the number of trainee turns, rounded up;
    the overall score a quarter of the sum of the four counts, rounded up;
    each clamped to [[1,5]].  The solution-fit score is 4 when the trainee
    names Performance Max or Smart Campaigns, else 2. *)
Theorem google_ads_scores (h : list Turn) (p : GoogleAds.Performance) :
  GoogleAds.analyzeGoogleAdsPerformance h = Normal p ->
  let dq := ads_discovery h in
  let cs := len (GoogleAds.google_ads_concepts_used p) in
  let oh := ads_objection h in
  let bv := ads_business h in
  let u := GoogleAds.user_message_count p in
  (0 <= dq <= u)%Z /\ (0 <= cs <= 18)%Z /\ (0 <= oh <= u)%Z /\ (0 <= bv <= u)%Z /\
  GoogleAds.discovery_score p = clamp15 ((dq + 1) / 2) /\
  GoogleAds.product_knowledge_score p = clamp15 cs /\
  GoogleAds.objection_handling_score p = clamp15 oh /\
  GoogleAds.business_value_score p = clamp15 bv /\
  GoogleAds.clarity_confidence_score p = clamp15 ((u + 2) / 3) /\
  GoogleAds.overall_effectiveness_score p = clamp15 ((dq + cs + oh + bv + 3) / 4) /\
  GoogleAds.solution_fit_score p =
    (if includes (ads_user_text h) (lit "performance max")
        || includes (ads_user_text h) (lit "smart campaigns") then 4 else 2)%Z.
Proof. exact (ads_scores_of_counts h p). Qed.

Lemma google_ads_scores_witness :
  exists p,
    GoogleAds.analyzeGoogleAdsPerformance
      [user "What is your goal?"; ai "More sales."; user "Smart campaigns give roi."]
    = Normal p /\
    GoogleAds.discovery_score p = 1%Z /\
    GoogleAds.solution_fit_score p = 4%Z /\
    GoogleAds.overall_effectiveness_score p = 1%Z.
Proof.
  set (h := [user "What is your goal?"; ai "More sales."; user "Smart campaigns give roi."]).
  assert (H : GoogleAds.analyzeGoogleAdsPerformance h
              = Normal (performance_of h)) by (vm_compute; reflexivity).
  exists (performance_of h). split; [exact H|].
  destruct (google_ads_scores h (performance_of h) H)
    as (_ & _ & _ & _ & Ed & _ & _ & _ & _ & Eo & Es).
  rewrite Ed, Eo, Es. vm_compute. repeat split.
Defined.

(** *** The two analyses of one history *)

Lemma length_filter_implied {A} (f g : A -> bool) (l : list A) :
  (forall x, f x = true -> g x = true) ->
  (length (filter f l) <= length (filter g l))%nat.
Proof.
  intros H. induction l as [|x l IH]; [simpl; lia|]. cbn [filter].
  destruct (f x) eqn:F.
  - rewrite (H x F). simpl. lia.
  - destruct (g x); simpl; lia.
Qed.

Lemma lower_includes_any_app (v : JsValue) (l1 l2 : list jsstring) :
  value_of (lower_includes_any v l1) = true ->
  value_of (lower_includes_any v (l1 ++ l2)) = true.
Proof.
  destruct v as [| |m].
  - destruct l1 as [|k [|k' l1]]; discriminate.
  - destruct l1 as [|k [|k' l1]]; discriminate.
  - rewrite !lower_includes_any_string. cbn [value_of].
    rewrite existsb_app. intros ->. reflexivity.
Qed.

(** X13. The two analyses of one history: [analyzeSession] looks for every
    concept, objection phrase and business-value keyword that
    [analyzeGoogleAdsPerformance] looks for, and for more.  So the concepts
    the second reports open the list the first reports, and the first never
    gives a lower product-knowledge, objection-handling or business-value
    score than the second. *)
Theorem session_analysis_dominates_google_ads
  (t : option jsstring) (h : list Turn) (r : MetricsRecord) (p : GoogleAds.Performance) :
  analyzeSession t h = Normal r ->
  GoogleAds.analyzeGoogleAdsPerformance h = Normal p ->
  (GoogleAds.product_knowledge_score p <= product_knowledge_score r)%Z /\
  (GoogleAds.objection_handling_score p <= objection_handling_score r)%Z /\
  (GoogleAds.business_value_score p <= business_value_score r)%Z /\
  (forall cs, google_ads_concepts_used r = Some cs ->
              exists more, cs = GoogleAds.google_ads_concepts_used p ++ more).
Proof.
  intros Hr Hp. rewrite analyzeGoogleAdsPerformance_eq in Hp.
  destruct (well_formed h); [|discriminate Hp]. apply Normal_inj in Hp. subst p.
  unfold performance_of. cbv zeta.
  cbn [GoogleAds.product_knowledge_score GoogleAds.objection_handling_score
       GoogleAds.business_value_score GoogleAds.google_ads_concepts_used].
  destruct (analyzeSession_result _ _ _ Hr) as [(_ & -> & ->) | [_ ->]].
  - cbn. repeat split; try discriminate.
  - unfold analysis_of. cbv zeta.
    cbn [product_knowledge_score objection_handling_score business_value_score
         google_ads_concepts_used].
    fold (ads_user_text h).
    assert (C : googleAdsConcepts
                = GoogleAds.googleAdsConcepts
                  ++ map lit ["google ads"; "advertising"; "marketing"; "campaigns";
                              "keywords"; "budget"]%string) by reflexivity.
    assert (O : objectionPhrases
                = GoogleAds.objectionPhrases
                  ++ map lit ["i see your point"; "that makes sense"]%string)
      by reflexivity.
    assert (B : businessValueKeywords
                = GoogleAds.businessValueKeywords
                  ++ map lit ["profit"; "increase"; "improve"; "results"]%string)
      by reflexivity.
    rewrite C, filter_app. fold (ads_concepts h).
    assert (Lc : (len (ads_concepts h)
                  <= len (ads_concepts h ++
                          filter (fun concept => includes (ads_user_text h)
                                                          (toLowerCase concept))
                                 (map lit ["google ads"; "advertising"; "marketing";
                                           "campaigns"; "keywords"; "budget"]%string)))%Z).
    { unfold len. rewrite length_app. lia. }
    assert (Lo : (ads_objection h
                  <= len (filter (fun msg => value_of (lower_includes_any
                                                        (message msg) objectionPhrases))
                                 (filter is_user h)))%Z).
    { unfold ads_objection, len. apply inj_le, length_filter_implied.
      intros x Hx. rewrite O. now apply lower_includes_any_app. }
    assert (Lb : (ads_business h
                  <= len (filter (fun msg => value_of (lower_includes_any
                                                        (message msg)
                                                        businessValueKeywords))
                                 (filter is_user h)))%Z).
    { unfold ads_business, len. apply inj_le, length_filter_implied.
      intros x Hx. rewrite B. now apply lower_includes_any_app. }
    pose proof (len_nonneg (ads_concepts h)) as C0.
    assert (O0 : (0 <= ads_objection h)%Z) by apply len_nonneg.
    assert (B0 : (0 <= ads_business h)%Z) by apply len_nonneg.
    unfold product_knowledge_score_of, objection_handling_score_of,
      business_value_score_of.
    repeat split.
    + destruct (0 <? _)%Z eqn:E; lia.
    + destruct (0 <? _)%Z eqn:E; lia.
    + destruct (0 <? _)%Z eqn:E; lia.
    + intros cs Hcs. injection Hcs as <-. eexists. reflexivity.
Qed.

Lemma session_analysis_dominates_google_ads_witness :
  exists r p,
    analyzeSession None sample_history = Normal r /\
    GoogleAds.analyzeGoogleAdsPerformance sample_history = Normal p /\
    (GoogleAds.product_knowledge_score p <= product_knowledge_score r)%Z /\
    (GoogleAds.objection_handling_score p <= objection_handling_score r)%Z /\
    (GoogleAds.business_value_score p <= business_value_score r)%Z /\
    (forall cs, google_ads_concepts_used r = Some cs ->
                exists more, cs = GoogleAds.google_ads_concepts_used p ++ more).
Proof.
  exists sample_record, (performance_of sample_history).
  assert (Hr : analyzeSession None sample_history = Normal sample_record)
    by (vm_compute; reflexivity).
  assert (Hp : GoogleAds.analyzeGoogleAdsPerformance sample_history
               = Normal (performance_of sample_history)) by (vm_compute; reflexivity).
  split; [exact Hr|]. split; [exact Hp|].
  exact (session_analysis_dominates_google_ads None sample_history sample_record
           (performance_of sample_history) Hr Hp).
Defined.

(** ** Coaching recommendations *)

(** X14. The recommendations for the analysis of a history, by the counts
    of the analysis: more discovery questions are recommended unless the
    trainee asked at least five, the study of the products unless at least
    three concepts were used, work on objections unless at least three
    turns handled one, and a focus on business outcomes unless at least
    three turns mentioned business value; always in this order. *)
Theorem coaching_recommendation_thresholds (h : list Turn) (p : GoogleAds.Performance) :
  GoogleAds.analyzeGoogleAdsPerformance h = Normal p ->
  generateCoachingRecommendations p =
  (if (ads_discovery h <? 5)%Z then [advice_discovery] else []) ++
  (if (len (GoogleAds.google_ads_concepts_used p) <? 3)%Z then [advice_product] else []) ++
  (if (ads_objection h <? 3)%Z then [advice_objection] else []) ++
  (if (ads_business h <? 3)%Z then [advice_business] else []).
Proof.
  intros H.
  destruct (ads_scores_of_counts h p H) as (D & C & O & B & Ed & Ec & Eo & Eb & _).
  unfold generateCoachingRecommendations, push. cbv zeta.
  rewrite Ed, Ec, Eo, Eb. unfold clamp15.
  assert (T1 : ((Z.min 5 (Z.max 1 ((ads_discovery h + 1) / 2)) <? 3)
                = (ads_discovery h <? 5))%Z).
  { destruct (ads_discovery h <? 5)%Z eqn:E.
    - apply Z.ltb_lt in E. apply Z.ltb_lt.
      assert ((ads_discovery h + 1) / 2 < 3)%Z by (apply Z.div_lt_upper_bound; lia).
      lia.
    - apply Z.ltb_ge in E. apply Z.ltb_ge.
      assert (3 <= (ads_discovery h + 1) / 2)%Z by (apply Z.div_le_lower_bound; lia).
      lia. }
  assert (T : forall n, ((Z.min 5 (Z.max 1 n) <? 3) = (n <? 3))%Z).
  { intros n. destruct (n <? 3)%Z eqn:E; [apply Z.ltb_lt in E; apply Z.ltb_lt
                                         | apply Z.ltb_ge in E; apply Z.ltb_ge]; lia. }
  rewrite T1, !T.
  destruct (ads_discovery h <? 5)%Z, (len (GoogleAds.google_ads_concepts_used p) <? 3)%Z,
    (ads_objection h <? 3)%Z, (ads_business h <? 3)%Z; reflexivity.
Qed.

Lemma coaching_recommendation_thresholds_witness :
  generateCoachingRecommendations (performance_of counterpart_only)
  = [advice_discovery; advice_product; advice_objection; advice_business].
Proof.
  rewrite (coaching_recommendation_thresholds counterpart_only
             (performance_of counterpart_only)); reflexivity.
Defined.

(** ** Authentication *)

Lemma split_on_sep (sep : ascii) (a rest : jsstring) :
  forallb (fun c => negb (Ascii.eqb c sep)) a = true ->
  forall cur, split_on sep cur (a ++ sep :: rest) = (cur ++ a) :: split_on sep [] rest.
Proof.
  induction a as [|c a IH]; intros H cur; cbn [app split_on].
  - now rewrite Ascii.eqb_refl, app_nil_r.
  - cbn [forallb] in H. apply andb_true_iff in H as [Hc Ha].
    apply negb_true_iff in Hc. rewrite Hc. rewrite (IH Ha).
    now rewrite <- app_assoc.
Qed.

Lemma split_on_end (sep : ascii) (a : jsstring) :
  forallb (fun c => negb (Ascii.eqb c sep)) a = true ->
  forall cur, split_on sep cur a = [cur ++ a].
Proof.
  induction a as [|c a IH]; intros H cur; cbn [split_on].
  - now rewrite app_nil_r.
  - cbn [forallb] in H. apply andb_true_iff in H as [Hc Ha].
    apply negb_true_iff in Hc. rewrite Hc. rewrite (IH Ha).
    now rewrite <- app_assoc.
Qed.

Lemma bearer_token_second_word (scheme token rest : jsstring) :
  no_space scheme = true -> no_space token = true ->
  rest = [] \/ (exists r, rest = " "%char :: r) ->
  bearer_token (Some (scheme ++ " "%char :: token ++ rest)) = JsString token.
Proof.
  intros Hs Ht Hr. unfold bearer_token.
  destruct (scheme ++ " "%char :: token ++ rest) as [|c h] eqn:E;
    [now destruct scheme|].
  rewrite <- E. unfold split. rewrite (split_on_sep " " scheme _ Hs).
  cbn [at_index nth_error app]. destruct Hr as [->|[r ->]].
  - rewrite app_nil_r, (split_on_end " " token Ht). reflexivity.
  - rewrite (split_on_sep " " token r Ht). reflexivity.
Qed.

(** X15. [authenticateToken] verifies the second of the words of the
    [Authorization] header that single spaces separate, whatever the first
    word is: the scheme is not compared with [Bearer].  A header that is
    missing, that holds no space, or that has a second space right after
    the first, is answered 401 without the verifier being consulted. *)
Theorem authenticate_reads_second_word {U} (verifyIdToken : jsstring -> option U) :
  (forall scheme token rest,
      no_space scheme = true -> no_space token = true -> token <> [] ->
      rest = [] \/ (exists r, rest = " "%char :: r) ->
      authenticateToken verifyIdToken (Some (scheme ++ " "%char :: token ++ rest))
      = match verifyIdToken token with
        | Some decodedToken => Next decodedToken
        | None => Status403
        end) /\
  authenticateToken verifyIdToken None = Status401 /\
  (forall h, no_space h = true -> authenticateToken verifyIdToken (Some h) = Status401) /\
  (forall scheme rest,
      no_space scheme = true ->
      authenticateToken verifyIdToken (Some (scheme ++ " "%char :: " "%char :: rest))
      = Status401).
Proof.
  repeat split.
  - intros scheme token rest Hs Ht Hne Hr. unfold authenticateToken.
    rewrite (bearer_token_second_word scheme token rest Hs Ht Hr).
    destruct token; [congruence | reflexivity].
  - intros h Hh. unfold authenticateToken, bearer_token.
    destruct h as [|c h]; [reflexivity|].
    unfold split. now rewrite (split_on_end " " (c :: h) Hh).
  - intros scheme rest Hs. unfold authenticateToken.
    change (scheme ++ " "%char :: " "%char :: rest)
      with (scheme ++ " "%char :: [] ++ " "%char :: rest).
    rewrite (bearer_token_second_word scheme [] (" "%char :: rest) Hs eq_refl);
      [reflexivity | right; now exists rest].
Qed.

Lemma authenticate_reads_second_word_witness :
  authenticateToken (fun token => if includes token (lit "ok") then Some token else None)
                    (Some (lit "Basic tok-ok extra"))
  = Next (lit "tok-ok") /\
  authenticateToken (fun token => Some token) (Some (lit "Bearer")) = Status401 /\
  authenticateToken (fun token => Some token) (Some (lit "Bearer  tok")) = Status401.
Proof.
  split; [|split].
  - apply (proj1 (authenticate_reads_second_word
                    (fun token => if includes token (lit "ok") then Some token else None))
             (lit "Basic") (lit "tok-ok") (lit " extra")).
    + reflexivity.
    + reflexivity.
    + discriminate.
    + right. now exists (lit "extra").
  - apply (proj1 (proj2 (proj2 (authenticate_reads_second_word (fun token => Some token))))
             (lit "Bearer")).
    reflexivity.
  - apply (proj2 (proj2 (proj2 (authenticate_reads_second_word (fun token => Some token))))
             (lit "Bearer") (lit "tok")).
    reflexivity.
Defined.

(** ** Session identifiers and titles *)

Lemma string_of_uint_digits (d : Decimal.uint) :
  forallb is_digit (lit (DecimalString.NilEmpty.string_of_uint d)) = true.
Proof. induction d; cbn; try reflexivity; exact IHd. Qed.

Lemma toString_digits (n : Z) :
  (0 <= n)%Z -> forallb is_digit (Num.toString n) = true /\ Num.toString n <> [].
Proof.
  intros H. unfold Num.toString. destruct n as [|p|p]; [split; [reflexivity | discriminate]| |lia].
  cbn [Z.to_int DecimalString.NilZero.string_of_int].
  unfold DecimalString.NilZero.string_of_uint.
  destruct (Pos.to_uint p) eqn:E; try (split; [reflexivity | discriminate]);
    (split; [apply (string_of_uint_digits (_ u)) | discriminate]).
Qed.

Lemma digits_no_underscore (s : jsstring) :
  forallb is_digit s = true -> forallb (fun c => negb (Ascii.eqb c "_")) s = true.
Proof.
  intros H. rewrite forallb_forall in *. intros c Hc. specialize (H c Hc).
  destruct (Ascii.eqb c "_") eqn:E; [|reflexivity].
  apply Ascii.eqb_eq in E. subst c. discriminate H.
Qed.

(** X16. The identifier [POST /api/sessions/start] gives a session and the
    title [GET /api/sessions/history] shows for it: for a session row whose
    [id] cell is [session_<now>_<uid>], the title is [Practice Session
    <now>], whatever the user identifier, underscores in it included. *)
Theorem session_title_shows_start_time
  (now : Z) (uid : jsstring) (feedbackRows : list Row) (row : Row) :
  (0 <= now)%Z ->
  get row "id" = JsString (new_session_id now uid) ->
  exists s, History.session_of feedbackRows row = Normal s /\
            History.id s = JsString (new_session_id now uid) /\
            History.scenarioTitle s = lit "Practice Session " ++ Num.toString now.
Proof.
  intros Hn Hid. destruct (toString_digits now Hn) as [Hd Hne].
  unfold History.session_of. rewrite Hid. cbv zeta. unfold bind.
  eexists. split; [reflexivity|]. split; [reflexivity|].
  cbn [History.scenarioTitle]. f_equal.
  unfold new_session_id, split.
  change (lit "session_" ++ Num.toString now ++ lit "_" ++ uid)
    with (lit "session" ++ "_"%char :: Num.toString now ++ "_"%char :: uid).
  rewrite (split_on_sep "_" (lit "session")) by reflexivity.
  rewrite (split_on_sep "_" (Num.toString now)) by now apply digits_no_underscore.
  cbn [at_index nth_error app]. unfold or_else.
  destruct (Num.toString now); [congruence | reflexivity].
Qed.

Lemma session_title_shows_start_time_witness :
  exists s,
    History.session_of [] (mkRow 2 [(lit "id", lit "session_1730000000000_u_1")])
    = Normal s /\
    History.id s = JsString (new_session_id 1730000000000 (lit "u_1")) /\
    History.scenarioTitle s = lit "Practice Session " ++ Num.toString 1730000000000.
Proof.
  apply (session_title_shows_start_time 1730000000000 (lit "u_1") []
           (mkRow 2 [(lit "id", lit "session_1730000000000_u_1")])).
  - discriminate.
  - reflexivity.
Defined.

(** ** The pages of the session history *)

Lemma query_int_offset (offset : option jsstring) :
  History.query_int offset 0
  = option_map (fun n => fl (inject_Z n)) (requested_offset offset).
Proof. destruct offset; reflexivity. Qed.

Lemma query_int_limit (limit : option jsstring) :
  History.query_int limit 10
  = option_map (fun n => fl (inject_Z n)) (requested_limit limit).
Proof. destruct limit; [reflexivity | vm_compute; reflexivity]. Qed.

Lemma to_integer_nonneg (q : Q) (n : Z) :
  (0 <= n)%Z -> q == inject_Z n -> Num.to_integer (Some q) = n.
Proof.
  intros Hn E. unfold Num.to_integer.
  assert (L : Qle_bool 0 q = true).
  { apply Qle_bool_iff. rewrite E. change 0 with (inject_Z 0). rewrite <- Zle_Qle. lia. }
  rewrite L, (Qfloor_comp _ _ E). apply Qfloor_Z.
Qed.

Lemma relative_index_nonneg (len i : Z) : (0 <= len)%Z -> (0 <= relative_index len i)%Z.
Proof. intros H. unfold relative_index. destruct (i <? 0)%Z eqn:E; lia. Qed.

Lemma slice_page {A} (arr : list A) (start end_ : option Q) (o k : Z) :
  (0 <= o)%Z -> (0 <= k)%Z ->
  Num.to_integer start = o -> Num.to_integer end_ = (o + k)%Z ->
  slice arr start end_ = firstn (Z.to_nat k) (skipn (Z.to_nat o) arr).
Proof.
  intros Ho Hk Es Ee. unfold slice, relative_index, len. rewrite Es, Ee.
  replace (o <? 0)%Z with false by lia. replace (o + k <? 0)%Z with false by lia.
  destruct (Z_le_gt_dec o (Z.of_nat (length arr))) as [L|G].
  - replace (Z.min o (Z.of_nat (length arr))) with o by lia.
    destruct (Z_le_gt_dec (o + k) (Z.of_nat (length arr))) as [L2|G2].
    + f_equal. lia.
    + replace (Z.min (o + k) (Z.of_nat (length arr))) with (Z.of_nat (length arr)) by lia.
      rewrite !firstn_all2; try reflexivity; rewrite length_skipn; lia.
  - replace (Z.min o (Z.of_nat (length arr))) with (Z.of_nat (length arr)) by lia.
    replace (Z.min (o + k) (Z.of_nat (length arr))) with (Z.of_nat (length arr)) by lia.
    rewrite !skipn_all2 by lia. now rewrite !firstn_nil.
Qed.

Lemma slice_to_zero {A} (arr : list A) (start : option Q) :
  slice arr start None = [].
Proof.
  unfold slice. cbn [Num.to_integer].
  pose proof (relative_index_nonneg (len arr) (Num.to_integer start) (len_nonneg arr)).
  replace (relative_index (len arr) 0) with 0%Z
    by (unfold relative_index; pose proof (len_nonneg arr); simpl; lia).
  replace (Z.to_nat (0 - relative_index (len arr) (Num.to_integer start))) with O by lia.
  reflexivity.
Qed.

Lemma add_exact (a b : Q) (o k : Z) :
  (0 <= o)%Z -> (0 <= k)%Z -> (o + k < 2 ^ 53)%Z ->
  a == inject_Z o -> b == inject_Z k -> Num.add a b == inject_Z (o + k).
Proof.
  intros Ho Hk H Ea Eb. unfold Num.add.
  rewrite (fl_comp (a + b) (inject_Z (o + k))).
  - apply fl_Z. lia.
  - rewrite Ea, Eb, inject_Z_plus. reflexivity.
Qed.

Lemma gt_exact (n m : Z) (q : Q) : q == inject_Z m -> Num.gt n (Some q) = (m <? n)%Z.
Proof.
  intros E. unfold Num.gt. destruct (m <? n)%Z eqn:L.
  - apply negb_true_iff. destruct (Qle_bool (inject_Z n) q) eqn:B; [|reflexivity].
    apply Qle_bool_iff in B. rewrite E, <- Zle_Qle in B. lia.
  - apply negb_false_iff. apply Qle_bool_iff. rewrite E, <- Zle_Qle. lia.
Qed.

(** X17. The page [GET /api/sessions/history] answers with.  The sessions
    of the user being [all], in the order of the answer: where the offset
    and the limit read as integers [o] and [k] that are not negative, the
    page holds the [k] sessions after the first [o], fewer at the end of
    the list, and [hasMore] tells whether sessions are left after the page;
    where either reads as no number the page is empty and [hasMore] is
    false.  The total is the length of [all] in each case; without
    parameters the page holds the first 10 sessions. *)
Theorem history_pages
  (sort : list History.Session -> list History.Session) (uid : jsstring)
  (limit offset : option jsstring) (sessionRows feedbackRows : list Row)
  (all : list History.Session) :
  history_sessions sort uid sessionRows feedbackRows = Some all ->
  exists r,
    History.sessions_history sort uid limit offset (Some sessionRows) (Some feedbackRows)
    = History.Json200 r /\
    History.total (History.pagination r) = len all /\
    (forall o k,
        requested_offset offset = Some o -> requested_limit limit = Some k ->
        (0 <= o)%Z -> (0 <= k)%Z -> (o + k < 2 ^ 53)%Z ->
        History.sessions r = firstn (Z.to_nat k) (skipn (Z.to_nat o) all) /\
        History.hasMore (History.pagination r) = (o + k <? len all)%Z) /\
    (requested_offset offset = None \/ requested_limit limit = None ->
     History.sessions r = [] /\ History.hasMore (History.pagination r) = false).
Proof.
  intros Hall. unfold history_sessions in Hall. unfold History.sessions_history.
  destruct (mapM _ _) as [l|]; [|discriminate Hall].
  injection Hall as <-. cbv zeta. eexists. split; [reflexivity|].
  cbn [History.sessions History.pagination History.total History.hasMore].
  rewrite query_int_offset, query_int_limit.
  split; [reflexivity|]. split.
  - intros o k Eo Ek Ho Hk Hb. rewrite Eo, Ek. cbn [option_map Num.add_nan].
    assert (Fo : fl (inject_Z o) == inject_Z o) by (apply fl_Z; lia).
    assert (Fk : fl (inject_Z k) == inject_Z k) by (apply fl_Z; lia).
    pose proof (add_exact _ _ o k Ho Hk Hb Fo Fk) as Fs. split.
    + apply slice_page; try assumption.
      * now apply to_integer_nonneg.
      * apply to_integer_nonneg; [lia | exact Fs].
    + now apply gt_exact.
  - intros [E|E]; rewrite E; cbn [option_map Num.add_nan].
    + split; [apply slice_to_zero | reflexivity].
    + destruct (option_map _ (requested_offset offset));
        (split; [apply slice_to_zero | reflexivity]).
Qed.

Lemma history_pages_witness :
  exists r,
    History.sessions_history keep_order (lit "u1") (Some (lit "2")) (Some (lit "1"))
                             (Some sheet_sessions) (Some sheet_feedback)
    = History.Json200 r /\
    History.total (History.pagination r) = 3%Z /\
    map History.id (History.sessions r)
    = [JsString (lit "session_3_u1"); JsString (lit "session_4_u1")] /\
    History.hasMore (History.pagination r) = false.
Proof.
  destruct (history_pages keep_order (lit "u1") (Some (lit "2")) (Some (lit "1"))
              sheet_sessions sheet_feedback sample_sessions)
    as (r & E & T & P & _); [vm_compute; reflexivity|].
  exists r. split; [exact E|]. split; [rewrite T; reflexivity|].
  destruct (P 1%Z 2%Z) as [Ps Ph]; try reflexivity; try lia.
  rewrite Ps, Ph. split; vm_compute; reflexivity.
Defined.

(** ** Whose sessions the history shows *)

Lemma mapM_In {A B} (f : A -> completion B) (l : list A) (r : list B) :
  mapM f l = Normal r ->
  forall y, In y r -> exists x, In x l /\ f x = Normal y.
Proof.
  revert r. induction l as [|x l IH]; intros r H y Hy; cbn [mapM] in H.
  - apply Normal_inj in H. subst r. destruct Hy.
  - destruct (f x) as [b|] eqn:Fx; [|discriminate H]. cbn [bind] in H.
    destruct (mapM f l) as [r'|]; [|discriminate H]. cbn [bind] in H.
    apply Normal_inj in H. subst r. destruct Hy as [<-|Hy].
    + exists x. split; [now left | exact Fx].
    + destruct (IH r' eq_refl y Hy) as (x' & Hx' & Fx').
      exists x'. split; [now right | exact Fx'].
Qed.

Lemma mapM_throws {A B} (f : A -> completion B) (l : list A) (x : A) (e : JsError) :
  In x l -> f x = Throw e -> mapM f l = Throw TypeError.
Proof.
  intros Hx Fx. induction l as [|a l IH]; [destruct Hx|]. cbn [mapM].
  destruct (f a) as [b|e'] eqn:Fa; cbn [bind].
  - destruct Hx as [->|Hx]; [congruence|]. now rewrite (IH Hx).
  - now rewrite (error_unique e').
Qed.

Lemma strict_eq_string (v : JsValue) (s : jsstring) :
  strict_eq v (JsString s) = true -> v = JsString s.
Proof.
  destruct v as [| |x]; try discriminate. cbn [strict_eq].
  destruct (list_eq_dec ascii_dec x s); [now subst | discriminate].
Qed.

Lemma In_slice {A} (arr : list A) (start end_ : option Q) (x : A) :
  In x (slice arr start end_) -> In x arr.
Proof.
  unfold slice. intros H.
  set (k := Z.to_nat (relative_index (len arr) (Num.to_integer start))) in *.
  set (n := Z.to_nat _) in H.
  rewrite <- (firstn_skipn k arr). apply in_or_app. right.
  rewrite <- (firstn_skipn n (skipn k arr)). apply in_or_app. now left.
Qed.

(** X18. The history shows a user nothing but the user's own sessions: each
    session of the answer is made from a row of the sheet whose [userId]
    cell is the identifier of the user who asks, provided the sorting
    returns no session it was not given. *)
Theorem history_shows_own_sessions
  (sort : list History.Session -> list History.Session) (uid : jsstring)
  (limit offset : option jsstring) (sessionRows feedbackRows : list Row)
  (r : History.Result) :
  (forall l s, In s (sort l) -> In s l) ->
  History.sessions_history sort uid limit offset (Some sessionRows) (Some feedbackRows)
  = History.Json200 r ->
  forall s, In s (History.sessions r) ->
            exists row, In row sessionRows /\
                        get row "userId" = JsString uid /\
                        History.id s = get row "id" /\
                        History.session_of feedbackRows row = Normal s.
Proof.
  intros Hsort H s Hs. unfold History.sessions_history in H.
  destruct (mapM _ _) as [l|] eqn:M; [|discriminate H].
  cbv zeta in H. injection H as <-. cbn [History.sessions] in Hs.
  apply In_slice, Hsort in Hs.
  destruct (mapM_In _ _ _ M s Hs) as (row & Hrow & Frow).
  apply filter_In in Hrow as [Hin Hu]. apply strict_eq_string in Hu.
  exists row. repeat split; try assumption.
  unfold History.session_of in Frow. cbv zeta in Frow.
  destruct (get row "id") as [| |sid]; try discriminate Frow.
  cbn [bind] in Frow. apply Normal_inj in Frow. now subst s.
Qed.

Lemma history_shows_own_sessions_witness :
  exists row, In row sheet_sessions /\
              get row "userId" = JsString (lit "u1") /\
              History.id sample_session = get row "id" /\
              History.session_of sheet_feedback row = Normal sample_session.
Proof.
  apply (history_shows_own_sessions keep_order (lit "u1") None None
           sheet_sessions sheet_feedback sample_result).
  - intros l s H. exact H.
  - vm_compute. reflexivity.
  - vm_compute. left. reflexivity.
Defined.

(** X19. A session row of the user without an [id] cell fails the whole
    request: the history answers 500, whatever the other rows are. *)
Theorem history_fails_on_row_without_id
  (sort : list History.Session -> list History.Session) (uid : jsstring)
  (limit offset : option jsstring) (sessionRows feedbackRows : list Row) (row : Row) :
  In row sessionRows ->
  get row "userId" = JsString uid ->
  get row "id" = JsUndefined ->
  History.sessions_history sort uid limit offset (Some sessionRows) (Some feedbackRows)
  = History.Error500 (lit "Failed to fetch session history").
Proof.
  intros Hin Hu Hid. unfold History.sessions_history.
  rewrite (mapM_throws (History.session_of feedbackRows) _ row TypeError);
    [reflexivity| |].
  - apply filter_In. split; [exact Hin|]. rewrite Hu. cbn [strict_eq].
    destruct (list_eq_dec ascii_dec uid uid); congruence.
  - unfold History.session_of. now rewrite Hid.
Qed.

Lemma history_fails_on_row_without_id_witness :
  History.sessions_history keep_order (lit "u1") None None
    (Some (sheet_sessions ++ [row 6 [("userId", "u1")]%string])) (Some sheet_feedback)
  = History.Error500 (lit "Failed to fetch session history").
Proof.
  apply (history_fails_on_row_without_id keep_order (lit "u1") None None
           (sheet_sessions ++ [row 6 [("userId", "u1")]%string]) sheet_feedback
           (row 6 [("userId", "u1")]%string)).
  - apply in_or_app. right. now left.
  - reflexivity.
  - reflexivity.
Defined.

(** ** The summary of the session history *)

Lemma mapM_length {A B} (f : A -> completion B) (l : list A) (r : list B) :
  mapM f l = Normal r -> length r = length l.
Proof.
  revert r. induction l as [|x l IH]; intros r H; cbn [mapM] in H.
  - apply Normal_inj in H. now subst r.
  - destruct (f x) as [b|]; [|discriminate H]. cbn [bind] in H.
    destruct (mapM f l) as [r'|]; [|discriminate H]. cbn [bind] in H.
    apply Normal_inj in H. subst r. cbn [length]. now rewrite (IH r' eq_refl).
Qed.

Lemma fold_add_bounds {A} (c : A -> Q) (lo hi : Z) (l : list A) :
  (0 <= lo <= hi)%Z ->
  (forall x, In x l -> inject_Z lo <= c x /\ c x <= inject_Z hi) ->
  forall acc m,
    (0 <= m)%Z -> (hi * (m + len l) < 2 ^ 53)%Z ->
    inject_Z (lo * m) <= acc -> acc <= inject_Z (hi * m) ->
    inject_Z (lo * (m + len l)) <= fold_left (fun sum x => Num.add sum (c x)) l acc /\
    fold_left (fun sum x => Num.add sum (c x)) l acc <= inject_Z (hi * (m + len l)).
Proof.
  intros Hlh. induction l as [|x l IH]; intros Hc acc m Hm Hb L U.
  - cbn [fold_left]. unfold len. cbn [length Z.of_nat]. rewrite Z.add_0_r. now split.
  - cbn [fold_left].
    assert (E : (m + len (x :: l) = (m + 1) + len l)%Z) by (unfold len; cbn [length]; lia).
    rewrite E in *. pose proof (len_nonneg l) as Ln.
    destruct (Hc x (or_introl eq_refl)) as [Cl Cu].
    apply IH.
    + intros y Hy. apply Hc. now right.
    + lia.
    + exact Hb.
    + rewrite <- (fl_Z (lo * (m + 1))) by nia. unfold Num.add. apply fl_le.
      replace (lo * (m + 1))%Z with (lo * m + lo)%Z by lia. rewrite inject_Z_plus. lra.
    + rewrite <- (fl_Z (hi * (m + 1))) by nia. unfold Num.add. apply fl_le.
      replace (hi * (m + 1))%Z with (hi * m + hi)%Z by lia. rewrite inject_Z_plus. lra.
Qed.

Lemma average_bounds {A} (c : A -> Q) (lo hi : Z) (l : list A) :
  (0 <= lo <= hi)%Z -> (hi < 2 ^ 20)%Z -> (0 < len l < 2 ^ 32)%Z ->
  (forall x, In x l -> inject_Z lo <= c x /\ c x <= inject_Z hi) ->
  (lo <= Math_round (Js.div (fold_left (fun sum x => Num.add sum (c x)) l 0%Q)
                            (inject_Z (len l)))
   <= hi)%Z.
Proof.
  intros Hlh Hh Hn Hc.
  destruct (fold_add_bounds c lo hi l Hlh Hc 0 0%Z) as [L U]; try lia.
  - rewrite Z.add_0_l. nia.
  - rewrite Z.mul_0_r. apply Qle_refl.
  - rewrite Z.mul_0_r. apply Qle_refl.
  - rewrite Z.add_0_l in L, U. rewrite inject_Z_mult in L, U.
    set (sum := fold_left _ l 0) in *.
    assert (P : 0 < inject_Z (len l)) by (apply inject_Z_pos; lia).
    destruct (fl_bounds (sum / inject_Z (len l)) (inject_Z lo) (inject_Z hi)) as [A1 A2].
    + apply fl_Z. lia.
    + apply fl_Z. lia.
    + apply Qle_shift_div_l; [exact P | exact L].
    + apply Qle_shift_div_r; [exact P | exact U].
    + apply Math_round_between; assumption.
Qed.

Lemma session_of_confidence (feedbackRows : list Row) (row : Row) (s : History.Session) :
  History.session_of feedbackRows row = Normal s ->
  forall f, History.feedback s = Some f ->
            exists frow, In frow feedbackRows /\
                         History.confidenceScore f
                         = Num.or_else (Num.parseInt (get frow "confidenceScore")) 50.
Proof.
  unfold History.session_of. cbv zeta. intros H f Hf.
  destruct (get row "id") as [| |sid]; try discriminate H.
  cbn [bind] in H. apply Normal_inj in H. subst s. cbn [History.feedback] in Hf.
  destruct (find _ feedbackRows) as [frow|] eqn:F; [|discriminate Hf].
  injection Hf as <-. apply find_some in F as [Hin _].
  exists frow. split; [exact Hin | reflexivity].
Qed.

(** X20. The summary of the history.  Where sorting rearranges the sessions
    and the [confidenceScore] cells of the feedback sheet read as numbers
    from 20 to 100, as [analyzeSession] gives them, the average
    confidence of the summary is an integer from 20 to 100, or it is 0
    where no completed session has feedback; the completed sessions are
    not more than the sessions in total. *)
Theorem history_average_confidence
  (sort : list History.Session -> list History.Session) (uid : jsstring)
  (limit offset : option jsstring) (sessionRows feedbackRows : list Row)
  (r : History.Result) :
  (forall l, Permutation (sort l) l) ->
  (len sessionRows < 2 ^ 32)%Z ->
  (forall f, In f feedbackRows ->
             20 <= Num.or_else (Num.parseInt (get f "confidenceScore")) 50 /\
             Num.or_else (Num.parseInt (get f "confidenceScore")) 50 <= 100) ->
  History.sessions_history sort uid limit offset (Some sessionRows) (Some feedbackRows)
  = History.Json200 r ->
  (0 <= History.completedSessions (History.summary r)
   <= History.totalSessions (History.summary r))%Z /\
  History.totalSessions (History.summary r) = History.total (History.pagination r) /\
  (History.avgConfidenceScore (History.summary r) = 0%Z \/
   (20 <= History.avgConfidenceScore (History.summary r) <= 100)%Z).
Proof.
  intros Hsort Hlen Hconf H. unfold History.sessions_history in H.
  destruct (mapM _ _) as [l|] eqn:M; [|discriminate H].
  cbv zeta in H. injection H as <-.
  cbn [History.summary History.pagination History.completedSessions
       History.totalSessions History.total History.avgConfidenceScore].
  split; [split; [apply len_nonneg | apply len_filter_le]|]. split; [reflexivity|].
  set (completed := filter _ (sort l)).
  destruct ((0 <? length completed)%nat && existsb History.has_confidence completed)
    eqn:E; [right | now left].
  apply andb_true_iff in E as [_ E].
  set (withc := filter History.has_confidence completed).
  assert (N1 : (0 < len withc)%Z).
  { apply existsb_exists in E as (s & Hs & Hc).
    assert (I : In s withc) by (apply filter_In; now split).
    unfold len. destruct withc; [destruct I | cbn [length]; lia]. }
  assert (N2 : (len withc < 2 ^ 32)%Z).
  { assert (len withc <= len completed)%Z by apply len_filter_le.
    assert (len completed <= len (sort l))%Z by apply len_filter_le.
    assert (len (sort l) = len l)
      by (unfold len; now rewrite (Permutation_length (Hsort l))).
    assert (len l <= len sessionRows)%Z.
    { unfold len. rewrite (mapM_length _ _ _ M).
      apply inj_le, filter_length_le. }
    lia. }
  apply (average_bounds History.confidence_of 20 100 withc); try lia.
  intros s Hs. apply filter_In in Hs as [Hs Hc]. apply filter_In in Hs as [Hs _].
  apply (Permutation_in _ (Hsort l)) in Hs.
  destruct (mapM_In _ _ _ M s Hs) as (row & _ & Frow).
  unfold History.has_confidence in Hc. unfold History.confidence_of.
  destruct (History.feedback s) as [f|] eqn:Ef; [|discriminate Hc].
  destruct (session_of_confidence _ _ _ Frow f Ef) as (frow & Hin & ->).
  exact (Hconf frow Hin).
Qed.

Lemma history_average_confidence_witness :
  (0 <= History.completedSessions (History.summary sample_result)
   <= History.totalSessions (History.summary sample_result))%Z /\
  History.totalSessions (History.summary sample_result)
  = History.total (History.pagination sample_result) /\
  (History.avgConfidenceScore (History.summary sample_result) = 0%Z \/
   (20 <= History.avgConfidenceScore (History.summary sample_result) <= 100)%Z).
Proof.
  apply (history_average_confidence keep_order (lit "u1") None None
           sheet_sessions sheet_feedback sample_result).
  - intros l. apply Permutation_refl.
  - vm_compute. reflexivity.
  - intros f [<-|[<-|[]]]; split; vm_compute; discriminate.
  - vm_compute. reflexivity.
Defined.

(** ** The details of a session *)

Lemma find_filter {A} (p : A -> bool) (l : list A) :
  find p l = hd_error (filter p l).
Proof.
  induction l as [|x l IH]; [reflexivity|]. cbn [find filter].
  destruct (p x); [reflexivity | exact IH].
Qed.

Lemma or_else_defaults (x : option Q) :
  (Num.or_else x 0 = 0 /\ Num.or_else x 50 = 50) \/
  (Num.or_else x 0 = Num.or_else x 50 /\ ~ Num.or_else x 50 == 0).
Proof.
  destruct x as [q|]; [|left; split; reflexivity]. unfold Num.or_else.
  destruct (Qeq_bool q 0) eqn:E; [left; split; reflexivity | right].
  split; [reflexivity|]. intros H. apply Qeq_bool_iff in H. congruence.
Qed.

(** X21. The two answers about one session.  The history and the details
    read the feedback of a session from the same row, the first of its
    identifier, and agree on the filler count, the conversation length and
    the feedback text; where the talk-time ratio or the confidence score of
    that row reads as zero or as no number, the details say 0 and the
    history says 50, and else the two agree. *)
Theorem history_and_details_defaults
  (sort : list Details.Exchange -> list Details.Exchange) (uid sid : jsstring)
  (sessionRows feedbackRows scenarioRows : list Row)
  (d : Details.Result) (row : Row) (s : History.Session) :
  Details.session_details sort uid sid (Some sessionRows) (Some feedbackRows)
                          (Some scenarioRows) = Details.Json200 d ->
  get row "id" = JsString sid ->
  History.session_of feedbackRows row = Normal s ->
  match Details.feedback d, History.feedback s with
  | Some fd, Some fs =>
      Details.aiFeedback fd = History.aiFeedback fs /\
      Details.fillerWordCount fd = History.fillerWordCount fs /\
      Details.conversationLength fd = History.conversationLength fs /\
      ((Details.talkTimeRatio fd = 0 /\ History.talkTimeRatio fs = 50) \/
       (Details.talkTimeRatio fd = History.talkTimeRatio fs /\
        ~ History.talkTimeRatio fs == 0)) /\
      ((Details.confidenceScore fd = 0 /\ History.confidenceScore fs = 50) \/
       (Details.confidenceScore fd = History.confidenceScore fs /\
        ~ History.confidenceScore fs == 0))
  | None, None => True
  | _, _ => False
  end.
Proof.
  intros Hd Hid Hs. unfold Details.session_details in Hd.
  destruct (find _ sessionRows) as [session|]; [|discriminate Hd].
  cbv zeta in Hd. injection Hd as <-. cbn [Details.feedback].
  unfold History.session_of in Hs. rewrite Hid in Hs. cbv zeta in Hs.
  cbn [bind] in Hs. apply Normal_inj in Hs. subst s. cbn [History.feedback].
  rewrite find_filter.
  destruct (filter _ feedbackRows) as [|first rest]; cbn [hd_error]; [exact I|].
  cbn [Details.aiFeedback Details.fillerWordCount Details.conversationLength
       Details.talkTimeRatio Details.confidenceScore
       History.aiFeedback History.fillerWordCount History.conversationLength
       History.talkTimeRatio History.confidenceScore].
  repeat split; apply or_else_defaults.
Qed.

Lemma history_and_details_defaults_witness :
  match Details.feedback sample_details, History.feedback sample_session with
  | Some fd, Some fs =>
      Details.aiFeedback fd = History.aiFeedback fs /\
      Details.fillerWordCount fd = History.fillerWordCount fs /\
      Details.conversationLength fd = History.conversationLength fs /\
      ((Details.talkTimeRatio fd = 0 /\ History.talkTimeRatio fs = 50) \/
       (Details.talkTimeRatio fd = History.talkTimeRatio fs /\
        ~ History.talkTimeRatio fs == 0)) /\
      ((Details.confidenceScore fd = 0 /\ History.confidenceScore fs = 50) \/
       (Details.confidenceScore fd = History.confidenceScore fs /\
        ~ History.confidenceScore fs == 0))
  | None, None => True
  | _, _ => False
  end.
Proof.
  apply (history_and_details_defaults keep_order (lit "u1") (lit "session_1_u1")
           sheet_sessions sheet_feedback [] sample_details
           (hd (mkRow 0 []) sheet_sessions) sample_session);
    vm_compute; reflexivity.
Defined.

(** X22. The details of a session go to its owner only: the answer is the
    session when a row of the sheet has the identifier asked for and the
    identifier of the user who asks, and that row is what the answer
    shows; when no row has both, the answer is 404. *)
Theorem details_only_for_owner
  (sort : list Details.Exchange -> list Details.Exchange) (uid sid : jsstring)
  (sessionRows feedbackRows scenarioRows : list Row) :
  (forall d,
      Details.session_details sort uid sid (Some sessionRows) (Some feedbackRows)
                              (Some scenarioRows) = Details.Json200 d ->
      exists row, In row sessionRows /\
                  get row "id" = JsString sid /\
                  get row "userId" = JsString uid /\
                  Details.id (Details.session d) = JsString sid /\
                  Details.transcript (Details.session d) = get row "transcript") /\
  ((forall row, In row sessionRows -> get row "id" = JsString sid ->
                get row "userId" <> JsString uid) ->
   Details.session_details sort uid sid (Some sessionRows) (Some feedbackRows)
                           (Some scenarioRows) = Details.Error404).
Proof.
  unfold Details.session_details. split.
  - intros d H.
    destruct (find _ sessionRows) as [session|] eqn:F; [|discriminate H].
    apply find_some in F as [Hin Hp]. apply andb_true_iff in Hp as [Hi Hu].
    apply strict_eq_string in Hi, Hu. cbv zeta in H. injection H as <-.
    exists session. cbn [Details.session Details.id Details.transcript].
    repeat split; assumption.
  - intros H. destruct (find _ sessionRows) as [session|] eqn:F; [|reflexivity].
    apply find_some in F as [Hin Hp]. apply andb_true_iff in Hp as [Hi Hu].
    apply strict_eq_string in Hi, Hu. destruct (H session Hin Hi Hu).
Qed.

Lemma details_only_for_owner_witness :
  Details.session_details keep_order (lit "u2") (lit "session_1_u1")
    (Some sheet_sessions) (Some sheet_feedback) (Some []) = Details.Error404.
Proof.
  apply (proj2 (details_only_for_owner keep_order (lit "u2") (lit "session_1_u1")
                  sheet_sessions sheet_feedback [])).
  intros row [<-|[<-|[<-|[<-|[]]]]]; vm_compute; intros; discriminate.
Defined.

(** ** The list of scenarios *)

Lemma truthy_or_else (a b : JsValue) : truthy b = true -> truthy (or_else a b) = true.
Proof. intros H. unfold or_else. destruct (truthy a) eqn:E; assumption. Qed.

Lemma toString_nonempty (n : Z) : Num.toString n <> [].
Proof.
  destruct n as [|p|p]; try discriminate.
  apply (proj2 (toString_digits (Z.pos p) ltac:(lia))).
Qed.

Lemma truthy_nonempty (s : jsstring) : s <> [] -> truthy (JsString s) = true.
Proof. destruct s; [congruence | reflexivity]. Qed.

Lemma or_else_nonzero (x : option Q) (d : Q) : ~ d == 0 -> ~ Num.or_else x d == 0.
Proof.
  intros Hd. unfold Num.or_else. destruct x as [q|]; [|exact Hd].
  destruct (Qeq_bool q 0) eqn:E; [exact Hd|].
  intros H. apply Qeq_bool_iff in H. congruence.
Qed.

Lemma scenario_of_fields {J} (JSON_parse : jsstring -> completion J) (empty_array : J)
                         (row : Row) :
  match Scenarios.scenario_of JSON_parse empty_array row with
  | Some s =>
      truthy (get row "title") = true /\
      Scenarios.title s = get row "title" /\
      forallb truthy (text_fields s) = true /\
      ~ Scenarios.estimated_duration s == 0 /\
      Scenarios.is_active s
      = negb (strict_eq (get row "is_active") (JsString (lit "FALSE")))
  | None => truthy (get row "title") = false
  end.
Proof.
  unfold Scenarios.scenario_of. cbv zeta.
  destruct (truthy (get row "title")) eqn:T; cbn [negb]; [|reflexivity].
  cbn [Scenarios.title Scenarios.estimated_duration Scenarios.is_active].
  repeat split.
  - unfold text_fields.
    cbn [forallb Scenarios.scenario_id Scenarios.id Scenarios.title
         Scenarios.description Scenarios.difficulty Scenarios.category
         Scenarios.ai_character_name Scenarios.ai_character_role
         Scenarios.ai_character_personality Scenarios.ai_character_background
         Scenarios.sales_skill_area Scenarios.buyer_persona Scenarios.google_ads_focus
         Scenarios.business_vertical Scenarios.campaign_complexity
         Scenarios.success_metrics Scenarios.coaching_focus
         Scenarios.scenario_objectives Scenarios.ai_prompts].
    repeat (apply andb_true_iff; split);
      try exact T; try reflexivity; try (apply truthy_or_else; reflexivity).
    apply truthy_or_else, truthy_nonempty, toString_nonempty.
  - apply or_else_nonzero. discriminate.
Qed.

(** X23. The list of scenarios holds one scenario for each row with a title,
    in the order of the rows, and leaves out the rows without one, whatever
    [JSON.parse] does with the objections.  In a scenario of the list no
    text is empty: both identifiers, the title and the sixteen texts with a
    default; the estimated duration is not 0; and a scenario is inactive
    only where its [is_active] cell is [FALSE] in capitals. *)
Theorem scenarios_listed {J} (JSON_parse : jsstring -> completion J) (empty_array : J)
                         (rows : list Row) :
  exists l,
    Scenarios.list_scenarios JSON_parse empty_array (Some rows) = Scenarios.Json200 l /\
    map Scenarios.title l = filter truthy (map (fun row => get row "title") rows) /\
    (forall s, In s l ->
               forallb truthy (text_fields s) = true /\
               ~ Scenarios.estimated_duration s == 0 /\
               exists row, In row rows /\
                           Scenarios.scenario_of JSON_parse empty_array row = Some s /\
                           (Scenarios.is_active s = false <->
                            get row "is_active" = JsString (lit "FALSE"))).
Proof.
  unfold Scenarios.list_scenarios. eexists. split; [reflexivity|]. split.
  - induction rows as [|row rows IH]; [reflexivity|]. cbn [flat_map map filter].
    pose proof (scenario_of_fields JSON_parse empty_array row) as F.
    destruct (Scenarios.scenario_of JSON_parse empty_array row) as [s|].
    + destruct F as (T & E & _). rewrite T. cbn [app map]. now rewrite E, IH.
    + rewrite F. exact IH.
  - intros s Hs. apply in_flat_map in Hs as (row & Hrow & Hs).
    pose proof (scenario_of_fields JSON_parse empty_array row) as F.
    destruct (Scenarios.scenario_of JSON_parse empty_array row) as [s'|] eqn:E;
      [|destruct Hs].
    destruct Hs as [<-|[]]. destruct F as (_ & _ & Ft & Fd & Fa).
    split; [exact Ft|]. split; [exact Fd|].
    exists row. split; [exact Hrow|]. split; [exact E|].
    rewrite Fa. split.
    + intros H. apply negb_false_iff in H. now apply strict_eq_string.
    + intros ->. reflexivity.
Qed.

(** *** The objections of a scenario *)

Lemma strip_outer_brackets_bare (body : jsstring) :
  startsWith body (lit "[") = false -> startsWith (rev body) (lit "]") = false ->
  strip_outer_brackets body = body.
Proof.
  intros H1 H2. unfold strip_outer_brackets.
  assert (E : match body with
              | c :: s' => if Ascii.eqb c "[" then s' else body
              | [] => []
              end = body).
  { destruct body as [|c s]; [reflexivity|]. cbn [startsWith lit list_ascii_of_string] in H1.
    rewrite Ascii.eqb_sym. destruct (Ascii.eqb "[" c); [|reflexivity].
    destruct s; discriminate H1. }
  rewrite E. destruct (rev body) as [|c r]; [reflexivity|].
  cbn [startsWith lit list_ascii_of_string] in H2.
  rewrite Ascii.eqb_sym. destruct (Ascii.eqb "]" c); [|reflexivity].
  destruct r; discriminate H2.
Qed.

Lemma strip_outer_brackets_wrapped (body : jsstring) :
  strip_outer_brackets ("["%char :: body ++ lit "]") = body.
Proof.
  unfold strip_outer_brackets. cbn [Ascii.eqb Bool.eqb].
  rewrite rev_app_distr. cbn [lit list_ascii_of_string rev app Ascii.eqb Bool.eqb].
  apply rev_involutive.
Qed.

Lemma parse_objections_string {J} (JSON_parse : jsstring -> completion J)
                              (empty_array : J) (row : Row) (v : jsstring) :
  get row "key_objections" = JsString v -> v <> [] ->
  Scenarios.parse_objections JSON_parse empty_array row
  = match JSON_parse (clean_objections v) with
    | Normal keyObjections => keyObjections
    | Throw _ => empty_array
    end.
Proof.
  intros H Hv. unfold Scenarios.parse_objections. rewrite H. cbv zeta.
  destruct v; [congruence | reflexivity].
Qed.

(** X24. The square brackets around the objections of a scenario are
    optional.  For a text without an apostrophe that neither starts with an
    opening bracket nor ends with a closing one, the cell may hold the text
    or the text in square brackets: [JSON.parse] is handed the text in
    square brackets in both cases, so the objections of the two rows are
    the same. *)
Theorem objections_brackets_optional {J} (JSON_parse : jsstring -> completion J)
                                     (empty_array : J) (body : jsstring)
                                     (bare wrapped : Row) :
  forallb (fun c => negb (Ascii.eqb c "'")) body = true ->
  startsWith body (lit "[") = false ->
  startsWith (rev body) (lit "]") = false ->
  body <> [] ->
  get bare "key_objections" = JsString body ->
  get wrapped "key_objections" = JsString (lit "[" ++ body ++ lit "]") ->
  clean_objections body = lit "[" ++ body ++ lit "]" /\
  clean_objections (lit "[" ++ body ++ lit "]") = lit "[" ++ body ++ lit "]" /\
  Scenarios.parse_objections JSON_parse empty_array bare
  = Scenarios.parse_objections JSON_parse empty_array wrapped.
Proof.
  intros Ha Hs He Hne Hb Hw.
  assert (M : forall s, forallb (fun c => negb (Ascii.eqb c "'")) s = true ->
                        map (fun c => if Ascii.eqb c "'" then double_quote else c) s = s).
  { induction s as [|c s IH]; [reflexivity|]. cbn [forallb map]. intros H.
    apply andb_true_iff in H as [Hc H]. apply negb_true_iff in Hc.
    now rewrite Hc, (IH H). }
  assert (C1 : clean_objections body = lit "[" ++ body ++ lit "]").
  { unfold clean_objections. cbv zeta. rewrite (M body Ha).
    rewrite (strip_outer_brackets_bare body Hs He). now rewrite Hs. }
  assert (C2 : clean_objections (lit "[" ++ body ++ lit "]") = lit "[" ++ body ++ lit "]").
  { unfold clean_objections. cbv zeta. rewrite M.
    - change (lit "[" ++ body ++ lit "]") with ("["%char :: body ++ lit "]").
      rewrite strip_outer_brackets_wrapped. now rewrite Hs.
    - change (lit "[" ++ body ++ lit "]") with ("["%char :: body ++ lit "]").
      cbn [forallb]. rewrite forallb_app, Ha. reflexivity. }
  split; [exact C1|]. split; [exact C2|].
  rewrite (parse_objections_string JSON_parse empty_array bare body Hb Hne).
  rewrite (parse_objections_string JSON_parse empty_array wrapped _ Hw)
    by discriminate.
  now rewrite C1, C2.
Qed.

Lemma scenarios_listed_witness :
  exists l,
    Scenarios.list_scenarios (fun _ => Throw TypeError) tt
      (Some [row 2 [("title", "Cold call"); ("is_active", "FALSE")];
             row 3 [("description", "no title")];
             row 4 [("title", "Budget talk"); ("is_active", "false")]]%string)
    = Scenarios.Json200 l /\
    map Scenarios.title l = [JsString (lit "Cold call"); JsString (lit "Budget talk")] /\
    map Scenarios.is_active l = [false; true].
Proof.
  destruct (scenarios_listed (fun _ => Throw TypeError) tt
              [row 2 [("title", "Cold call"); ("is_active", "FALSE")];
               row 3 [("description", "no title")];
               row 4 [("title", "Budget talk"); ("is_active", "false")]]%string)
    as (l & E & T & _).
  exists l. split; [exact E|]. split; [rewrite T; reflexivity|].
  unfold Scenarios.list_scenarios in E. injection E as <-. reflexivity.
Defined.

Lemma objections_brackets_optional_witness :
  clean_objections (lit "1, 2") = lit "[1, 2]" /\
  clean_objections (lit "[1, 2]") = lit "[1, 2]" /\
  Scenarios.parse_objections (fun text => Normal text) []
                             (row 2 [("key_objections", "1, 2")]%string)
  = Scenarios.parse_objections (fun text => Normal text) []
                               (row 3 [("key_objections", "[1, 2]")]%string).
Proof.
  apply (objections_brackets_optional (fun text => Normal text) [] (lit "1, 2")
           (row 2 [("key_objections", "1, 2")]%string)
           (row 3 [("key_objections", "[1, 2]")]%string));
    try reflexivity.
  discriminate.
Defined.

(** ** The reply of the chat *)

Lemma after_group_suffix (s rest : jsstring) :
  Chat.after_group s = Some rest ->
  exists w, s = w ++ rest /\ (length s - length rest)%nat = length w /\ w <> [].
Proof.
  revert rest. induction s as [|c s IH]; intros rest H; [discriminate|].
  cbn [Chat.after_group] in H. destruct (Ascii.eqb c "]").
  - injection H as <-. exists [c]. cbn [app length]. repeat split; [lia | discriminate].
  - destruct (Chat.is_line_terminator c); [discriminate|].
    destruct (IH rest H) as (w & -> & L & _). exists (c :: w).
    cbn [app length]. repeat split; [|discriminate].
    rewrite length_app in *. lia.
Qed.

Lemma strip_groups_skip (w rest : jsstring) :
  Chat.strip_groups_loop (length w) (w ++ rest) = Chat.strip_groups_loop 0 rest.
Proof. induction w as [|c w IH]; [reflexivity | exact IH]. Qed.

Lemma strip_groups_cons (c : ascii) (s : jsstring) :
  Chat.strip_groups_loop 0 (c :: s) =
  if Ascii.eqb c "["
  then match Chat.after_group s with
       | Some rest => Chat.strip_groups_loop 0 rest
       | None => c :: Chat.strip_groups_loop 0 s
       end
  else c :: Chat.strip_groups_loop 0 s.
Proof.
  cbn [Chat.strip_groups_loop]. destruct (Ascii.eqb c "["); [|reflexivity].
  destruct (Chat.after_group s) as [rest|] eqn:E; [|reflexivity].
  destruct (after_group_suffix s rest E) as (w & -> & -> & _).
  apply strip_groups_skip.
Qed.

Lemma after_group_stripped (s : jsstring) :
  Chat.after_group s = None -> Chat.after_group (Chat.strip_groups_loop 0 s) = None.
Proof.
  induction s as [|c s IH]; intros H; [reflexivity|].
  rewrite strip_groups_cons. cbn [Chat.after_group] in H.
  destruct (Ascii.eqb c "]") eqn:E1; [discriminate|].
  destruct (Chat.is_line_terminator c) eqn:E2.
  - destruct (Ascii.eqb c "[") eqn:E3.
    + apply Ascii.eqb_eq in E3. subst c. discriminate E2.
    + cbn [Chat.after_group]. now rewrite E1, E2.
  - rewrite H. destruct (Ascii.eqb c "["); cbn [Chat.after_group];
      rewrite E1, E2; now apply IH.
Qed.

Lemma strip_groups_no_group (n : nat) :
  forall s, (length s <= n)%nat -> has_group (Chat.strip_groups_loop 0 s) = false.
Proof.
  induction n as [|n IH]; intros s L.
  - destruct s; [reflexivity | simpl in L; lia].
  - destruct s as [|c s]; [reflexivity|]. cbn [length] in L.
    rewrite strip_groups_cons. destruct (Ascii.eqb c "[") eqn:E.
    + destruct (Chat.after_group s) as [rest|] eqn:A.
      * apply IH. destruct (after_group_suffix s rest A) as (w & -> & _ & _).
        rewrite length_app in L. lia.
      * cbn [has_group]. rewrite (after_group_stripped s A), andb_false_r.
        apply IH. lia.
    + cbn [has_group]. rewrite E. apply IH. lia.
Qed.

Lemma no_group_fixed (t : jsstring) :
  has_group t = false -> Chat.strip_groups_loop 0 t = t.
Proof.
  induction t as [|c t IH]; intros H; [reflexivity|].
  cbn [has_group] in H. apply orb_false_iff in H as [H1 H2].
  rewrite strip_groups_cons, (IH H2).
  destruct (Ascii.eqb c "["); [|reflexivity].
  destruct (Chat.after_group t); [discriminate H1 | reflexivity].
Qed.

Lemma specific_reply_length (userMessage : jsstring) (businessVertical : JsValue) :
  (10 <= length (Chat.specific_reply userMessage businessVertical))%nat.
Proof.
  unfold Chat.specific_reply. cbv zeta.
  repeat match goal with
         | |- context [if ?b then _ else _] => destruct b
         end;
    vm_compute; lia.
Qed.

Lemma reply_is_clean (content userMessage : jsstring) (businessVertical : JsValue) :
  let cleaned := Chat.strip_groups (Chat.strip_speaker_label (trim content)) in
  let r := Chat.reply content userMessage businessVertical in
  (10 <= length r)%nat /\
  has_group cleaned = false /\
  Chat.strip_groups cleaned = cleaned /\
  ((r = cleaned /\ Chat.isRepetitive r = false) \/
   (r = Chat.specific_reply userMessage businessVertical /\
    (Chat.isRepetitive cleaned = true \/ (length cleaned < 10)%nat))).
Proof.
  intros cleaned r.
  assert (G : has_group cleaned = false)
    by (apply (strip_groups_no_group (length (Chat.strip_speaker_label (trim content))));
        lia).
  subst r. unfold Chat.reply. cbv zeta. fold cleaned.
  destruct (Chat.isRepetitive cleaned) eqn:R; cbn [orb].
  - repeat split; try assumption.
    + apply specific_reply_length.
    + now apply no_group_fixed.
    + right. split; [reflexivity | now left].
  - destruct (length cleaned <? 10)%nat eqn:L.
    + apply Nat.ltb_lt in L. repeat split; try assumption.
      * apply specific_reply_length.
      * now apply no_group_fixed.
      * right. split; [reflexivity | now right].
    + apply Nat.ltb_ge in L. repeat split; try assumption.
      * now apply no_group_fixed.
      * left. split; [reflexivity | exact R].
Qed.

(** X25. The reply of the chat.  The brackets of the model's text are taken
    out for good: what is left holds no opening bracket with a closing one
    after it on its line, and taking the brackets out once more changes
    nothing.  The reply is that text, and then it is at least 10 code units
    long and contains none of the five repetitive phrases, or else it is
    the reply made up from the user's message; in both cases it is at
    least 10 code units long. *)
Theorem chat_reply_is_clean (content userMessage : jsstring) (businessVertical : JsValue) :
  let cleaned := Chat.strip_groups (Chat.strip_speaker_label (trim content)) in
  let r := Chat.reply content userMessage businessVertical in
  (10 <= length r)%nat /\
  has_group cleaned = false /\
  Chat.strip_groups cleaned = cleaned /\
  ((r = cleaned /\ Chat.isRepetitive r = false) \/
   (r = Chat.specific_reply userMessage businessVertical /\
    (Chat.isRepetitive cleaned = true \/ (length cleaned < 10)%nat))).
Proof. exact (reply_is_clean content userMessage businessVertical). Qed.

(** ** The messages of the chat *)

Lemma fold_push (l : list Turn) :
  forall acc,
    fold_left (fun messages msg =>
                 if is_user msg
                 then push messages (Chat.mkMessage Chat.user (message msg))
                 else if Chat.is_ai msg
                      then push messages (Chat.mkMessage Chat.assistant (message msg))
                      else messages) l acc
    = acc ++ flat_map message_of l.
Proof.
  induction l as [|msg l IH]; intros acc; cbn [fold_left flat_map].
  - now rewrite app_nil_r.
  - rewrite IH. unfold message_of at 2, push.
    destruct (is_user msg); [now rewrite <- app_assoc|].
    destruct (Chat.is_ai msg); [now rewrite <- app_assoc | reflexivity].
Qed.

Lemma flat_map_message_length (l : list Turn) :
  (length (flat_map message_of l) <= length l)%nat.
Proof.
  induction l as [|msg l IH]; [simpl; lia|]. cbn [flat_map]. rewrite length_app.
  unfold message_of at 1. destruct (is_user msg); [simpl; lia|].
  destruct (Chat.is_ai msg); simpl; lia.
Qed.

(** X26. The messages the chat hands to the model: the system prompt, then
    one message for each turn among the last four of the history whose
    speaker is ['user'] or ['ai'], as user and as assistant, in their order,
    then the message of the request as user.  Turns of any other speaker
    are left out; there are two messages at least and six at most. *)
Theorem chat_messages_window (systemPrompt : jsstring) (conversationHistory : list Turn)
                             (userMessage : jsstring) :
  let recent := skipn (length conversationHistory - 4) conversationHistory in
  Chat.messages systemPrompt conversationHistory userMessage
  = Chat.mkMessage Chat.system (JsString systemPrompt)
    :: flat_map message_of recent ++ [Chat.mkMessage Chat.user (JsString userMessage)] /\
  (2 <= length (Chat.messages systemPrompt conversationHistory userMessage) <= 6)%nat.
Proof.
  intros recent.
  assert (E : Chat.messages systemPrompt conversationHistory userMessage
              = Chat.mkMessage Chat.system (JsString systemPrompt)
                :: flat_map message_of recent
                   ++ [Chat.mkMessage Chat.user (JsString userMessage)]).
  { unfold Chat.messages. cbv zeta. rewrite fold_push. unfold push.
    cbn [app]. do 3 f_equal. unfold recent, Chat.slice_from. f_equal.
    unfold relative_index, len. cbn [Z.ltb Z.compare].
    destruct (Z_le_gt_dec (Z.of_nat (length conversationHistory)) 4); lia. }
  split; [exact E|]. rewrite E. cbn [length]. rewrite length_app. cbn [length].
  pose proof (flat_map_message_length recent) as L.
  assert (length recent <= 4)%nat by (unfold recent; rewrite length_skipn; lia).
  lia.
Qed.

(** ** The analysis of the first server file *)

Lemma two_decimals_bounds (x : Q) :
  0 <= x -> x <= 1 ->
  0 <= AnalysisService.two_decimals x /\ AnalysisService.two_decimals x <= 1 /\
  exists n, (0 <= n <= 100)%Z /\ AnalysisService.two_decimals x = fl (inject_Z n / 100).
Proof.
  intros H0 H1. unfold AnalysisService.two_decimals.
  set (n := Qfloor (x * 100 + (1 # 2))).
  assert (Hn : (0 <= n <= 100)%Z).
  { subst n.
    assert (L : (Qfloor 0 <= Qfloor (x * 100 + (1 # 2)))%Z)
      by (apply Qfloor_resp_le; lra).
    assert (U : (Qfloor (x * 100 + (1 # 2)) <= Qfloor (100 + (1 # 2)))%Z)
      by (apply Qfloor_resp_le; lra).
    change (Qfloor 0) with 0%Z in L. change (Qfloor (100 + (1 # 2))) with 100%Z in U.
    split; assumption. }
  assert (N0 : 0 <= inject_Z n) by (change 0 with (inject_Z 0); rewrite <- Zle_Qle; lia).
  assert (N1 : inject_Z n <= 100) by (change 100 with (inject_Z 100); rewrite <- Zle_Qle; lia).
  destruct (fl_bounds (inject_Z n / 100) 0 1) as [A B];
    try reflexivity; try (apply Qle_shift_div_l; lra); try (apply Qle_shift_div_r; lra).
  repeat split; try assumption. exists n. split; [exact Hn | reflexivity].
Qed.

Lemma without_punctuation_no_space (w : jsstring) :
  Forall (fun c => is_space c = false) w ->
  AnalysisService.without_punctuation w <> lit "you know".
Proof.
  intros H E.
  assert (I : In " "%char (AnalysisService.without_punctuation w))
    by (rewrite E; cbn; do 3 right; now left).
  unfold AnalysisService.without_punctuation in I. apply filter_In in I as [I _].
  rewrite Forall_forall in H. specialize (H _ I). discriminate H.
Qed.

(** X29. [analyzeTranscript] of the first server file.  For a transcript
    that is a string it counts at least one word, so its ratio never
    divides by zero; the filler count is at most the word count, which is
    the speaking pace; the confidence is the double nearest to [n / 100]
    for an integer [n] from 0 to 100.  The two-word filler [you know] is
    never counted, a word holding no white space.  A transcript that is no
    string makes it throw. *)
Theorem analyze_transcript_bounds (transcript : jsstring) :
  exists m,
    AnalysisService.analyzeTranscript (JsString transcript) = Normal m /\
    (1 <= AnalysisService.speakingPace m)%Z /\
    (0 <= AnalysisService.fillerWordCount m <= AnalysisService.speakingPace m)%Z /\
    0 <= AnalysisService.confidence m /\ AnalysisService.confidence m <= 1 /\
    (exists n, (0 <= n <= 100)%Z /\
               AnalysisService.confidence m = fl (inject_Z n / 100)) /\
    AnalysisService.fillerWordCount m
    = len (filter (fun word =>
                     GoogleAds.array_includes
                       (map lit ["um"; "uh"; "like"; "so"; "actually"; "basically"]%string)
                       (AnalysisService.without_punctuation word))
                  (split_runs is_space (toLowerCase transcript))) /\
    AnalysisService.analyzeTranscript JsUndefined = Throw TypeError /\
    AnalysisService.analyzeTranscript JsNull = Throw TypeError.
Proof.
  unfold AnalysisService.analyzeTranscript. cbv zeta. eexists.
  split; [reflexivity|].
  cbn [AnalysisService.speakingPace AnalysisService.fillerWordCount
       AnalysisService.confidence].
  set (words := split_runs is_space (toLowerCase transcript)).
  assert (W1 : (1 <= len words)%Z).
  { unfold len, words, split_runs.
    pose proof (split_loop_length is_space (toLowerCase transcript) [] false). lia. }
  set (x := Qmax 0 (Qmin 1 _)).
  assert (X0 : 0 <= x) by apply Q.le_max_l.
  assert (X1 : x <= 1) by (apply Q.max_lub; [discriminate | apply Q.le_min_l]).
  destruct (two_decimals_bounds x X0 X1) as (C0 & C1 & Cn).
  split; [exact W1|]. split; [split; [apply len_nonneg | apply len_filter_le]|].
  split; [exact C0|]. split; [exact C1|]. split; [exact Cn|].
  split; [|split; reflexivity].
  f_equal. apply filter_ext_in. intros w Hw.
  assert (S : Forall (fun c => is_space c = false) w).
  { pose proof (split_loop_no_sep is_space (toLowerCase transcript) [] false
                  (Forall_nil _)) as F.
    rewrite Forall_forall in F. exact (F w Hw). }
  pose proof (without_punctuation_no_space w S) as N.
  unfold GoogleAds.array_includes, AnalysisService.fillerWords.
  cbn [map existsb].
  destruct (list_eq_dec ascii_dec (lit "you know") (AnalysisService.without_punctuation w))
    as [E|_]; [now destruct N | reflexivity].
Qed.

(** * Any value of the request body *)

(** ** Reading the elements of a history *)

Lemma bind_throws {A B} (m : completion A) (k : A -> completion B) :
  (forall a, k a = Throw TypeError) -> bind m k = Throw TypeError.
Proof.
  intros H. destruct m as [a|e]; cbn [bind]; [apply H | now rewrite (error_unique e)].
Qed.

Lemma property_field (v : Request.Value) (name : string) :
  nullish v = false -> Request.property v name = Normal (field v name).
Proof. destruct v; intros H; try discriminate H; reflexivity. Qed.

Lemma property_nullish (v : Request.Value) (name : string) :
  nullish v = true -> Request.property v name = Throw TypeError.
Proof. destruct v; intros H; try discriminate H; reflexivity. Qed.

Lemma user_turn_not_nullish (v : Request.Value) : user_turn v = true -> nullish v = false.
Proof. destruct v; intros H; try discriminate H; reflexivity. Qed.

Lemma is_user_readable (v : Request.Value) :
  nullish v = false -> Request.is_user v = Normal (user_turn v).
Proof. intros H. unfold Request.is_user. now rewrite (property_field _ _ H). Qed.

Lemma is_user_nullish (v : Request.Value) :
  nullish v = true -> Request.is_user v = Throw TypeError.
Proof. intros H. unfold Request.is_user. now rewrite (property_nullish _ _ H). Qed.

Lemma filterM_is_user (elements : list Request.Value) :
  filterM Request.is_user elements =
  if readable elements then Normal (filter user_turn elements) else Throw TypeError.
Proof.
  induction elements as [|v l IH]; [reflexivity|].
  cbn [filterM readable forallb filter]. fold (readable l).
  destruct (nullish v) eqn:E; cbn [negb andb].
  - now rewrite (is_user_nullish _ E).
  - rewrite (is_user_readable _ E). cbn [bind]. rewrite IH.
    destruct (readable l); [|reflexivity]. cbn [bind]. reflexivity.
Qed.

Lemma user_turn_of (v : Request.Value) : is_user (turn_of v) = user_turn v.
Proof.
  unfold is_user, turn_of, user_turn, Request.is_text. cbn [speaker].
  destruct (field v "speaker"); reflexivity.
Qed.

Lemma filter_user_turns (elements : list Request.Value) :
  filter is_user (map turn_of elements) = map turn_of (filter user_turn elements).
Proof.
  induction elements as [|v l IH]; [reflexivity|].
  cbn [map filter]. rewrite user_turn_of, IH. now destruct (user_turn v).
Qed.

Lemma filter_user_turn_In (elements : list Request.Value) (v : Request.Value) :
  In v (filter user_turn elements) -> nullish v = false.
Proof. intros H. apply filter_In in H as [_ H]. now apply user_turn_not_nullish. Qed.

(** ** The text of the trainee turns *)

Lemma mapM_ext_in {A B} (f g : A -> completion B) (l : list A) :
  (forall x, In x l -> f x = g x) -> mapM f l = mapM g l.
Proof.
  induction l as [|x l IH]; intros H; [reflexivity|].
  cbn [mapM]. rewrite (H x (or_introl eq_refl)), IH; [reflexivity|].
  intros y Hy. apply H. now right.
Qed.

Lemma mapM_pure {A B} (f : A -> B) (l : list A) :
  mapM (fun x => Normal (f x)) l = Normal (map f l).
Proof. induction l as [|x l IH]; [reflexivity|]. cbn [mapM bind map]. now rewrite IH. Qed.

Lemma filterM_ext_in {A} (f g : A -> completion bool) (l : list A) :
  (forall x, In x l -> f x = g x) -> filterM f l = filterM g l.
Proof.
  induction l as [|x l IH]; intros H; [reflexivity|].
  cbn [filterM]. rewrite (H x (or_introl eq_refl)), IH; [reflexivity|].
  intros y Hy. apply H. now right.
Qed.

Lemma messages_of_user_turns (us : list Request.Value) :
  (forall v, In v us -> nullish v = false) ->
  mapM (fun msg => Request.property msg "message") us
  = Normal (map (fun v => field v "message") us).
Proof.
  intros H. rewrite <- mapM_pure. apply mapM_ext_in.
  intros v Hv. now apply property_field, H.
Qed.

Section Texts.

Context {N : Request.NumberToString}.

Lemma join_texts (sep : jsstring) (us : list Request.Value) :
  forallb is_text_value us = true ->
  Request.join sep us = Normal (join sep (map (fun v => join_text (cell_of v)) us)).
Proof.
  induction us as [|v l IH]; intros H; [reflexivity|].
  cbn [forallb] in H. apply andb_true_iff in H as [Hv Hl].
  destruct v; try discriminate Hv.
  cbn [Request.join Request.element_text Request.to_string bind map cell_of join_text].
  destruct l as [|w l]; [reflexivity|].
  rewrite (IH Hl). cbn [bind map join]. reflexivity.
Qed.

Lemma joined_messages_texts (us : list Request.Value) :
  (forall v, In v us -> nullish v = false) ->
  forallb (fun v => is_text_value (field v "message")) us = true ->
  Request.joined_messages us
  = Normal (join (lit " ") (map (fun msg => join_text (message msg)) (map turn_of us))).
Proof.
  intros Hn Ht. unfold Request.joined_messages.
  rewrite (messages_of_user_turns us Hn). cbn [bind].
  rewrite join_texts.
  - now rewrite !map_map.
  - rewrite forallb_forall in *. intros x Hx. apply in_map_iff in Hx as (v & <- & Hv).
    now apply Ht.
Qed.

End Texts.

(** ** The callbacks of the counting filters *)

Lemma lower_includes_any_text (m : jsstring) (keys : list jsstring) :
  Request.lower_includes_any (Request.VString m) keys
  = lower_includes_any (JsString m) keys.
Proof.
  induction keys as [|k keys IH]; [reflexivity|].
  destruct keys as [|k' keys]; [reflexivity|].
  change (Request.lower_includes_any (Request.VString m) (k :: k' :: keys))
    with (orM (Request.call_lower_includes (Request.VString m) k)
              (Request.lower_includes_any (Request.VString m) (k' :: keys))).
  rewrite IH. reflexivity.
Qed.

Lemma lower_includes_any_no_text (v : Request.Value) (k : jsstring)
                                 (keys : list jsstring) :
  is_text_value v = false -> Request.lower_includes_any v (k :: keys) = Throw TypeError.
Proof. intros H. destruct v; try discriminate H; destruct keys; reflexivity. Qed.

Lemma message_of_turn (v : Request.Value) (m : jsstring) :
  field v "message" = Request.VString m -> message (turn_of v) = JsString m.
Proof. intros H. unfold turn_of. cbn [message]. now rewrite H. Qed.

Lemma text_value_inv (v : Request.Value) :
  is_text_value v = true -> exists m, v = Request.VString m.
Proof. destruct v; intros H; try discriminate H. now eexists. Qed.

Lemma is_discovery_question_turn (keys : list jsstring) (v : Request.Value) :
  nullish v = false -> is_text_value (field v "message") = true ->
  Request.is_discovery_question keys v
  = andM (call_includes (message (turn_of v)) (lit "?"))
         (lower_includes_any (message (turn_of v)) keys).
Proof.
  intros Hn Ht. destruct (text_value_inv _ Ht) as [m Hm].
  unfold Request.is_discovery_question.
  rewrite (property_field _ _ Hn), Hm, (message_of_turn _ _ Hm). cbn [bind].
  now rewrite lower_includes_any_text.
Qed.

Lemma mentions_turn (keys : list jsstring) (v : Request.Value) :
  nullish v = false -> is_text_value (field v "message") = true ->
  Request.mentions keys v = lower_includes_any (message (turn_of v)) keys.
Proof.
  intros Hn Ht. destruct (text_value_inv _ Ht) as [m Hm].
  unfold Request.mentions.
  rewrite (property_field _ _ Hn), Hm, (message_of_turn _ _ Hm). cbn [bind].
  apply lower_includes_any_text.
Qed.

Lemma mentions_no_text (k : jsstring) (keys : list jsstring) (v : Request.Value) :
  is_text_value (field v "message") = false ->
  Request.mentions (k :: keys) v = Throw TypeError.
Proof.
  intros Ht. unfold Request.mentions.
  destruct (nullish v) eqn:Hn.
  - now rewrite (property_nullish _ _ Hn).
  - rewrite (property_field _ _ Hn). cbn [bind].
    now apply lower_includes_any_no_text.
Qed.

Lemma filter_map_len {A B} (g : A -> B) (p : B -> bool) (l : list A) :
  len (filter (fun x => p (g x)) l) = len (filter p (map g l)).
Proof.
  unfold len. f_equal.
  induction l as [|x l IH]; [reflexivity|].
  cbn [filter map]. destruct (p (g x)); cbn [length]; now rewrite IH.
Qed.

Lemma len_map {A B} (g : A -> B) (l : list A) : len (map g l) = len l.
Proof. unfold len. now rewrite length_map. Qed.

(** A filter over trainee turns with string messages counts what the filter
    of the turns counts. *)
Lemma filterM_turns (F : Request.Value -> completion bool) (G : Turn -> completion bool)
                    (us : list Request.Value) :
  (forall v, In v us -> F v = G (turn_of v)) ->
  forallb (fun x => returns (G x)) (map turn_of us) = true ->
  exists r, filterM F us = Normal r /\
            len r = len (filter (fun x => value_of (G x)) (map turn_of us)).
Proof.
  intros HF HG.
  rewrite (filterM_ext_in F (fun v => G (turn_of v)) us HF).
  rewrite (filterM_returns (fun v => G (turn_of v)) us).
  - eexists. split; [reflexivity|].
    exact (filter_map_len turn_of (fun x => value_of (G x)) us).
  - rewrite forallb_forall in *. intros v Hv. apply HG. now apply in_map.
Qed.

Lemma filterM_mentions_throws (k : jsstring) (keys : list jsstring)
                              (us : list Request.Value) :
  forallb (fun v => is_text_value (field v "message")) us = false ->
  filterM (Request.mentions (k :: keys)) us = Throw TypeError.
Proof.
  intros H. apply filterM_throws.
  induction us as [|v l IH]; [discriminate H|].
  cbn [forallb] in *. destruct (is_text_value (field v "message")) eqn:E.
  - cbn [andb] in H. rewrite (IH H). apply andb_false_r.
  - now rewrite (mentions_no_text _ _ _ E).
Qed.

Lemma well_formed_turns (elements : list Request.Value) :
  well_formed (map turn_of elements)
  = forallb (fun v => is_text_value (field v "message")) (filter user_turn elements).
Proof.
  unfold well_formed. rewrite filter_user_turns.
  induction (filter user_turn elements) as [|v l IH]; [reflexivity|].
  cbn [map forallb]. rewrite IH. f_equal.
  unfold turn_of. cbn [message]. now destruct (field v "message").
Qed.

Lemma is_zero_len {A} (l : list A) :
  Request.is_zero (Request.VNumber (Request.Finite (inject_Z (len l))))
  = (length l =? 0)%nat.
Proof. destruct l; reflexivity. Qed.

Section Analysis.

Context {N : Request.NumberToString}.

(** On a well-formed array the analysis builds the object of the turns. *)
Lemma analyzeSession_well_formed (t : Request.Value) (v : Request.Value)
                                 (l : list Request.Value) :
  well_formed_array (v :: l) = true ->
  Request.analyzeSession t (Request.VArray (v :: l))
  = Normal (analysis_of (transcript_of t) (map turn_of (v :: l))).
Proof.
  intros W. set (elements := v :: l) in *.
  apply andb_true_iff in W as [R T].
  assert (Hn : forall x, In x (filter user_turn elements) -> nullish x = false)
    by (intros x; apply filter_user_turn_In).
  pose proof T as T'. rewrite <- well_formed_turns in T'.
  destruct (well_formed_filters _ T') as (H1 & H2 & H3).
  rewrite filter_user_turns in H1, H2, H3.
  assert (P : forall keys x, In x (filter user_turn elements) ->
                Request.mentions keys x = lower_includes_any (message (turn_of x)) keys).
  { intros keys x Hx. apply mentions_turn; [now apply Hn|].
    rewrite forallb_forall in T. now apply T. }
  destruct (filterM_turns (Request.is_discovery_question discoveryKeywords)
                          is_discovery_question (filter user_turn elements))
    as (dq & Edq & Ldq); [|exact H1|].
  { intros x Hx. apply is_discovery_question_turn; [now apply Hn|].
    rewrite forallb_forall in T. now apply T. }
  destruct (filterM_turns (Request.mentions objectionPhrases)
                          (fun msg => lower_includes_any (message msg) objectionPhrases)
                          _ (P _) H2) as (oh & Eoh & Loh).
  destruct (filterM_turns (Request.mentions businessValueKeywords)
                          (fun msg => lower_includes_any (message msg)
                                                         businessValueKeywords)
                          _ (P _) H3) as (bv & Ebv & Lbv).
  unfold Request.analyzeSession.
  cbn [Request.length_of bind]. rewrite is_zero_len, andb_false_r.
  change (0 <? length elements)%nat with true. cbv iota.
  rewrite filterM_is_user, R. cbn [bind].
  rewrite (joined_messages_texts _ Hn T). cbn [bind].
  rewrite Edq, Eoh, Ebv. cbn [bind]. cbv zeta.
  rewrite Ldq, Loh, Lbv.
  unfold analysis_of, textToAnalyze. cbv zeta.
  rewrite filter_user_turns, !len_map.
  change (0 <? length (map turn_of elements))%nat with true. cbv iota.
  reflexivity.
Qed.

(** With a trainee turn that has no string message, or an element that
    cannot be read, it throws. *)
Lemma analyzeSession_ill_formed (t : Request.Value) (v : Request.Value)
                                (l : list Request.Value) :
  well_formed_array (v :: l) = false ->
  Request.analyzeSession t (Request.VArray (v :: l)) = Throw TypeError.
Proof.
  intros W. set (elements := v :: l) in *.
  unfold Request.analyzeSession.
  cbn [Request.length_of bind]. rewrite is_zero_len, andb_false_r.
  change (0 <? length elements)%nat with true. cbv iota.
  rewrite filterM_is_user.
  destruct (readable elements) eqn:R; [|reflexivity].
  unfold well_formed_array in W. rewrite R in W. cbn [andb] in W.
  cbn [bind].
  apply bind_throws. intros text. destruct text; try reflexivity.
  cbv zeta. cbn [bind].
  apply bind_throws. intros joined.
  apply bind_throws. intros dq.
  unfold objectionPhrases. cbn [map].
  now rewrite (filterM_mentions_throws _ _ _ W).
Qed.

End Analysis.

(** ** When [analyzeSession] returns *)

Section Outcome.

Context {N : Request.NumberToString}.

Lemma analyzeSession_missing_history (t : Request.Value) :
  Request.analyzeSession t Request.VUndefined
  = Request.analyzeSession t (Request.VArray []).
Proof. reflexivity. Qed.

Lemma analyzeSession_empty_array (t : Request.Value) :
  Request.analyzeSession t (Request.VArray []) =
  if Request.truthy t
  then match t with
       | Request.VString s => Normal (analysis_of (Some s) [])
       | _ => Throw TypeError
       end
  else Normal default_record.
Proof.
  unfold Request.analyzeSession. cbn [Request.length_of bind].
  destruct (Request.truthy t) eqn:E; [|reflexivity].
  cbn [negb andb length Nat.ltb Nat.leb]. unfold Request.or_else. rewrite E.
  cbn [bind]. destruct t; reflexivity.
Qed.

Lemma analyzeSession_no_array (t h : Request.Value) :
  match h with
  | Request.VUndefined | Request.VArray _ => False
  | _ => True
  end ->
  Request.analyzeSession t h =
  if analysable t h then Normal default_record else Throw TypeError.
Proof.
  intros Hh. destruct h as [| |b|n|s|l|p]; try contradiction; try reflexivity.
  - unfold Request.analyzeSession. cbn [Request.length_of bind Request.is_zero].
    now rewrite andb_false_r.
  - unfold Request.analyzeSession. cbn [Request.length_of bind Request.is_zero].
    now rewrite andb_false_r.
  - unfold Request.analyzeSession, analysable. cbn [Request.length_of bind].
    rewrite is_zero_len.
    destruct s; cbn [length Nat.eqb]; destruct (Request.truthy t); reflexivity.
Qed.

(** [analyzeSession] returns or throws by the shape of its arguments. *)
Lemma analyzeSession_outcome (t h : Request.Value) :
  (analysable t h = true -> exists r, Request.analyzeSession t h = Normal r) /\
  (analysable t h = false -> Request.analyzeSession t h = Throw TypeError).
Proof.
  assert (E : forall t, (negb (Request.truthy t) || is_text_value t = true ->
                         exists r, Request.analyzeSession t (Request.VArray [])
                                   = Normal r) /\
                        (negb (Request.truthy t) || is_text_value t = false ->
                         Request.analyzeSession t (Request.VArray [])
                         = Throw TypeError)).
  { intros t0. rewrite analyzeSession_empty_array.
    destruct (Request.truthy t0); cbn [negb orb].
    - destruct t0; cbn [is_text_value]; split; intros H;
        try discriminate H; try reflexivity; eexists; reflexivity.
    - split; intros H; [eexists; reflexivity | discriminate H]. }
  assert (D : forall h', match h' with
                         | Request.VUndefined | Request.VArray _ => False
                         | _ => True
                         end ->
              (analysable t h' = true ->
               exists r, Request.analyzeSession t h' = Normal r) /\
              (analysable t h' = false ->
               Request.analyzeSession t h' = Throw TypeError)).
  { intros h' Hh. rewrite (analyzeSession_no_array t h' Hh).
    split; intros ->; [eexists|]; reflexivity. }
  destruct h as [| |b|n|s|l|p]; try (now apply D).
  - rewrite analyzeSession_missing_history. apply E.
  - destruct l as [|v l]; [apply E|]. cbn [analysable]. split; intros H.
    + rewrite (analyzeSession_well_formed _ _ _ H). eexists. reflexivity.
    + now apply analyzeSession_ill_formed.
Qed.

(** What [analyzeSession] returns is the default object or the object
    [analyzeSession] builds for an array of turns. *)
Lemma analyzeSession_of_turns (t h : Request.Value) (r : MetricsRecord) :
  Request.analyzeSession t h = Normal r ->
  (Request.truthy t = false /\ r = default_record /\
   analyzeSession None [] = Normal r) \/
  (exists elements,
     (h = Request.VArray elements \/ h = Request.VUndefined /\ elements = []) /\
     well_formed_array elements = true /\
     (elements <> [] \/ Request.truthy t = true /\ is_text_value t = true) /\
     r = analysis_of (transcript_of t) (map turn_of elements) /\
     analyzeSession (transcript_of t) (map turn_of elements) = Normal r).
Proof.
  intros H.
  assert (E : forall r, Request.analyzeSession t (Request.VArray []) = Normal r ->
              (Request.truthy t = false /\ r = default_record /\
               analyzeSession None [] = Normal r) \/
              (Request.truthy t = true /\ is_text_value t = true /\
               r = analysis_of (transcript_of t) [] /\
               analyzeSession (transcript_of t) [] = Normal r)).
  { intros r0 H0. rewrite analyzeSession_empty_array in H0.
    destruct (Request.truthy t) eqn:T.
    - right. destruct t as [| |b|n|s|l|p]; try discriminate H0.
      apply Normal_inj in H0. subst r0. repeat split.
      cbn [transcript_of]. rewrite analyzeSession_eq.
      destruct s; [discriminate T | reflexivity].
    - left. apply Normal_inj in H0. subst r0. repeat split. }
  assert (D : forall h', match h' with
                         | Request.VUndefined | Request.VArray _ => False
                         | _ => True
                         end ->
              Request.analyzeSession t h' = Normal r ->
              Request.truthy t = false /\ r = default_record /\
              analyzeSession None [] = Normal r).
  { intros h' Hh H0. rewrite (analyzeSession_no_array t h' Hh) in H0.
    destruct (analysable t h') eqn:A; [|discriminate H0].
    apply Normal_inj in H0. subst r. repeat split.
    destruct h' as [| |b|n|s|l|p]; try contradiction; try discriminate A.
    - destruct s; [|discriminate A]. cbn [analysable] in A.
      now apply negb_true_iff in A.
    - cbn [analysable] in A. apply andb_true_iff in A as [A _].
      now apply negb_true_iff in A. }
  destruct h as [| |b|n|s|l|p];
    try (left; refine (D _ _ H); exact I).
  - rewrite analyzeSession_missing_history in H.
    destruct (E r H) as [L|(T1 & T2 & R1 & R2)]; [now left|].
    right. exists []. repeat split; auto.
  - destruct l as [|v l].
    + destruct (E r H) as [L|(T1 & T2 & R1 & R2)]; [now left|].
      right. exists []. repeat split; auto.
    + right. exists (v :: l).
      destruct (well_formed_array (v :: l)) eqn:W.
      * rewrite (analyzeSession_well_formed _ _ _ W) in H.
        apply Normal_inj in H. subst r.
        repeat split; auto; [left; discriminate|].
        rewrite analyzeSession_eq.
        apply andb_true_iff in W as [_ W]. rewrite <- well_formed_turns in W.
        rewrite W. cbn [map length Nat.eqb]. now rewrite andb_false_r.
      * rewrite (analyzeSession_ill_formed _ _ _ W) in H. discriminate H.
Qed.

End Outcome.

(** ** Redaction of any value *)

Lemma replace_all_nonempty (r : regex) (rep s : jsstring) :
  rep <> [] -> s <> [] -> replace_all r rep s <> [].
Proof.
  intros Hrep Hs. destruct s as [|c s]; [congruence|].
  unfold replace_all. cbn [replace_loop].
  destruct (exec r (None, c :: s)) as [[p rest]|]; [|discriminate].
  destruct (length (c :: s) - length rest)%nat;
    destruct rep; try congruence; discriminate.
Qed.

Lemma redactPII_nonempty (s : jsstring) : s <> [] -> redactPII s <> [].
Proof.
  intros Hs. destruct s as [|c s]; [congruence|].
  unfold redactPII, apply_rules, pii_rules. cbn [fold_left fst snd].
  repeat (apply replace_all_nonempty; [discriminate|]). discriminate.
Qed.

Lemma redactPII_truthy (v : Request.Value) :
  Request.truthy (Request.redactPII v) = Request.truthy v /\
  is_text_value (Request.redactPII v) = is_text_value v.
Proof.
  destruct v as [| |b|n|s|l|p]; try (split; reflexivity).
  split; [|reflexivity]. cbn [Request.redactPII Request.truthy].
  destruct s as [|c s]; [reflexivity|].
  destruct (redactPII (c :: s)) eqn:E; [|reflexivity].
  now apply redactPII_nonempty in E.
Qed.

Lemma analysable_redacted (t h : Request.Value) :
  analysable (Request.redactPII (Request.or_else t (Request.VString []))) h
  = analysable t h.
Proof.
  destruct (redactPII_truthy (Request.or_else t (Request.VString []))) as [E1 E2].
  assert (T : Request.truthy (Request.or_else t (Request.VString []))
              = Request.truthy t).
  { unfold Request.or_else. destruct (Request.truthy t) eqn:E; [exact E | reflexivity]. }
  assert (S : negb (Request.truthy t)
              || is_text_value (Request.or_else t (Request.VString []))
              = negb (Request.truthy t) || is_text_value t).
  { unfold Request.or_else. destruct (Request.truthy t); reflexivity. }
  unfold analysable. rewrite E1, E2, T.
  destruct h as [| |b|n|s|l|p]; try reflexivity; try exact S.
  destruct l; [exact S | reflexivity].
Qed.

(** ** The failure boundary of [analyzeSession] *)

(** C1, as the specification states it, fails: a trainee turn without a
    string [message] makes [analyzeSession] throw a [TypeError], and so do
    an element that is [null] and a transcript that is a number with an
    empty history; the handler of [/api/sessions/end] answers each of them
    with status 500 instead of a fallback object, as it answers a history
    that is [null]. *)
Lemma analysis_failure_counterexample :
  @Request.analyzeSession integer_text (text "hello") (Request.VArray [no_message])
  = Throw TypeError /\
  @sessions_end integer_text coach (text "session-1") (text "hello")
                (Request.VArray [no_message]) = Error500 /\
  @Request.analyzeSession integer_text (text "hello") (Request.VArray [Request.VNull])
  = Throw TypeError /\
  @sessions_end integer_text coach (text "session-1") (text "hello")
                (Request.VArray [Request.VNull]) = Error500 /\
  @Request.analyzeSession integer_text (number 42) (Request.VArray [])
  = Throw TypeError /\
  @sessions_end integer_text coach (text "session-1") (number 42) (Request.VArray [])
  = Error500 /\
  @Request.analyzeSession integer_text (text "hello") Request.VNull = Throw TypeError /\
  @sessions_end integer_text coach (text "session-1") (text "hello") Request.VNull
  = Error500.
Proof. repeat split; vm_compute; reflexivity. Qed.

(** C1, amended.  [analyzeSession] returns an object exactly for the
    arguments that are [analysable]: a non-empty array without an element
    that is [null] or [undefined] whose trainee turns all carry a string
    message, the other turns and the transcript being anything; a missing
    history or an empty array with a transcript that is a string or falsy; an
    empty string or an object of length 0 as the history with a falsy
    transcript.  For all other arguments it throws a [TypeError].  The handler
    of [/api/sessions/end] answers a history that is [null] with status 500;
    else a falsy [sessionId] with status 400; else it answers with the object
    [analyzeSession] returns for the redacted transcript, and with status 500,
    without a fallback object, when [analyzeSession] throws. *)
Theorem analysis_failure_boundary {N : Request.NumberToString}
    (openai : list Chat.Outgoing -> completion Request.Value)
    (sessionId transcript conversationHistory : Request.Value) :
  let redacted :=
    Request.redactPII (Request.or_else transcript (Request.VString [])) in
  let answer := sessions_end openai sessionId transcript conversationHistory in
  (analysable transcript conversationHistory = true ->
   (exists r, Request.analyzeSession transcript conversationHistory = Normal r) /\
   (Request.truthy sessionId = true ->
    exists r aiFeedback conversationLength,
      Request.analyzeSession redacted conversationHistory = Normal r /\
      answer = Json200 r aiFeedback conversationLength)) /\
  (analysable transcript conversationHistory = false ->
   Request.analyzeSession transcript conversationHistory = Throw TypeError /\
   (Request.truthy sessionId = true -> answer = Error500)) /\
  (conversationHistory = Request.VNull -> answer = Error500) /\
  (conversationHistory <> Request.VNull -> Request.truthy sessionId = false ->
   answer = Error400).
Proof.
  intros redacted answer.
  destruct (analyzeSession_outcome transcript conversationHistory) as [R T].
  destruct (analyzeSession_outcome redacted conversationHistory) as [R' T'].
  unfold redacted in R', T'. rewrite analysable_redacted in R', T'.
  fold redacted in R', T'.
  assert (L : conversationHistory <> Request.VNull ->
              exists n, Request.length_of
                          match conversationHistory with
                          | Request.VUndefined => Request.VArray []
                          | _ => conversationHistory
                          end = Normal n).
  { intros Hn. destruct conversationHistory; try congruence; eexists; reflexivity. }
  split; [|split; [|split]].
  - intros A. split; [now apply R|]. intros S.
    destruct (R' A) as [r Hr].
    destruct (L ltac:(intros ->; discriminate A)) as [n Hn].
    exists r. eexists. exists n. split; [exact Hr|].
    unfold answer, sessions_end. rewrite Hn, S. cbn [negb]. fold redacted.
    assert (E : Request.analyzeSession redacted
                  match conversationHistory with
                  | Request.VUndefined => Request.VArray []
                  | _ => conversationHistory
                  end = Normal r) by (destruct conversationHistory; exact Hr).
    rewrite E. reflexivity.
  - intros A. split; [now apply T|]. intros S.
    unfold answer, sessions_end.
    destruct (Request.length_of _) as [n|]; [|reflexivity].
    rewrite S. cbn [negb]. fold redacted.
    assert (E : Request.analyzeSession redacted
                  match conversationHistory with
                  | Request.VUndefined => Request.VArray []
                  | _ => conversationHistory
                  end = Throw TypeError)
      by (destruct conversationHistory; exact (T' A)).
    now rewrite E.
  - intros ->. reflexivity.
  - intros Hn S. destruct (L Hn) as [n E].
    unfold answer, sessions_end. now rewrite E, S.
Qed.

Lemma analysis_failure_boundary_witness :
  (exists r, @Request.analyzeSession integer_text (number 42)
                                     (Request.VArray sample_request) = Normal r) /\
  @Request.analyzeSession integer_text (text "hello") (Request.VArray [no_message])
  = Throw TypeError /\
  @sessions_end integer_text coach Request.VUndefined (text "hello")
                (Request.VArray [no_message]) = Error400.
Proof.
  split; [|split].
  - apply (proj1 (@analysis_failure_boundary integer_text coach (text "s1") (number 42)
                    (Request.VArray sample_request))).
    reflexivity.
  - apply (proj1 (proj2 (@analysis_failure_boundary integer_text coach (text "s1")
                           (text "hello") (Request.VArray [no_message])))).
    reflexivity.
  - apply (proj2 (proj2 (proj2 (@analysis_failure_boundary integer_text coach
                                  Request.VUndefined (text "hello")
                                  (Request.VArray [no_message]))))).
    + discriminate.
    + reflexivity.
Defined.

(** ** Histories without trainee turns *)

(** C9, as the specification states it, fails: a non-empty history may have
    no trainee turn because an element of it is [null]; reading the speaker
    of that element throws, and [analyzeSession] returns nothing. *)
Lemma no_trainee_turns_counterexample :
  length [Request.VNull] = 1%nat /\
  filter user_turn [Request.VNull] = [] /\
  @Request.analyzeSession integer_text (text "um whatever")
                          (Request.VArray [Request.VNull]) = Throw TypeError /\
  @Request.analyzeSession integer_text Request.VNull
                          (Request.VArray [turn "ai" "Hello?"; Request.VNull])
  = Throw TypeError.
Proof. repeat split; vm_compute; reflexivity. Qed.

(** C9, amended.  For a non-empty array without a single ['user'] turn, none
    of whose elements is [null] or [undefined], whatever the transcript,
    [analyzeSession] returns an object: the text it analyses is the empty
    string, the transcript has no influence on the result, and the object
    has 0 words, confidence 100 and talk-time ratio 0 (not the 50 and 50 of
    the default object).  With an element that is [null] or [undefined] it
    throws. *)
Theorem no_trainee_turns {N : Request.NumberToString} (t : Request.Value)
                         (elements : list Request.Value) :
  elements <> [] -> filter user_turn elements = [] ->
  (readable elements = true ->
   exists r,
     Request.analyzeSession t (Request.VArray elements) = Normal r /\
     (forall t', Request.analyzeSession t' (Request.VArray elements) = Normal r) /\
     (userMessages <- filterM Request.is_user elements ;;
      Request.joined_messages userMessages) = Normal [] /\
     wordCount r = 0%Z /\
     confidenceScore r = 100%Z /\
     talkTimeRatio r = 0%Z) /\
  (readable elements = false ->
   Request.analyzeSession t (Request.VArray elements) = Throw TypeError).
Proof.
  intros He Hu. destruct elements as [|v l]; [congruence|].
  split; intros R.
  - assert (W : well_formed_array (v :: l) = true).
    { unfold well_formed_array. now rewrite R, Hu. }
    destruct (turns_without_trainee (transcript_of t) (map turn_of (v :: l)))
      as (r & Hr & Ht & _ & Hw & Hc & Hk).
    + discriminate.
    + now rewrite filter_user_turns, Hu.
    + assert (E : forall t', Request.analyzeSession t' (Request.VArray (v :: l))
                             = Normal r).
      { intros t'. rewrite (analyzeSession_well_formed _ _ _ W).
        rewrite <- (Ht (transcript_of t')). rewrite analyzeSession_eq.
        apply andb_true_iff in W as [_ W]. rewrite <- well_formed_turns in W.
        rewrite W. cbn [map length Nat.eqb]. now rewrite andb_false_r. }
      exists r. repeat split; auto.
      rewrite filterM_is_user, R, Hu. reflexivity.
  - apply analyzeSession_ill_formed. unfold well_formed_array. now rewrite R.
Qed.

Lemma no_trainee_turns_witness :
  exists r,
    @Request.analyzeSession integer_text (text "um whatever")
       (Request.VArray [turn "ai" "Why should I care?"; number 7]) = Normal r /\
    (forall t', @Request.analyzeSession integer_text t'
                  (Request.VArray [turn "ai" "Why should I care?"; number 7])
                = Normal r) /\
    (userMessages <- filterM Request.is_user [turn "ai" "Why should I care?"; number 7] ;;
     @Request.joined_messages integer_text userMessages) = Normal [] /\
    wordCount r = 0%Z /\
    confidenceScore r = 100%Z /\
    talkTimeRatio r = 0%Z.
Proof.
  apply (proj1 (@no_trainee_turns integer_text (text "um whatever")
                  [turn "ai" "Why should I care?"; number 7]
                  ltac:(discriminate) eq_refl)).
  reflexivity.
Defined.

(** ** The confidence score *)

Lemma fl_error_signed (q : Q) (k : Z) :
  - pow2 k < q -> q < pow2 k ->
  q - pow2 (k - 54) <= fl q /\ fl q <= q + pow2 (k - 54).
Proof.
  intros L U. destruct (Qlt_le_dec q 0) as [H|H].
  - assert (E : fl q == - fl (- q)).
    { rewrite (fl_neg q H), (fl_pos (- q)); [reflexivity | lra]. }
    destruct (fl_error (- q) k) as [A B]; [lra | lra|]. lra.
  - now apply fl_error.
Qed.

(** The score of the code is within one of the score of the formula in exact
    arithmetic. *)
Lemma confidence_close (f w : Z) :
  (0 <= f <= w)%Z ->
  (Spec.confidence f w - 1 <= Spec.confidence_ratio_first f w
   <= Spec.confidence f w + 1)%Z.
Proof.
  intros Hf. unfold Spec.confidence, Spec.confidence_ratio_first, Spec.clamp.
  destruct (w =? 0)%Z eqn:E.
  - vm_compute. split; discriminate.
  - apply Z.eqb_neq in E. assert (Hw : (0 < w)%Z) by lia.
    destruct (exact_ratio_bounds f w Hf Hw) as [X0 X1].
    set (x := inject_Z f / inject_Z w) in *.
    destruct (fl_error x 1) as [A1 A2]; [lra | change (pow2 1) with 2; lra|].
    assert (B0 : 0 <= fl x /\ fl x <= 1) by (apply fl_bounds; try reflexivity; lra).
    destruct (fl_error (fl x * 200) 8) as [C1 C2];
      [lra | change (pow2 8) with 256; lra|].
    assert (D0 : 0 <= fl (fl x * 200) /\ fl (fl x * 200) <= 200)
      by (apply fl_bounds; try reflexivity; lra).
    destruct (fl_error_signed (100 - fl (fl x * 200)) 7) as [E1 E2];
      [change (pow2 7) with 128; lra | change (pow2 7) with 128; lra|].
    assert (P1 : pow2 (1 - 54) <= 1 # 100000) by (vm_compute; discriminate).
    assert (P2 : pow2 (8 - 54) <= 1 # 100000) by (vm_compute; discriminate).
    assert (P3 : pow2 (7 - 54) <= 1 # 100000) by (vm_compute; discriminate).
    assert (M : (Math_round (100 - 200 * x) - 1
                 <= Math_round (Js.sub 100 (Js.mul (Js.div (inject_Z f) (inject_Z w)) 200))
                 <= Math_round (100 - 200 * x) + 1)%Z).
    { apply Math_round_close; unfold Js.sub, Js.mul, Js.div; fold x; lra. }
    lia.
Qed.

Lemma confidence_of_record {N : Request.NumberToString} (t h : Request.Value)
                           (r : MetricsRecord) :
  Request.analyzeSession t h = Normal r ->
  exists t' h', analyzeSession t' h' = Normal r /\
                (r = default_record \/ falsy t' = false \/ h' <> []).
Proof.
  intros H. destruct (analyzeSession_of_turns t h r H)
    as [(_ & E & T)|(elements & _ & _ & C & _ & T)].
  - exists None, []. split; [exact T | now left].
  - exists (transcript_of t), (map turn_of elements). split; [exact T|]. right.
    destruct C as [C|[C1 C2]].
    + right. destruct elements; [congruence | discriminate].
    + left. destruct t as [| |b|n|s|l|p]; try discriminate C2.
      destruct s; [discriminate C1 | reflexivity].
Qed.

(** C7, as the specification states it, fails in its formula.  For a
    transcript of 400 words with 109 fillers the code computes 45: the
    quotient 109/400 is rounded to a double before it is multiplied by 200,
    and the difference falls just under 45.5; the formula
    [100 - 200 * fillerWordCount / wordCount] gives 46, in exact arithmetic and
    in doubles.  And for no transcript and no history the object is the default
    one, with confidence 50, where the formula with ratio 0 gives 100. *)
Lemma confidence_formula_counterexample :
  (exists r, @Request.analyzeSession integer_text (Request.VString filler_transcript)
                                     (Request.VArray []) = Normal r /\
             wordCount r = 400%Z /\ fillerWordCount r = 109%Z /\
             confidenceScore r = 45%Z /\
             Spec.confidence 109 400 = 46%Z /\
             Spec.confidence_double 109 400 = 46%Z) /\
  (exists r, @Request.analyzeSession integer_text Request.VNull (Request.VArray [])
             = Normal r /\
             wordCount r = 0%Z /\ fillerWordCount r = 0%Z /\
             confidenceScore r = 50%Z /\
             Spec.confidence 0 0 = 100%Z).
Proof.
  split; eexists; (split; [vm_compute; reflexivity|]); vm_compute; auto 6.
Qed.

(** C7, amended.  Of two inputs with the same word count, the one with the
    larger filler count never has the larger confidence score.  The object
    [analyzeSession] returns is the default one, with confidence 50, or its
    score is [clamp(round(100 - fillerRatio * 200), 20, 100)] with
    [fillerRatio = fillerWordCount / wordCount], 0 when there is no word, in
    the double arithmetic of the code, the quotient rounded before the
    multiplication; that score is within one of
    [clamp(round(100 - 200 * fillerWordCount / wordCount), 20, 100)]. *)
Theorem confidence_antitone_in_fillers {N : Request.NumberToString} :
  (forall t1 h1 r1 t2 h2 r2,
     Request.analyzeSession t1 h1 = Normal r1 ->
     Request.analyzeSession t2 h2 = Normal r2 ->
     wordCount r1 = wordCount r2 ->
     (fillerWordCount r1 < fillerWordCount r2)%Z ->
     (confidenceScore r2 <= confidenceScore r1)%Z) /\
  (forall t h r,
     Request.analyzeSession t h = Normal r ->
     (r = default_record /\ confidenceScore r = 50%Z) \/
     (confidenceScore r
      = Spec.confidence_ratio_first (fillerWordCount r) (wordCount r) /\
      (Spec.confidence (fillerWordCount r) (wordCount r) - 1
       <= confidenceScore r
       <= Spec.confidence (fillerWordCount r) (wordCount r) + 1)%Z)).
Proof.
  split.
  - intros t1 h1 r1 t2 h2 r2 H1 H2 Hw Hf.
    destruct (confidence_of_record _ _ _ H1) as (t1' & h1' & T1 & _).
    destruct (confidence_of_record _ _ _ H2) as (t2' & h2' & T2 & _).
    pose proof (analysed_words_nonneg _ _ _ T1) as B1.
    pose proof (analysed_words_nonneg _ _ _ T2) as B2.
    rewrite (confidence_of_counts _ _ _ T1), (confidence_of_counts _ _ _ T2) by lia.
    rewrite Hw. apply Math_round_le, confidence_raw_antitone. lia.
  - intros t h r H.
    destruct (confidence_of_record _ _ _ H) as (t' & h' & T & D).
    pose proof (analysed_words_nonneg _ _ _ T) as B.
    destruct (analyzeSession_cases _ _ _ T) as [(Ht & Hh & ->) | [_ Ha]].
    + left. split; reflexivity.
    + right.
      assert (E : confidenceScore r
                  = Spec.confidence_ratio_first (fillerWordCount r) (wordCount r)).
      { rewrite (an_confidence _ _ _ Ha). apply confidence_raw_spec. lia. }
      split; [exact E|]. rewrite E. now apply confidence_close.
Qed.

Lemma confidence_antitone_in_fillers_witness :
  (confidenceScore filler_record <= confidenceScore plain_record)%Z.
Proof.
  apply (proj1 (@confidence_antitone_in_fillers integer_text)
           (text "well hello there") (Request.VArray []) plain_record
           Request.VUndefined (Request.VArray [turn "user" "Um, hello there"])
           filler_record);
    vm_compute; reflexivity.
Defined.

(** ** What the analysis reads *)

Section Reads.

Context {N : Request.NumberToString}.

(** On an array whose elements can be read, [analyzeSession] is the
    [analyzeSession] of the turns. *)
Lemma analyzeSession_array_turns (t : Request.Value) (elements : list Request.Value) :
  elements <> [] -> readable elements = true ->
  Request.analyzeSession t (Request.VArray elements)
  = analyzeSession (transcript_of t) (map turn_of elements).
Proof.
  intros He R. destruct elements as [|v l]; [congruence|].
  rewrite analyzeSession_eq. cbn [map length Nat.eqb]. rewrite andb_false_r.
  change (turn_of v :: map turn_of l) with (map turn_of (v :: l)).
  rewrite well_formed_turns.
  destruct (well_formed_array (v :: l)) eqn:W.
  - rewrite (analyzeSession_well_formed _ _ _ W).
    apply andb_true_iff in W as [_ W]. now rewrite W.
  - rewrite (analyzeSession_ill_formed _ _ _ W).
    unfold well_formed_array in W. rewrite R in W. cbn [andb] in W. now rewrite W.
Qed.

Lemma analyzeSession_same_elements (t t' : Request.Value) (h h' : list Request.Value) :
  readable h = true -> readable h' = true ->
  length h = length h' -> filter user_turn h = filter user_turn h' ->
  h <> [] \/ t = t' ->
  Request.analyzeSession t (Request.VArray h)
  = Request.analyzeSession t' (Request.VArray h').
Proof.
  intros R R' Hl Hu Ht.
  destruct h as [|v l].
  - destruct h'; [|discriminate Hl]. destruct Ht as [Ht| ->]; congruence.
  - assert (Hh' : h' <> []) by (destruct h'; [discriminate Hl | discriminate]).
    rewrite (analyzeSession_array_turns t (v :: l)) by (auto; discriminate).
    rewrite (analyzeSession_array_turns t' h') by auto.
    apply analyzeSession_same_turns.
    + now rewrite !length_map.
    + now rewrite !filter_user_turns, Hu.
    + left. discriminate.
Qed.

End Reads.

(** ** Turns as objects of the request

    On a transcript that is a string or missing and a history that is an
    array of objects with a speaker and a message, the functions on values
    are the functions on turns. *)

Lemma cell_of_value (v : JsValue) : cell_of (value_of_cell v) = v.
Proof. now destruct v. Qed.

Lemma turn_of_object (msg : Turn) : turn_of (object_of msg) = msg.
Proof.
  destruct msg as [s m]. unfold turn_of, object_of, field.
  cbn [Request.lookup speaker message].
  destruct (list_eq_dec ascii_dec (lit "speaker") (lit "speaker")); [|congruence].
  destruct (list_eq_dec ascii_dec (lit "speaker") (lit "message")); [discriminate|].
  destruct (list_eq_dec ascii_dec (lit "message") (lit "message")); [|congruence].
  now rewrite !cell_of_value.
Qed.

Lemma turns_of_objects (h : list Turn) : map turn_of (map object_of h) = h.
Proof.
  induction h as [|msg h IH]; [reflexivity|].
  cbn [map]. now rewrite turn_of_object, IH.
Qed.

Lemma objects_readable (h : list Turn) : readable (map object_of h) = true.
Proof. induction h as [|msg h IH]; [reflexivity | exact IH]. Qed.

Lemma analyzeSession_of_objects {N : Request.NumberToString}
                                (t : option jsstring) (h : list Turn) :
  Request.analyzeSession (transcript_value t) (Request.VArray (map object_of h))
  = analyzeSession t h.
Proof.
  destruct h as [|msg h].
  - cbn [map]. rewrite analyzeSession_empty_array, analyzeSession_eq.
    destruct t as [[|c s]|]; reflexivity.
  - rewrite analyzeSession_array_turns;
      [|discriminate | apply (objects_readable (msg :: h))].
    rewrite turns_of_objects.
    apply analyzeSession_history_only. discriminate.
Qed.

(** X3. What the analysis reads of a request.  It reads the turns of the
    counterpart only to count them, and with a non-empty history it does
    not read the transcript: for two histories that are arrays without an
    element that is [null] or [undefined], of the same length and with the
    same trainee turns, [analyzeSession] returns the same object or throws
    both times, whatever the transcripts are, which need to agree only where
    the histories are empty.  The answers of [POST /api/sessions/end] to two
    such requests are of the same status and hold the same analysis; they
    differ in the feedback at most, which is made from every turn. *)
Theorem analysis_reads_trainee_turns {N : Request.NumberToString}
    (openai openai' : list Chat.Outgoing -> completion Request.Value)
    (sid t t' : Request.Value) (h h' : list Request.Value) :
  readable h = true -> readable h' = true ->
  length h = length h' -> filter user_turn h = filter user_turn h' ->
  h <> [] \/ t = t' ->
  Request.analyzeSession t (Request.VArray h)
  = Request.analyzeSession t' (Request.VArray h') /\
  same_analysis (sessions_end openai sid t (Request.VArray h))
                (sessions_end openai' sid t' (Request.VArray h')).
Proof.
  intros R R' Hl Hu Ht. split; [now apply analyzeSession_same_elements|].
  unfold sessions_end. cbn [Request.length_of]. unfold len. rewrite Hl.
  destruct (Request.truthy sid); cbn [negb same_analysis]; [|exact I].
  rewrite (analyzeSession_same_elements
             (Request.redactPII (Request.or_else t (Request.VString [])))
             (Request.redactPII (Request.or_else t' (Request.VString []))) h h')
    by (auto; destruct Ht as [Ht| ->]; auto).
  destruct (Request.analyzeSession _ (Request.VArray h')); cbn [same_analysis]; auto.
Qed.

Lemma analysis_reads_trainee_turns_witness :
  @Request.analyzeSession integer_text (text "um")
     (Request.VArray [turn "user" "Any budget?"; turn "ai" "Not yet."])
  = @Request.analyzeSession integer_text Request.VNull
      (Request.VArray [turn "user" "Any budget?"; number 7]) /\
  same_analysis
    (@sessions_end integer_text coach (text "s1") (text "um")
       (Request.VArray [turn "user" "Any budget?"; turn "ai" "Not yet."]))
    (@sessions_end integer_text unreachable (text "s1") Request.VNull
       (Request.VArray [turn "user" "Any budget?"; number 7])).
Proof.
  apply (@analysis_reads_trainee_turns integer_text coach unreachable (text "s1")
           (text "um") Request.VNull
           [turn "user" "Any budget?"; turn "ai" "Not yet."]
           [turn "user" "Any budget?"; number 7]).
  - reflexivity.
  - reflexivity.
  - reflexivity.
  - reflexivity.
  - left. discriminate.
Defined.

(** ** [analyzeGoogleAdsPerformance] of any history *)

Section Performance.

Context {N : Request.NumberToString}.

Lemma analyzeGoogleAdsPerformance_array (elements : list Request.Value) :
  Request.analyzeGoogleAdsPerformance (Request.VArray elements) =
  if well_formed_array elements
  then Normal (performance_of (map turn_of elements))
  else Throw TypeError.
Proof.
  unfold Request.analyzeGoogleAdsPerformance. rewrite filterM_is_user.
  unfold well_formed_array. destruct (readable elements) eqn:R; [|reflexivity].
  cbn [andb bind].
  destruct (forallb (fun v => is_text_value (field v "message"))
                    (filter user_turn elements)) eqn:T.
  - assert (Hn : forall x, In x (filter user_turn elements) -> nullish x = false)
      by (intros x; apply filter_user_turn_In).
    pose proof T as T'. rewrite <- well_formed_turns in T'.
    assert (Q : forallb (fun x => returns
                           (andM (call_includes (message x) (lit "?"))
                                 (lower_includes_any (message x)
                                                     GoogleAds.discoveryKeywords)))
                        (map turn_of (filter user_turn elements)) = true).
    { rewrite <- filter_user_turns.
      transitivity (well_formed (map turn_of elements)); [|exact T'].
      unfold well_formed. apply forallb_pointwise. intros x.
      apply ads_question_returns. }
    assert (O : forallb (fun x => returns (lower_includes_any
                                             (message x) GoogleAds.objectionPhrases))
                        (map turn_of (filter user_turn elements)) = true).
    { rewrite <- filter_user_turns.
      transitivity (well_formed (map turn_of elements)); [|exact T'].
      exact (ads_filters_return _ _ _). }
    assert (B : forallb (fun x => returns (lower_includes_any
                                             (message x)
                                             GoogleAds.businessValueKeywords))
                        (map turn_of (filter user_turn elements)) = true).
    { rewrite <- filter_user_turns.
      transitivity (well_formed (map turn_of elements)); [|exact T'].
      exact (ads_filters_return _ _ _). }
    assert (P : forall keys x, In x (filter user_turn elements) ->
                  Request.mentions keys x
                  = lower_includes_any (message (turn_of x)) keys).
    { intros keys x Hx. apply mentions_turn; [now apply Hn|].
      rewrite forallb_forall in T. now apply T. }
    destruct (filterM_turns (Request.is_discovery_question GoogleAds.discoveryKeywords)
                (fun msg => andM (call_includes (message msg) (lit "?"))
                                 (lower_includes_any (message msg)
                                                     GoogleAds.discoveryKeywords))
                (filter user_turn elements)) as (dq & Edq & Ldq); [|exact Q|].
    { intros x Hx. apply is_discovery_question_turn; [now apply Hn|].
      rewrite forallb_forall in T. now apply T. }
    destruct (filterM_turns (Request.mentions GoogleAds.objectionPhrases)
                (fun msg => lower_includes_any (message msg) GoogleAds.objectionPhrases)
                _ (P _) O) as (oh & Eoh & Loh).
    destruct (filterM_turns (Request.mentions GoogleAds.businessValueKeywords)
                (fun msg => lower_includes_any (message msg)
                                               GoogleAds.businessValueKeywords)
                _ (P _) B) as (bv & Ebv & Lbv).
    rewrite (joined_messages_texts _ Hn T). cbn [bind].
    rewrite Edq, Eoh, Ebv. cbn [bind]. cbv zeta.
    rewrite Ldq, Loh, Lbv.
    unfold performance_of, ads_concepts, ads_discovery, ads_objection, ads_business,
      ads_user_text. cbv zeta.
    rewrite filter_user_turns, !len_map. reflexivity.
  - apply bind_throws. intros joined.
    apply bind_throws. intros dq.
    unfold GoogleAds.objectionPhrases. cbn [map].
    now rewrite (filterM_mentions_throws _ _ _ T).
Qed.

Lemma analyzeGoogleAdsPerformance_outcome (h : Request.Value) :
  Request.analyzeGoogleAdsPerformance h =
  if ads_analysable h
  then Normal (performance_of (map turn_of (elements_of h)))
  else Throw TypeError.
Proof.
  destruct h; try reflexivity. apply analyzeGoogleAdsPerformance_array.
Qed.

End Performance.

Lemma analyzeGoogleAdsPerformance_of_objects {N : Request.NumberToString}
                                             (h : list Turn) :
  Request.analyzeGoogleAdsPerformance (Request.VArray (map object_of h))
  = GoogleAds.analyzeGoogleAdsPerformance h.
Proof.
  rewrite analyzeGoogleAdsPerformance_array, analyzeGoogleAdsPerformance_eq.
  unfold well_formed_array. rewrite objects_readable. cbn [andb].
  now rewrite <- well_formed_turns, turns_of_objects.
Qed.

(** X11. [analyzeGoogleAdsPerformance] returns exactly when the history is an
    array, none of its elements is [null] or [undefined], and every trainee
    turn carries a string message; for every other history, a missing one
    included, it throws a [TypeError].  What it returns counts all the
    elements as the conversation length and the trainee turns as the user
    messages. *)
Theorem google_ads_failure_boundary {N : Request.NumberToString}
                                    (conversationHistory : Request.Value) :
  (ads_analysable conversationHistory = true ->
   exists p elements,
     conversationHistory = Request.VArray elements /\
     Request.analyzeGoogleAdsPerformance conversationHistory = Normal p /\
     GoogleAds.conversation_length p = len elements /\
     GoogleAds.user_message_count p = len (filter user_turn elements) /\
     (GoogleAds.user_message_count p <= GoogleAds.conversation_length p)%Z) /\
  (ads_analysable conversationHistory = false ->
   Request.analyzeGoogleAdsPerformance conversationHistory = Throw TypeError).
Proof.
  rewrite analyzeGoogleAdsPerformance_outcome. split; intros A; rewrite A; [|reflexivity].
  destruct conversationHistory as [| |b|n|s|elements|p]; try discriminate A.
  eexists. exists elements. split; [reflexivity|]. split; [reflexivity|].
  cbn [elements_of performance_of GoogleAds.conversation_length
       GoogleAds.user_message_count].
  rewrite filter_user_turns, !len_map. repeat split. apply len_filter_le.
Qed.

Lemma google_ads_failure_boundary_witness :
  (exists p elements,
     Request.VArray sample_request = Request.VArray elements /\
     @Request.analyzeGoogleAdsPerformance integer_text (Request.VArray sample_request)
     = Normal p /\
     GoogleAds.conversation_length p = len elements /\
     GoogleAds.user_message_count p = len (filter user_turn elements) /\
     (GoogleAds.user_message_count p <= GoogleAds.conversation_length p)%Z) /\
  @Request.analyzeGoogleAdsPerformance integer_text
     (Request.VArray [turn "ai" "Hello?"; Request.VNull]) = Throw TypeError /\
  @Request.analyzeGoogleAdsPerformance integer_text Request.VUndefined
  = Throw TypeError.
Proof.
  split; [|split].
  - apply (proj1 (@google_ads_failure_boundary integer_text
                    (Request.VArray sample_request))).
    reflexivity.
  - apply (proj2 (@google_ads_failure_boundary integer_text
                    (Request.VArray [turn "ai" "Hello?"; Request.VNull]))).
    reflexivity.
  - apply (proj2 (@google_ads_failure_boundary integer_text Request.VUndefined)).
    reflexivity.
Defined.

(** ** The text of the turns *)

Lemma mapM_returns {A B} (f : A -> completion B) (l : list A) :
  returns (mapM f l) = forallb (fun x => returns (f x)) l.
Proof.
  induction l as [|x l IH]; [reflexivity|].
  cbn [mapM forallb]. destruct (f x) as [y|e]; cbn [bind returns andb]; [|reflexivity].
  rewrite <- IH. now destruct (mapM f l).
Qed.

Lemma strict_eq_cell_iff (c : JsValue) (v : Request.Value) :
  Request.strict_eq_cell c v = true <-> value_of_cell c = v.
Proof.
  destruct c as [| |x], v as [| |b|n|y|l|p]; cbn [Request.strict_eq_cell value_of_cell];
    split; intros H; try reflexivity; try discriminate H.
  - destruct (list_eq_dec ascii_dec x y); [now subst | discriminate].
  - injection H as ->. destruct (list_eq_dec ascii_dec y y); congruence.
Qed.

Lemma strict_eq_cell_false (c : JsValue) (v : Request.Value) :
  Request.strict_eq_cell c v = false <-> value_of_cell c <> v.
Proof.
  rewrite <- strict_eq_cell_iff.
  destruct (Request.strict_eq_cell c v); split; congruence.
Qed.

Section Lines.

Context {N : Request.NumberToString}.

Lemma labelled_returns (a b : jsstring) (v : Request.Value) :
  returns (Request.labelled a b v) = negb (nullish v) && negb (unwritable v).
Proof.
  unfold Request.labelled, unwritable. destruct (nullish v) eqn:E.
  - now rewrite (property_nullish _ _ E).
  - rewrite !(property_field _ _ E). cbn [bind negb andb].
    destruct (Request.to_string (field v "message")); reflexivity.
Qed.

Lemma lines_return (a b : jsstring) (elements : list Request.Value) :
  readable elements = true ->
  returns (mapM (Request.labelled a b) elements) = negb (existsb unwritable elements).
Proof.
  intros R. rewrite mapM_returns.
  induction elements as [|v l IH]; [reflexivity|].
  cbn [readable forallb] in R. apply andb_true_iff in R as [Rv Rl].
  cbn [forallb existsb]. rewrite labelled_returns, Rv, (IH Rl).
  cbn [andb]. now rewrite negb_orb.
Qed.

End Lines.

(** ** The answers of the Google Ads analysis *)

(** X28. The answers of [POST /api/sessions/analyze-google-ads].  The
    answer is 500 exactly when the rows of the sheet of scenarios cannot be
    read, when
    [analyzeGoogleAdsPerformance] throws (the history is no array, a
    missing one included, an element of it is [null] or [undefined], or a
    trainee turn has no string message), when the message of a turn, the
    counterpart's included, cannot be written as a string, or when the
    language model fails on the request made from the turns; a scenario
    that is not found is no error, the skill area of the answer is
    undefined then.  Every other answer holds the analysis of the history,
    the feedback of the model and the recommendations for that analysis. *)
Theorem google_ads_answers {N : Request.NumberToString}
    (openai : list Chat.Outgoing -> completion Request.Value)
    (scenarioId conversationHistory : Request.Value)
    (scenariosSheet : option (list Row)) :
  let answer := analyze_google_ads openai scenarioId conversationHistory
                                   scenariosSheet in
  let request rows turns :=
    coaching_request
      (find (fun row => Request.strict_eq_cell (get row "scenario_id") scenarioId) rows)
      (join [line_feed] turns) in
  let turns := mapM (Request.labelled (lit "Seller") (lit "Buyer"))
                    (elements_of conversationHistory) in
  (answer = AdsError500 <->
   scenariosSheet = None \/
   ads_analysable conversationHistory = false \/
   existsb unwritable (elements_of conversationHistory) = true \/
   (exists rows written e,
      scenariosSheet = Some rows /\ turns = Normal written /\
      openai (request rows written) = Throw e)) /\
  (forall analysis aiFeedback skillArea recommendations,
      answer = AdsJson200 analysis aiFeedback skillArea recommendations ->
      exists rows written,
        scenariosSheet = Some rows /\
        ads_analysable conversationHistory = true /\
        Request.analyzeGoogleAdsPerformance conversationHistory = Normal analysis /\
        turns = Normal written /\
        openai (request rows written) = Normal aiFeedback /\
        recommendations = generateCoachingRecommendations analysis /\
        ((skillArea = JsUndefined /\
          forall row, In row rows ->
                      value_of_cell (get row "scenario_id") <> scenarioId) \/
         (exists row, In row rows /\
                      value_of_cell (get row "scenario_id") = scenarioId /\
                      skillArea = get row "sales_skill_area"))).
Proof.
  intros answer request turns. subst answer. unfold analyze_google_ads.
  destruct scenariosSheet as [rows|].
  2:{ split; [split; auto | intros; discriminate]. }
  rewrite analyzeGoogleAdsPerformance_outcome.
  destruct (ads_analysable conversationHistory) eqn:A.
  2:{ cbn [bind]. split; [split; auto | intros; discriminate]. }
  destruct conversationHistory as [| |b|n|s|elements|p]; try discriminate A.
  cbn [bind ads_analysable elements_of] in *. fold turns.
  assert (R : readable elements = true)
    by (unfold well_formed_array in A; now apply andb_true_iff in A as [R _]).
  pose proof (lines_return (lit "Seller") (lit "Buyer") elements R) as L.
  fold turns in L.
  destruct turns as [written|e] eqn:T; cbn [bind returns] in *.
  - symmetry in L. apply negb_true_iff in L. fold (request rows written).
    destruct (openai (request rows written)) as [aiFeedback|e] eqn:O; cbn [bind].
    + split.
      * split; [discriminate|].
        intros [H|[H|[H|(rows' & written' & e & H1 & H2 & H3)]]];
          try discriminate H; [congruence|].
        injection H1 as <-. injection H2 as <-. congruence.
      * intros analysis fb skill recs H. injection H as <- <- <- <-.
        exists rows, written.
        do 6 (split; [first [reflexivity | exact O | exact T]|]).
        unfold scenario_cell.
        destruct (find _ rows) as [row|] eqn:F.
        -- right. apply find_some in F as [F1 F2].
           exists row. split; [exact F1|]. split; [|reflexivity].
           now apply strict_eq_cell_iff.
        -- left. split; [reflexivity|]. intros row Hrow.
           apply strict_eq_cell_false. exact (find_none _ _ F row Hrow).
    + split; [|intros; discriminate].
      split; [|reflexivity]. intros _. right. right. right.
      exists rows, written, e. auto.
  - split; [|intros; discriminate].
    split; [|reflexivity]. intros _. right. right. left.
    symmetry in L. now apply negb_false_iff in L.
Qed.

Lemma google_ads_answers_witness :
  @analyze_google_ads integer_text coach (text "s1")
     (Request.VArray [turn "user" "Any budget?"; Request.VNull]) (Some sample_rows)
  = AdsError500 /\
  @analyze_google_ads integer_text coach (text "s1")
     (Request.VArray [turn "user" "Any budget?"; unwritable_turn]) (Some sample_rows)
  = AdsError500 /\
  @analyze_google_ads integer_text unreachable (text "s1")
     (Request.VArray sample_request) (Some sample_rows)
  = AdsError500 /\
  @analyze_google_ads integer_text coach (text "s1") (text "no array")
     (Some sample_rows)
  = AdsError500.
Proof.
  split; [|split; [|split]].
  - apply (proj1 (@google_ads_answers integer_text coach (text "s1")
                    (Request.VArray [turn "user" "Any budget?"; Request.VNull])
                    (Some sample_rows))).
    right. left. reflexivity.
  - apply (proj1 (@google_ads_answers integer_text coach (text "s1")
                    (Request.VArray [turn "user" "Any budget?"; unwritable_turn])
                    (Some sample_rows))).
    right. right. left. reflexivity.
  - apply (proj1 (@google_ads_answers integer_text unreachable (text "s1")
                    (Request.VArray sample_request) (Some sample_rows))).
    right. right. right. exists sample_rows. eexists. exists TypeError.
    split; [reflexivity|]. split; [vm_compute; reflexivity | reflexivity].
  - apply (proj1 (@google_ads_answers integer_text coach (text "s1")
                    (text "no array") (Some sample_rows))).
    right. left. reflexivity.
Defined.

(** ** The answers of the chat *)

Lemma foldM_readable {B} (f : B -> Request.Value -> completion B)
                     (l : list Request.Value) (acc r : B) :
  (forall acc v, nullish v = true -> f acc v = Throw TypeError) ->
  foldM f l acc = Normal r -> readable l = true.
Proof.
  intros Hf. revert acc. induction l as [|v l IH]; intros acc H; [reflexivity|].
  cbn [foldM] in H. cbn [readable forallb]. destruct (nullish v) eqn:E.
  - rewrite (Hf acc v E) in H. discriminate H.
  - destruct (f acc v) as [acc'|]; [|discriminate H]. exact (IH acc' H).
Qed.

Lemma outgoing_messages_readable (systemPrompt : jsstring)
                                 (elements : list Request.Value)
                                 (userMessage : jsstring) (ms : list Chat.Outgoing) :
  Chat.outgoing_messages systemPrompt elements userMessage = Normal ms ->
  readable (Chat.slice_from elements (-4)) = true.
Proof.
  unfold Chat.outgoing_messages. cbv zeta. intros H.
  destruct (foldM _ (Chat.slice_from elements (-4)) _) as [r|] eqn:F;
    [|discriminate H].
  refine (foldM_readable _ _ _ _ _ F).
  intros acc v E. now rewrite (property_nullish v "speaker" E).
Qed.

Lemma aiResponse_returns {N : Request.NumberToString}
    (openai : list Chat.Outgoing -> completion Request.Value)
    (characterName characterRole characterPersonality businessVertical : JsValue)
    (userMessage : jsstring) (conversationHistory : Request.Value)
    (response : jsstring) :
  Chat.aiResponse openai characterName characterRole characterPersonality
                  businessVertical userMessage conversationHistory
  = Normal response ->
  (10 <= length response)%nat /\
  exists elements, conversationHistory = Request.VArray elements /\
                   readable (Chat.slice_from elements (-4)) = true.
Proof.
  unfold Chat.aiResponse. destruct conversationHistory as [| |b|n|s|elements|p];
    try discriminate.
  destruct (Chat.conversationContext characterName elements) as [context|];
    [|discriminate].
  cbn [bind]. cbv zeta.
  destruct (Chat.outgoing_messages _ elements userMessage) as [ms|] eqn:M;
    [|discriminate].
  cbn [bind]. destruct (openai ms) as [[| |b|n|content|l|p]|]; try discriminate.
  cbn [bind]. intros H. apply Normal_inj in H. subst response.
  split; [apply (reply_is_clean content userMessage)|].
  exists elements. split; [reflexivity|]. exact (outgoing_messages_readable _ _ _ _ M).
Qed.

(** X27. The answers of the chat.  A request whose [userMessage] is no
    string, or whose [conversationHistory] is [null], is not answered 400:
    writing the first log line throws before the check, and the answer is
    the fallback reply with status 200, as it is for a missing sheet and a
    failing model.  The answer is 400 exactly for a history that is not
    [null] with an empty message, or with a message and a falsy
    [scenarioId]; it is 404 exactly when the request passes that check, the
    rows of the sheet are read, and no row has the [scenarioId] in its [scenario_id] or
    [id] cell.  A reply of the model is answered only for a history that is
    an array, or missing, none of whose last four elements is [null] or
    [undefined]; it has at least 10 code units and comes with the name and
    the role of the character, neither of them empty. *)
Theorem chat_answers {N : Request.NumberToString}
    (openai : list Chat.Outgoing -> completion Request.Value)
    (userMessage scenarioId conversationHistory : Request.Value)
    (scenariosSheet : option (list Row)) :
  let answer := Chat.chat openai userMessage scenarioId conversationHistory
                          scenariosSheet in
  (is_text_value userMessage = false \/ conversationHistory = Request.VNull ->
   answer = Chat.Fallback) /\
  (answer = Chat.Error400 <->
   exists text,
     userMessage = Request.VString text /\ conversationHistory <> Request.VNull /\
     (text = [] \/ Request.truthy scenarioId = false)) /\
  (answer = Chat.Error404 <->
   exists text rows,
     userMessage = Request.VString text /\ text <> [] /\
     conversationHistory <> Request.VNull /\
     Request.truthy scenarioId = true /\
     scenariosSheet = Some rows /\
     forall row, In row rows ->
                 value_of_cell (get row "scenario_id") <> scenarioId /\
                 value_of_cell (get row "id") <> scenarioId) /\
  (forall response character characterRole,
      answer = Chat.Json200 response character characterRole ->
      (10 <= length response)%nat /\
      truthy character = true /\ truthy characterRole = true /\
      exists elements,
        (conversationHistory = Request.VArray elements \/
         conversationHistory = Request.VUndefined /\ elements = []) /\
        readable (Chat.slice_from elements (-4)) = true).
Proof.
  intros answer. subst answer. unfold Chat.chat. cbv zeta.
  destruct userMessage as [| |b|n|text|l|p];
    try (repeat split; try discriminate; try reflexivity;
         [intros (t & E & _); discriminate E
         |intros (t & rows & E & _); discriminate E]).
  set (history := match conversationHistory with
                  | Request.VUndefined => Request.VArray []
                  | _ => conversationHistory
                  end).
  destruct (Request.length_of history) as [len|e] eqn:L.
  2:{ assert (E : conversationHistory = Request.VNull)
        by (destruct conversationHistory; try discriminate L; reflexivity).
      repeat split; try discriminate; try reflexivity.
      - intros (t & _ & Hn & _). congruence.
      - intros (t & rows & _ & _ & Hn & _). congruence. }
  assert (Hn : conversationHistory <> Request.VNull)
    by (intros ->; discriminate L).
  split; [intros [H|H]; [discriminate H | congruence]|].
  destruct text as [|c text]; cbn [Request.truthy length Nat.ltb Nat.leb negb orb].
  { repeat split; try discriminate.
    - intros _. exists []. repeat split; auto.
    - intros (t & rows & E & Hne & _). injection E as <-. congruence. }
  destruct (Request.truthy scenarioId) eqn:S; cbn [negb].
  2:{ repeat split; try discriminate.
      - intros _. exists (c :: text). repeat split; auto.
      - intros (t & rows & _ & _ & _ & Hs & _). discriminate Hs. }
  destruct scenariosSheet as [rows|].
  2:{ repeat split; try discriminate.
      - intros (t & E & _ & [->|Hs]); [discriminate E | discriminate Hs].
      - intros (t & rows & _ & _ & _ & _ & Hr & _). discriminate Hr. }
  destruct (find _ rows) as [scenario|] eqn:F.
  - assert (Nf : ~ exists text0 rows0,
                   Request.VString (c :: text) = Request.VString text0 /\
                   text0 <> [] /\ conversationHistory <> Request.VNull /\
                   true = true /\ Some rows = Some rows0 /\
                   forall row, In row rows0 ->
                               value_of_cell (get row "scenario_id") <> scenarioId /\
                               value_of_cell (get row "id") <> scenarioId).
    { intros (t & rows0 & _ & _ & _ & _ & Er & Hall). injection Er as <-.
      apply find_some in F as [Hin Hp]. destruct (Hall scenario Hin) as [N1 N2].
      apply orb_true_iff in Hp as [Hp|Hp]; apply strict_eq_cell_iff in Hp; congruence. }
    destruct (Chat.aiResponse _ _ _ _ _ _ history) as [response|e] eqn:A.
    + repeat split; try discriminate; try (intros H; now destruct (Nf H)).
      * intros (t & E & _ & [->|Hs]); [discriminate E | discriminate Hs].
      * injection H as <- _ _. exact (proj1 (aiResponse_returns _ _ _ _ _ _ _ _ A)).
      * injection H as _ <- _. now apply truthy_or_else.
      * injection H as _ _ <-. now apply truthy_or_else.
      * destruct (proj2 (aiResponse_returns _ _ _ _ _ _ _ _ A)) as (elements & E & R).
        exists elements. split; [|exact R]. unfold history in E.
        destruct conversationHistory; try discriminate E; try (now left).
        right. injection E as <-. split; reflexivity.
    + repeat split; try discriminate; try (intros H; now destruct (Nf H)).
      intros (t & E & _ & [->|Hs]); [discriminate E | discriminate Hs].
  - repeat split; try discriminate.
    + intros (t & E & _ & [->|Hs]); [discriminate E | discriminate Hs].
    + intros _. exists (c :: text), rows. repeat split; try discriminate; auto.
      * intros E. apply (find_none _ _ F) in H.
        apply orb_false_iff in H as [H _].
        apply strict_eq_cell_iff in E. congruence.
      * intros E. apply (find_none _ _ F) in H.
        apply orb_false_iff in H as [_ H].
        apply strict_eq_cell_iff in E. congruence.
Qed.

Lemma chat_answers_witness :
  @Chat.chat integer_text coach Request.VUndefined (text "s1") (Request.VArray [])
             (Some sample_rows) = Chat.Fallback /\
  @Chat.chat integer_text coach (text "") (text "s1") Request.VNull
             (Some sample_rows) = Chat.Fallback /\
  @Chat.chat integer_text coach (text "Hello") (number 0) (Request.VArray sample_request)
             (Some sample_rows) = Chat.Error400.
Proof.
  split; [|split].
  - apply (proj1 (@chat_answers integer_text coach Request.VUndefined (text "s1")
                    (Request.VArray []) (Some sample_rows))).
    left. reflexivity.
  - apply (proj1 (@chat_answers integer_text coach (text "") (text "s1")
                    Request.VNull (Some sample_rows))).
    right. reflexivity.
  - apply (proj1 (proj2 (@chat_answers integer_text coach (text "Hello") (number 0)
                           (Request.VArray sample_request) (Some sample_rows)))).
    exists (lit "Hello"). split; [reflexivity|]. split; [discriminate|].
    right. reflexivity.
Defined.

(** The messages of a history of turns are the messages of the objects. *)
Lemma outgoing_messages_of_objects (systemPrompt : jsstring) (h : list Turn)
                                   (userMessage : jsstring) :
  Chat.outgoing_messages systemPrompt (map object_of h) userMessage
  = Normal (map outgoing_of (Chat.messages systemPrompt h userMessage)).
Proof.
  unfold Chat.outgoing_messages, Chat.messages. cbv zeta.
  assert (S : Chat.slice_from (map object_of h) (-4)
              = map object_of (Chat.slice_from h (-4))).
  { unfold Chat.slice_from. now rewrite len_map, skipn_map. }
  rewrite S.
  assert (F : forall l acc,
            foldM (fun messages msg =>
                     speaker <- Request.property msg "speaker" ;;
                     if Request.is_text speaker (lit "user")
                     then message <- Request.property msg "message" ;;
                          Normal (push messages (Chat.mkOutgoing Chat.user message))
                     else if Request.is_text speaker (lit "ai")
                     then message <- Request.property msg "message" ;;
                          Normal (push messages
                                       (Chat.mkOutgoing Chat.assistant message))
                     else Normal messages)
                  (map object_of l) (map outgoing_of acc)
            = Normal (map outgoing_of
                        (fold_left
                           (fun messages msg =>
                              if is_user msg
                              then push messages
                                        (Chat.mkMessage Chat.user (message msg))
                              else if Chat.is_ai msg
                              then push messages
                                        (Chat.mkMessage Chat.assistant (message msg))
                              else messages)
                           l acc))).
  { induction l as [|msg l IH]; intros acc; [reflexivity|].
    cbn [map foldM fold_left].
    assert (P : forall name, Request.property (object_of msg) name
                             = Normal (field (object_of msg) name))
      by (intros name; now apply property_field).
    rewrite !P. cbn [bind].
    pose proof (turn_of_object msg) as T.
    assert (Es : field (object_of msg) "speaker" = value_of_cell (speaker msg)).
    { unfold object_of, field. cbn [Request.lookup].
      now destruct (list_eq_dec ascii_dec (lit "speaker") (lit "speaker")). }
    assert (Em : field (object_of msg) "message" = value_of_cell (message msg)).
    { unfold object_of, field. cbn [Request.lookup].
      destruct (list_eq_dec ascii_dec (lit "speaker") (lit "message")); [discriminate|].
      now destruct (list_eq_dec ascii_dec (lit "message") (lit "message")). }
    rewrite Es, Em.
    assert (U : Request.is_text (value_of_cell (speaker msg)) (lit "user")
                = is_user msg)
      by (unfold is_user; now destruct (speaker msg)).
    assert (A : Request.is_text (value_of_cell (speaker msg)) (lit "ai")
                = Chat.is_ai msg).
    { unfold Chat.is_ai, strict_eq. now destruct (speaker msg) as [| |x]. }
    rewrite U, A.
    destruct (is_user msg); [|destruct (Chat.is_ai msg)]; cbn [bind];
      rewrite <- IH; unfold push; now rewrite ?map_app. }
  rewrite (F _ [Chat.mkMessage Chat.system (JsString systemPrompt)]). cbn [bind].
  unfold push. now rewrite map_app.
Qed.
